(** * Canvas interaction engine of the image compositor (src/App.tsx,
      src/services): a shallow embedding and its verified properties.

    Conventions of the embedding.
    - A JavaScript [number] holding a coordinate, a size, an angle or a zoom
      factor is a real number ([R]); rounding, NaN and the infinities are
      outside the model.  A [zIndex] is an integer ([Z]), a time is a number
      of milliseconds ([Z]).
    - React state is one record, [AppState]; a handler is a function on it.
      [setX (prev => ...)] is an update of the field, closures read the state
      the handler was called on.
    - An [async] handler is cut at its first [await]: the synchronous prefix
      returns the new state and, when a job was started, what was started.
    - Ids are strings; the kind of an object is read off its id prefix, as
      the source does.
    - A [useEffect] is a function on the state, applied after the render
      that triggers it; a value drawn from [crypto.randomUUID ()] or read
      from the browser is an argument of the handler that draws it. *)

From Stdlib Require Import Reals Lra ZArith Lia Ascii.
From stdpp Require Import gmap strings list sorting pretty.

Local Open Scope R_scope.

(** ** JavaScript primitives used by the source *)

#[global] Instance Rlt_decision (a b : R) : Decision (a < b) := Rlt_dec a b.
#[global] Instance Rle_decision (a b : R) : Decision (a <= b) := Rle_dec a b.
#[global] Instance Rgt_decision (a b : R) : Decision (a > b) := Rgt_dec a b.
#[global] Instance Rge_decision (a b : R) : Decision (a >= b) := Rge_dec a b.
#[global] Instance Req_decision : EqDecision R := Req_dec_T.

Module Js.

(** [Array.prototype.find]: the first element satisfying [P]. *)
Definition find {A} (P : A -> Prop) `{!forall a, Decision (P a)}
    (l : list A) : option A :=
  snd <$> list_find P l.

(** [Array.prototype.some]. *)
Definition some {A} (P : A -> Prop) `{!forall a, Decision (P a)}
    (l : list A) : bool :=
  bool_decide (Exists P l).

(** [Array.prototype.includes] on an array of strings. *)
Definition includes (l : list string) (s : string) : bool :=
  bool_decide (s ∈ l).

(** [String.prototype.startsWith]. *)
Definition startsWith (s p : string) : bool := String.prefix p s.

(** [Math.max(...zs)] for a non-empty array of integers; the source always
    guards the call with [length > 0] and supplies the value otherwise. *)
Definition max_or (zs : list Z) (otherwise : Z) : Z :=
  match zs with
  | [] => otherwise
  | z :: rest => foldl Z.max z rest
  end.

(** [Array.prototype.sort (cmp)]: the stable sort (ECMAScript 2019); an
    element goes before the first one it does not compare greater than. *)
Fixpoint insertBy {A} (cmp : A -> A -> Z) (a : A) (l : list A) : list A :=
  match l with
  | [] => [a]
  | b :: rest =>
      if decide (cmp a b <= 0)%Z then a :: l else b :: insertBy cmp a rest
  end.

Definition sort {A} (cmp : A -> A -> Z) (l : list A) : list A :=
  foldr (insertBy cmp) [] l.

(** [Math.round]: the nearest integer, halves rounded up. *)
Definition Math_round (a : R) : Z := Int_part (a + / 2).

(** [Math.atan2 (b, a)], in radians. *)
Definition Math_atan2 (b a : R) : R :=
  if decide (0 < a) then atan (b / a)
  else if decide (a < 0) then
    (if decide (0 <= b) then atan (b / a) + PI else atan (b / a) - PI)
  else if decide (0 < b) then PI / 2
  else if decide (b < 0) then - (PI / 2)
  else 0.

(** [a || b] on numbers: [0] is falsy. *)
Definition or_number (a b : R) : R := if decide (a = 0) then b else a.

(** A whitespace character of [String.prototype.trim] (ASCII range). *)
Definition isWhitespace (c : ascii) : bool :=
  let n := nat_of_ascii c in
  bool_decide (n = 32%nat) || bool_decide (9 <= n <= 13)%nat.

(** [!s.trim()]: the string is empty once trimmed. *)
Fixpoint trimsToEmpty (s : string) : bool :=
  match s with
  | EmptyString => true
  | String c rest => isWhitespace c && trimsToEmpty rest
  end.

(** [Math.ceil]. *)
Definition Math_ceil (a : R) : Z := (- Int_part (- a))%Z.

(** [s.split (',')]. *)
Fixpoint split_comma (s : string) : list string :=
  match s with
  | EmptyString => [EmptyString]
  | String c rest =>
      if Ascii.eqb c ","%char then EmptyString :: split_comma rest
      else match split_comma rest with
           | first :: others => String c first :: others
           | [] => [String c EmptyString]
           end
  end.

(** [String.prototype.includes]. *)
Definition includes_string (s pattern : string) : bool :=
  bool_decide (is_Some (String.index 0 pattern s)).
End Js.

(** ** Data model (src/types) *)

Module CanvasObject.
Record t := mk {
  id : string;
  src : string;
  x : R;
  y : R;
  width : R;
  height : R;
  rotation : R;
  zIndex : Z;
  isAiResult : option bool
}.

Definition set_xy (o : t) (x' y' : R) : t :=
  mk (id o) (src o) x' y' (width o) (height o) (rotation o) (zIndex o)
     (isAiResult o).
Definition set_size (o : t) (w h : R) : t :=
  mk (id o) (src o) (x o) (y o) w h (rotation o) (zIndex o) (isAiResult o).
Definition set_rotation (o : t) (r : R) : t :=
  mk (id o) (src o) (x o) (y o) (width o) (height o) r (zIndex o)
     (isAiResult o).
Definition set_zIndex (o : t) (z : Z) : t :=
  mk (id o) (src o) (x o) (y o) (width o) (height o) (rotation o) z
     (isAiResult o).
End CanvasObject.

(** [FrameObject extends CanvasObject]. *)
Module FrameObject.
Record t := mk {
  base : CanvasObject.t;
  aspectRatio : R
}.

Definition id (f : t) := CanvasObject.id (base f).
Definition x (f : t) := CanvasObject.x (base f).
Definition y (f : t) := CanvasObject.y (base f).
Definition width (f : t) := CanvasObject.width (base f).
Definition height (f : t) := CanvasObject.height (base f).
Definition zIndex (f : t) := CanvasObject.zIndex (base f).

Definition set_xy (f : t) (x' y' : R) : t :=
  mk (CanvasObject.set_xy (base f) x' y') (aspectRatio f).
Definition set_size (f : t) (w h : R) : t :=
  mk (CanvasObject.set_size (base f) w h) (aspectRatio f).
Definition set_zIndex (f : t) (z : Z) : t :=
  mk (CanvasObject.set_zIndex (base f) z) (aspectRatio f).
End FrameObject.

Module PromptNodeObject.
Record t := mk {
  id : string;
  attachedToId : string;
  x : R;
  y : R;
  width : R;
  height : R;
  zIndex : Z;
  prompt : string
}.

Definition set_zIndex (n : t) (z : Z) : t :=
  mk (id n) (attachedToId n) (x n) (y n) (width n) (height n) z (prompt n).
(** [{ ...node, x, y, height }]. *)
Definition set_xy_height (n : t) (x' y' h : R) : t :=
  mk (id n) (attachedToId n) x' y' (width n) h (zIndex n) (prompt n).
End PromptNodeObject.

Module CanvasState.
Record t := mk {
  id : string;
  name : string;
  objects : list CanvasObject.t;
  frames : list FrameObject.t;
  promptNodes : list PromptNodeObject.t
}.
End CanvasState.

(** ** Geometry (src/App.tsx, utility functions) *)

Record Point := mkPoint { px : R; py : R }.

(** The structural type [{ x, y, width, height, rotation }] of the second
    argument of [isPointInRotatedRect]. *)
Record RotatedRect := mkRect {
  rx : R; ry : R; rwidth : R; rheight : R; rrotation : R
}.

Definition rectOf (o : CanvasObject.t) : RotatedRect :=
  mkRect (CanvasObject.x o) (CanvasObject.y o) (CanvasObject.width o)
         (CanvasObject.height o) (CanvasObject.rotation o).

Definition isPointInRotatedRect (point : Point) (rect : RotatedRect) : bool :=
  let cx := rx rect + rwidth rect / 2 in
  let cy := ry rect + rheight rect / 2 in
  let angleRad := - rrotation rect * (PI / 180) in
  let translatedX := px point - cx in
  let translatedY := py point - cy in
  let rotatedX := translatedX * cos angleRad - translatedY * sin angleRad in
  let rotatedY := translatedX * sin angleRad + translatedY * cos angleRad in
  let halfW := rwidth rect / 2 in
  let halfH := rheight rect / 2 in
  bool_decide (rotatedX >= - halfW) && bool_decide (rotatedX <= halfW)
  && bool_decide (rotatedY >= - halfH) && bool_decide (rotatedY <= halfH).

(** Rotation of a point about a center by [deg] degrees, in the convention of
    the [rotation] field (CSS [rotate(deg)], y axis pointing down). *)
Definition rotateAbout (c : Point) (deg : R) (p : Point) : Point :=
  let a := deg * (PI / 180) in
  mkPoint (px c + ((px p - px c) * cos a - (py p - py c) * sin a))
          (py c + ((px p - px c) * sin a + (py p - py c) * cos a)).

Definition rectCenter (rect : RotatedRect) : Point :=
  mkPoint (rx rect + rwidth rect / 2) (ry rect + rheight rect / 2).

(** The rectangle turned by [deg] more degrees about its own center. *)
Definition rotateRect (deg : R) (rect : RotatedRect) : RotatedRect :=
  mkRect (rx rect) (ry rect) (rwidth rect) (rheight rect)
         (rrotation rect + deg).

(** ** Capture pipeline (src/App.tsx, [captureFrameContentAsDataURL]) *)

(** The filter predicate of frame capture: overlap of the two axis-aligned
    boxes; the [rotation] of the image is not looked at. *)
Definition overlapsFrame (frame : FrameObject.t) (obj : CanvasObject.t) : Prop :=
  CanvasObject.x obj < FrameObject.x frame + FrameObject.width frame
  /\ CanvasObject.x obj + CanvasObject.width obj > FrameObject.x frame
  /\ CanvasObject.y obj < FrameObject.y frame + FrameObject.height frame
  /\ CanvasObject.y obj + CanvasObject.height obj > FrameObject.y frame.

#[global] Instance overlapsFrame_dec frame obj : Decision (overlapsFrame frame obj).
Proof. unfold overlapsFrame. apply _. Defined.

Definition byZIndexAscending (a b : CanvasObject.t) : Z :=
  (CanvasObject.zIndex a - CanvasObject.zIndex b)%Z.

Definition objectsToRender (frame : FrameObject.t) (objects : list CanvasObject.t)
    : list CanvasObject.t :=
  Js.sort byZIndexAscending (filter (overlapsFrame frame) objects).

(** One iteration of the drawing loop: [save], [translate], [rotate],
    [drawImage], [restore]. *)
Record DrawCall := mkDraw {
  image : string;
  translateX : R;
  translateY : R;
  rotateRad : R;
  destX : R;
  destY : R;
  destWidth : R;
  destHeight : R
}.

Definition drawCallOf (frame : FrameObject.t) (obj : CanvasObject.t) : DrawCall :=
  let relativeX := CanvasObject.x obj - FrameObject.x frame in
  let relativeY := CanvasObject.y obj - FrameObject.y frame in
  mkDraw (CanvasObject.src obj)
         (relativeX + CanvasObject.width obj / 2)
         (relativeY + CanvasObject.height obj / 2)
         (CanvasObject.rotation obj * PI / 180)
         (- CanvasObject.width obj / 2) (- CanvasObject.height obj / 2)
         (CanvasObject.width obj) (CanvasObject.height obj).

Inductive CaptureError := NoDrawingContext | ImageLoadFailed.

Record Captured := mkCaptured {
  background : string;
  drawn : list DrawCall;
  capturedWidth : Z;
  capturedHeight : Z
}.

(** The browser as seen by a capture: whether a 2D context is handed out and
    which image sources decode. *)
Record Browser := mkBrowser {
  hasContext2d : bool;
  loads : string -> bool
}.

Definition captureFrameContentAsDataURL (browser : Browser)
    (frame : FrameObject.t) (objects : list CanvasObject.t)
    : CaptureError + Captured :=
  let width := Js.Math_round (FrameObject.width frame) in
  let height := Js.Math_round (FrameObject.height frame) in
  if negb (hasContext2d browser) then inl NoDrawingContext
  else
    let toRender := objectsToRender frame objects in
    (* Promise.all over the image loads: one rejection rejects the whole *)
    if forallb (fun obj => loads browser (CanvasObject.src obj)) toRender
    then inr (mkCaptured "#101010" (drawCallOf frame <$> toRender) width height)
    else inl ImageLoadFailed.

(** ** Application state (src/App.tsx, [App]) *)

Definition PROMPT_NODE_WIDTH : R := 48.
Definition PROMPT_NODE_HEIGHT : R := 180.

Definition Z_INDEX_BASE_IMAGE : Z := 0.
Definition Z_INDEX_BASE_FRAME : Z := 10000.
Definition Z_INDEX_BASE_PROMPT_NODE : Z := 20000.

Inductive Provider := SD | NB.

Record Job := mkJob { jobId : string; jobProvider : Provider }.

Record ViewTransform := mkView { zoom : R; pan : Point }.

(** [getBoundingClientRect ()] of the viewport element. *)
Record DOMRect := mkDOMRect {
  left : R; top : R; boundsWidth : R; boundsHeight : R
}.

Inductive InteractionType := Move | ResizeBr | Rotate | Pan.

#[global] Instance InteractionType_eq_dec : EqDecision InteractionType.
Proof. solve_decision. Defined.

(** The scratch record held in [interactionRef]. *)
Record Interaction := mkInteraction {
  type : option InteractionType;
  targetId : string;
  startX : R;
  startY : R;
  startWidth : R;
  startHeight : R;
  startRotation : R;
  startAspectRatio : R;
  centerCanvasX : R;
  centerCanvasY : R;
  movedObjectIds : list string;
  startPositions : gmap string Point
}.

Definition set_type (r : Interaction) (ty : option InteractionType) : Interaction :=
  mkInteraction ty (targetId r) (startX r) (startY r) (startWidth r)
    (startHeight r) (startRotation r) (startAspectRatio r) (centerCanvasX r)
    (centerCanvasY r) (movedObjectIds r) (startPositions r).

Record AppState := mkApp {
  canvases : list CanvasState.t;
  activeCanvasId : option string;
  selectedObjectIds : list string;
  viewTransform : ViewTransform;
  activeCombinedJobs : list Job;
  isPanning : bool;
  isPanningWithSpace : bool;
  apiConfigs : gmap string string;
  prompt : string;
  textGenPrompt : string;
  error : option string;
  apiCallCounts : nat * nat;
  interactionRef : Interaction;
  (** [viewportRef.current]'s bounding rectangle, when the element is mounted *)
  viewportRef : option DOMRect;
  (** whether the window [mousemove]/[mouseup] listeners are registered *)
  listening : bool
}.

Definition setCanvases (f : list CanvasState.t -> list CanvasState.t)
    (s : AppState) : AppState :=
  mkApp (f (canvases s)) (activeCanvasId s) (selectedObjectIds s)
    (viewTransform s) (activeCombinedJobs s) (isPanning s)
    (isPanningWithSpace s) (apiConfigs s) (prompt s) (textGenPrompt s)
    (error s) (apiCallCounts s) (interactionRef s) (viewportRef s) (listening s).

Definition setSelectedObjectIds (f : list string -> list string)
    (s : AppState) : AppState :=
  mkApp (canvases s) (activeCanvasId s) (f (selectedObjectIds s))
    (viewTransform s) (activeCombinedJobs s) (isPanning s)
    (isPanningWithSpace s) (apiConfigs s) (prompt s) (textGenPrompt s)
    (error s) (apiCallCounts s) (interactionRef s) (viewportRef s) (listening s).

Definition setViewTransform (f : ViewTransform -> ViewTransform)
    (s : AppState) : AppState :=
  mkApp (canvases s) (activeCanvasId s) (selectedObjectIds s)
    (f (viewTransform s)) (activeCombinedJobs s) (isPanning s)
    (isPanningWithSpace s) (apiConfigs s) (prompt s) (textGenPrompt s)
    (error s) (apiCallCounts s) (interactionRef s) (viewportRef s) (listening s).

Definition setActiveCombinedJobs (f : list Job -> list Job)
    (s : AppState) : AppState :=
  mkApp (canvases s) (activeCanvasId s) (selectedObjectIds s)
    (viewTransform s) (f (activeCombinedJobs s)) (isPanning s)
    (isPanningWithSpace s) (apiConfigs s) (prompt s) (textGenPrompt s)
    (error s) (apiCallCounts s) (interactionRef s) (viewportRef s) (listening s).

Definition setIsPanning (b : bool) (s : AppState) : AppState :=
  mkApp (canvases s) (activeCanvasId s) (selectedObjectIds s)
    (viewTransform s) (activeCombinedJobs s) b
    (isPanningWithSpace s) (apiConfigs s) (prompt s) (textGenPrompt s)
    (error s) (apiCallCounts s) (interactionRef s) (viewportRef s) (listening s).

Definition setError (e : option string) (s : AppState) : AppState :=
  mkApp (canvases s) (activeCanvasId s) (selectedObjectIds s)
    (viewTransform s) (activeCombinedJobs s) (isPanning s)
    (isPanningWithSpace s) (apiConfigs s) (prompt s) (textGenPrompt s)
    e (apiCallCounts s) (interactionRef s) (viewportRef s) (listening s).

Definition setApiCallCounts (f : nat * nat -> nat * nat)
    (s : AppState) : AppState :=
  mkApp (canvases s) (activeCanvasId s) (selectedObjectIds s)
    (viewTransform s) (activeCombinedJobs s) (isPanning s)
    (isPanningWithSpace s) (apiConfigs s) (prompt s) (textGenPrompt s)
    (error s) (f (apiCallCounts s)) (interactionRef s) (viewportRef s)
    (listening s).

(** Assignment to [interactionRef.current] together with the registration
    state of the window listeners. *)
Definition setInteraction (r : Interaction) (l : bool) (s : AppState) : AppState :=
  mkApp (canvases s) (activeCanvasId s) (selectedObjectIds s)
    (viewTransform s) (activeCombinedJobs s) (isPanning s)
    (isPanningWithSpace s) (apiConfigs s) (prompt s) (textGenPrompt s)
    (error s) (apiCallCounts s) r (viewportRef s) l.

(** [canvases.find (c => c.id === activeCanvasId)]. *)
Definition activeCanvas (s : AppState) : option CanvasState.t :=
  Js.find (fun c => Some (CanvasState.id c) = activeCanvasId s) (canvases s).

(** [prev.map (c => c.id === activeCanvasId ? f c : c)]. *)
Definition onActiveCanvas (s : AppState) (f : CanvasState.t -> CanvasState.t)
    (prev : list CanvasState.t) : list CanvasState.t :=
  (fun c => if decide (Some (CanvasState.id c) = activeCanvasId s)
            then f c else c) <$> prev.

Definition getCanvasCoordinates (s : AppState) (screenX screenY : R) : Point :=
  match viewportRef s with
  | None => mkPoint 0 0
  | Some rect =>
      let transform := viewTransform s in
      mkPoint ((screenX - left rect - px (pan transform)) / zoom transform)
              ((screenY - top rect - py (pan transform)) / zoom transform)
  end.

(** The fields of a mouse event that the handlers read. *)
Record MouseEvent := mkMouse {
  clientX : R;
  clientY : R;
  movementX : R;
  movementY : R;
  shiftKey : bool;
  button : Z
}.

(** ** Deletion and prompt-node handlers *)

(** [!activeCanvasId]: [null] and the empty string are falsy. *)
Definition noActiveCanvasId (s : AppState) : bool :=
  match activeCanvasId s with
  | None => true
  | Some a => bool_decide (a = "")
  end.

Definition mapObjects (f : list CanvasObject.t -> list CanvasObject.t)
    (c : CanvasState.t) : CanvasState.t :=
  CanvasState.mk (CanvasState.id c) (CanvasState.name c)
    (f (CanvasState.objects c)) (CanvasState.frames c)
    (CanvasState.promptNodes c).

Definition mapFrames (f : list FrameObject.t -> list FrameObject.t)
    (c : CanvasState.t) : CanvasState.t :=
  CanvasState.mk (CanvasState.id c) (CanvasState.name c)
    (CanvasState.objects c) (f (CanvasState.frames c))
    (CanvasState.promptNodes c).

Definition mapPromptNodes (f : list PromptNodeObject.t -> list PromptNodeObject.t)
    (c : CanvasState.t) : CanvasState.t :=
  CanvasState.mk (CanvasState.id c) (CanvasState.name c)
    (CanvasState.objects c) (CanvasState.frames c)
    (f (CanvasState.promptNodes c)).

Definition handleDeleteFrame (idToDelete : string) (s : AppState) : AppState :=
  match activeCanvas s with
  | None => s
  | Some _ =>
      let s1 := setCanvases (onActiveCanvas s (fun c =>
        mapPromptNodes
          (filter (fun p => PromptNodeObject.attachedToId p <> idToDelete))
          (mapFrames (filter (fun f => FrameObject.id f <> idToDelete)) c))) s in
      setSelectedObjectIds (filter (fun id => id <> idToDelete)) s1
  end.

Definition handleDeleteSingleObject (idToDelete : string) (s : AppState)
    : AppState :=
  if noActiveCanvasId s then s
  else
    let s1 := setCanvases (onActiveCanvas s (fun c =>
      mapPromptNodes
        (filter (fun p => PromptNodeObject.attachedToId p <> idToDelete))
        (mapObjects (filter (fun o => CanvasObject.id o <> idToDelete)) c))) s in
    setSelectedObjectIds (filter (fun id => id <> idToDelete)) s1.

Definition deleteSelectedObjects (s : AppState) : AppState :=
  if bool_decide (0 < length (selectedObjectIds s))%nat
     && negb (noActiveCanvasId s)
  then
    let s1 := setCanvases (onActiveCanvas s (fun c =>
      mapObjects
        (filter (fun o => ¬ Js.includes (selectedObjectIds s) (CanvasObject.id o)))
        c)) s in
    setSelectedObjectIds (fun _ => []) s1
  else s.

Definition handleClearCanvas (s : AppState) : AppState :=
  if noActiveCanvasId s then s
  else
    let s1 := setCanvases (onActiveCanvas s (fun c =>
      CanvasState.mk (CanvasState.id c) (CanvasState.name c) [] [] [])) s in
    setSelectedObjectIds (fun _ => []) s1.

Definition handleDeletePromptNode (idToDelete : string) (s : AppState)
    : AppState :=
  match activeCanvas s with
  | None => s
  | Some _ =>
      let s1 := setCanvases (onActiveCanvas s
        (mapPromptNodes (filter (fun p => PromptNodeObject.id p <> idToDelete)))) s in
      setSelectedObjectIds (filter (fun id => id <> idToDelete)) s1
  end.

(** The parent of a prompt node: an image of that id, else a frame of that
    id; only the fields shared by both are read afterwards. *)
Definition findParent (objects : list CanvasObject.t)
    (frames : list FrameObject.t) (id : string) : option CanvasObject.t :=
  match Js.find (fun o => CanvasObject.id o = id) objects with
  | Some o => Some o
  | None => FrameObject.base <$> Js.find (fun f => FrameObject.id f = id) frames
  end.

(** [uuid] is the value drawn from [crypto.randomUUID ()]. *)
Definition handleAddPromptNode (uuid : string) (s : AppState) : AppState :=
  match activeCanvas s, selectedObjectIds s with
  | Some ac, [parentId] =>
      let isFrame := Js.startsWith parentId "format-frame-" in
      let parent :=
        if isFrame
        then FrameObject.base <$>
               Js.find (fun f => FrameObject.id f = parentId) (CanvasState.frames ac)
        else Js.find (fun o => CanvasObject.id o = parentId) (CanvasState.objects ac) in
      let taken :=
        Js.some (fun p => PromptNodeObject.attachedToId p = parentId)
                (CanvasState.promptNodes ac) in
      match parent with
      | None => setError (Some "Could not find parent object.") s
      | Some parent =>
          if taken then setError (Some "This object already has a prompt node.") s
          else
            let newZIndex :=
              match CanvasState.promptNodes ac with
              | [] => Z_INDEX_BASE_PROMPT_NODE
              | nodes => (Js.max_or (PromptNodeObject.zIndex <$> nodes) 0 + 1)%Z
              end in
            let newNode :=
              PromptNodeObject.mk ("prompt-node-" +:+ uuid)
                (CanvasObject.id parent)
                (CanvasObject.x parent - PROMPT_NODE_WIDTH - 8)
                (CanvasObject.y parent + CanvasObject.height parent / 2
                 - PROMPT_NODE_HEIGHT / 2)
                PROMPT_NODE_WIDTH PROMPT_NODE_HEIGHT newZIndex "" in
            setCanvases (onActiveCanvas s
              (mapPromptNodes (fun nodes => nodes ++ [newNode]))) s
      end
  | _, _ => s
  end.

(** ** Interaction state machine *)

(** [CanvasObject | FrameObject | PromptNodeObject]. *)
Inductive TargetObject :=
| TImage (o : CanvasObject.t)
| TFrame (f : FrameObject.t)
| TNode (n : PromptNodeObject.t).

Module Target.
Definition id (t : TargetObject) : string :=
  match t with
  | TImage o => CanvasObject.id o
  | TFrame f => FrameObject.id f
  | TNode n => PromptNodeObject.id n
  end.
Definition x (t : TargetObject) : R :=
  match t with
  | TImage o => CanvasObject.x o
  | TFrame f => FrameObject.x f
  | TNode n => PromptNodeObject.x n
  end.
Definition y (t : TargetObject) : R :=
  match t with
  | TImage o => CanvasObject.y o
  | TFrame f => FrameObject.y f
  | TNode n => PromptNodeObject.y n
  end.
Definition width (t : TargetObject) : R :=
  match t with
  | TImage o => CanvasObject.width o
  | TFrame f => FrameObject.width f
  | TNode n => PromptNodeObject.width n
  end.
Definition height (t : TargetObject) : R :=
  match t with
  | TImage o => CanvasObject.height o
  | TFrame f => FrameObject.height f
  | TNode n => PromptNodeObject.height n
  end.
(** [(targetObj as CanvasObject).rotation || 0] *)
Definition rotationOr0 (t : TargetObject) : R :=
  match t with
  | TImage o => Js.or_number (CanvasObject.rotation o) 0
  | TFrame f => Js.or_number (CanvasObject.rotation (FrameObject.base f)) 0
  | TNode _ => 0
  end.
(** [(targetObj as FrameObject).aspectRatio || 1] *)
Definition aspectRatioOr1 (t : TargetObject) : R :=
  match t with
  | TFrame f => Js.or_number (FrameObject.aspectRatio f) 1
  | _ => 1
  end.
End Target.

(** [Object.fromEntries (allSelected.map (obj => [obj.id, {x, y}]))]: a later
    entry of the same key replaces an earlier one. *)
Definition snapshotPositions (allSelected : list TargetObject)
    : gmap string Point :=
  foldl (fun m t => <[Target.id t := mkPoint (Target.x t) (Target.y t)]> m)
        ∅ allSelected.

Definition isFrameId (id : string) : bool := Js.startsWith id "format-frame-".
Definition isNodeId (id : string) : bool := Js.startsWith id "prompt-node-".

(** The selection after a pointer-down on [id]. *)
Definition selectionAfterPointerDown (selected : list string) (id : string)
    (shift : bool) : list string :=
  let isFrame := isFrameId id in
  let isNode := isNodeId id in
  let isImage := negb isFrame && negb isNode in
  if isImage || isFrame then
    if negb shift then
      (if Js.includes selected id then selected else [id])
    else
      (if Js.includes selected id
       then filter (fun sid => sid <> id) selected
       else selected ++ [id])
  else if isNode then [id]
  else selected.

(** The z-promotion applied to the active canvas at interaction start. *)
Definition promote (id : string) (c : CanvasState.t) : CanvasState.t :=
  let isFrame := isFrameId id in
  let isNode := isNodeId id in
  let isImage := negb isFrame && negb isNode in
  let '(updatedObjects, updatedFrames, updatedPromptNodes) :=
    if isFrame then
      let maxFrameZ :=
        Js.max_or (FrameObject.zIndex <$> CanvasState.frames c)
                  (Z_INDEX_BASE_FRAME - 1) in
      (CanvasState.objects c,
       (fun f => if decide (FrameObject.id f = id)
                 then FrameObject.set_zIndex f (maxFrameZ + 1) else f)
         <$> CanvasState.frames c,
       CanvasState.promptNodes c)
    else if isNode then
      let maxNodeZ :=
        Js.max_or (PromptNodeObject.zIndex <$> CanvasState.promptNodes c)
                  (Z_INDEX_BASE_PROMPT_NODE - 1) in
      (CanvasState.objects c, CanvasState.frames c,
       (fun p => if decide (PromptNodeObject.id p = id)
                 then PromptNodeObject.set_zIndex p (maxNodeZ + 1) else p)
         <$> CanvasState.promptNodes c)
    else
      let maxImageZ :=
        Js.max_or (CanvasObject.zIndex <$> CanvasState.objects c)
                  (Z_INDEX_BASE_IMAGE - 1) in
      ((fun obj => if decide (CanvasObject.id obj = id)
                   then CanvasObject.set_zIndex obj (maxImageZ + 1) else obj)
         <$> CanvasState.objects c,
       CanvasState.frames c, CanvasState.promptNodes c) in
  (* Also bring attached node to front of its layer if the parent was clicked *)
  let updatedPromptNodes :=
    if isImage || isFrame then
      let maxNodeZ :=
        Js.max_or (PromptNodeObject.zIndex <$> updatedPromptNodes)
                  (Z_INDEX_BASE_PROMPT_NODE - 1) in
      (fun p => if decide (PromptNodeObject.attachedToId p = id)
                then PromptNodeObject.set_zIndex p (maxNodeZ + 1) else p)
        <$> updatedPromptNodes
    else updatedPromptNodes in
  CanvasState.mk (CanvasState.id c) (CanvasState.name c)
    updatedObjects updatedFrames updatedPromptNodes.

(** The entries of [allSelected] when a session starts on an image: the
    selected images, then the prompt nodes attached to a selected id. *)
Definition imageSnapshotEntries (c : CanvasState.t) (current : list string)
    : list TargetObject :=
  (TImage <$> filter (fun o => Js.includes current (CanvasObject.id o))
                     (CanvasState.objects c))
  ++ (TNode <$> filter (fun p => Js.includes current
                                   (PromptNodeObject.attachedToId p))
                       (CanvasState.promptNodes c)).

Definition handleInteractionStart (id : string) (e : MouseEvent)
    (ty : InteractionType) (s : AppState) : AppState :=
  match activeCanvas s with
  | None => s
  | Some ac =>
      let isFrame := isFrameId id in
      let isNode := isNodeId id in
      let currentSelectedIds :=
        selectionAfterPointerDown (selectedObjectIds s) id (shiftKey e) in
      let s1 := setSelectedObjectIds (fun _ => currentSelectedIds) s in
      let targetObj :=
        if isFrame
        then TFrame <$> Js.find (fun f => FrameObject.id f = id) (CanvasState.frames ac)
        else if isNode
        then TNode <$> Js.find (fun p => PromptNodeObject.id p = id)
                         (CanvasState.promptNodes ac)
        else TImage <$> Js.find (fun o => CanvasObject.id o = id)
                          (CanvasState.objects ac) in
      match targetObj with
      | None => s1
      | Some targetObj =>
          (* Prevent prompt nodes from being moved directly *)
          if isNode && bool_decide (ty = Move) then s1
          else
            let allSelected :=
              if isNode then [targetObj]
              else if isFrame then [targetObj]
              else TImage <$>
                     filter (fun o => Js.includes currentSelectedIds (CanvasObject.id o))
                            (CanvasState.objects ac) in
            let movedObjectIds :=
              if isNode then [id]
              else if isFrame then [id]
              else currentSelectedIds in
            let attachedNodes :=
              filter (fun p => Js.includes movedObjectIds
                                 (PromptNodeObject.attachedToId p))
                     (CanvasState.promptNodes ac) in
            let allSelected := allSelected ++ (TNode <$> attachedNodes) in
            let session :=
              mkInteraction (Some ty) id (clientX e) (clientY e)
                (Target.width targetObj) (Target.height targetObj)
                (Target.rotationOr0 targetObj) (Target.aspectRatioOr1 targetObj)
                (Target.x targetObj + Target.width targetObj / 2)
                (Target.y targetObj + Target.height targetObj / 2)
                movedObjectIds (snapshotPositions allSelected) in
            setCanvases (onActiveCanvas s (promote id))
              (setInteraction session true s1)
      end
  end.

Definition handleMouseUp (s : AppState) : AppState :=
  setInteraction (set_type (interactionRef s) None) false (setIsPanning false s).

Definition byZIndexDescending (a b : CanvasObject.t) : Z :=
  (CanvasObject.zIndex b - CanvasObject.zIndex a)%Z.

Definition handleFrameMouseDown (frameId : string) (e : MouseEvent)
    (s : AppState) : AppState :=
  match activeCanvas s with
  | None => s
  | Some ac =>
      let clickCoords := getCanvasCoordinates s (clientX e) (clientY e) in
      let objectsUnderCursor :=
        Js.sort byZIndexDescending
          (filter (fun obj => isPointInRotatedRect clickCoords (rectOf obj))
                  (CanvasState.objects ac)) in
      match objectsUnderCursor with
      | top :: _ => handleInteractionStart (CanvasObject.id top) e Move s
      | [] => handleInteractionStart frameId e Move s
      end
  end.

(** [onBackground] is [e.target === e.currentTarget]. *)
Definition handleViewportMouseDown (onBackground : bool) (e : MouseEvent)
    (s : AppState) : AppState :=
  if negb onBackground then s
  else if isPanningWithSpace s || bool_decide (button e = 2%Z) then
    setInteraction (set_type (interactionRef s) (Some Pan)) true
      (setIsPanning true s)
  else setSelectedObjectIds (fun _ => []) s.

(** The generic [moveTarget] of [handleMouseMove] needs an id and a way to
    replace the position. *)
Class Positioned (T : Type) := {
  idOf : T -> string;
  withPosition : T -> R -> R -> T
}.

#[global] Instance CanvasObject_positioned : Positioned CanvasObject.t :=
  {| idOf := CanvasObject.id; withPosition := CanvasObject.set_xy |}.
#[global] Instance FrameObject_positioned : Positioned FrameObject.t :=
  {| idOf := FrameObject.id; withPosition := FrameObject.set_xy |}.

Definition moveTarget `{Positioned T} (startPositions : gmap string Point)
    (dx dy : R) (target : T) : T :=
  match startPositions !! idOf target with
  | None => target
  | Some startPos => withPosition target (px startPos + dx) (py startPos + dy)
  end.

(** [{ ...node, x, y, height }] recomputed from the parent. *)
Definition syncWithParent (parent : CanvasObject.t) (node : PromptNodeObject.t)
    : PromptNodeObject.t :=
  PromptNodeObject.set_xy_height node
    (CanvasObject.x parent - PROMPT_NODE_WIDTH - 8)
    (CanvasObject.y parent + CanvasObject.height parent / 2
     - PROMPT_NODE_HEIGHT / 2)
    (CanvasObject.height parent).

(** The images and frames after one [mousemove] of a session of type [ty]
    other than [Pan]; [mousePos] and [startPos] are the canvas coordinates of
    the pointer now and at session start. *)
Definition movedLayers (r : Interaction) (ty : InteractionType) (dx dy : R)
    (mousePos startPos : Point) (c : CanvasState.t)
    : list CanvasObject.t * list FrameObject.t :=
  let targetId := targetId r in
  match ty with
  | Move =>
      if isFrameId targetId then
        (CanvasState.objects c,
         (fun f => if Js.includes (movedObjectIds r) (FrameObject.id f)
                   then moveTarget (startPositions r) dx dy f else f)
           <$> CanvasState.frames c)
      else if isNodeId targetId then
        (* Prevent moving prompt nodes directly *)
        (CanvasState.objects c, CanvasState.frames c)
      else
        ((fun obj => if Js.includes (movedObjectIds r) (CanvasObject.id obj)
                     then moveTarget (startPositions r) dx dy obj else obj)
           <$> CanvasState.objects c,
         CanvasState.frames c)
  | ResizeBr =>
      if isFrameId targetId then
        let newWidth := Rmax 50 (startWidth r + dx) in
        let newHeight := newWidth / startAspectRatio r in
        (CanvasState.objects c,
         (fun f => if decide (FrameObject.id f = targetId)
                   then FrameObject.set_size f newWidth newHeight else f)
           <$> CanvasState.frames c)
      else
        let newWidth := Rmax 20 (startWidth r + dx) in
        let newHeight := Rmax 20 (startHeight r + dy) in
        ((fun o => if decide (CanvasObject.id o = targetId)
                   then CanvasObject.set_size o newWidth newHeight else o)
           <$> CanvasState.objects c,
         CanvasState.frames c)
  | Rotate =>
      if negb (isFrameId targetId) && negb (isNodeId targetId) then
        let angle :=
          Js.Math_atan2 (py mousePos - centerCanvasY r)
                        (px mousePos - centerCanvasX r) * (180 / PI) in
        let startAngle :=
          Js.Math_atan2 (py startPos - centerCanvasY r)
                        (px startPos - centerCanvasX r) * (180 / PI) in
        ((fun o => if decide (CanvasObject.id o = targetId)
                   then CanvasObject.set_rotation o
                          (startRotation r + (angle - startAngle))
                   else o)
           <$> CanvasState.objects c,
         CanvasState.frames c)
      else (CanvasState.objects c, CanvasState.frames c)
  | Pan => (CanvasState.objects c, CanvasState.frames c)
  end.

(** The callbacks that [movedLayers] maps over the images during a move and
    over the frames during a frame resize, by name. *)
Definition movedImage (r : Interaction) (dx dy : R) (obj : CanvasObject.t)
    : CanvasObject.t :=
  if Js.includes (movedObjectIds r) (CanvasObject.id obj)
  then moveTarget (startPositions r) dx dy obj else obj.

Definition resizedFrame (r : Interaction) (dx : R) (f : FrameObject.t)
    : FrameObject.t :=
  if decide (FrameObject.id f = targetId r)
  then FrameObject.set_size f (Rmax 50 (startWidth r + dx))
         (Rmax 50 (startWidth r + dx) / startAspectRatio r)
  else f.

(** The update that one [mousemove] applies to the active canvas: the moved
    layers, then the prompt nodes synced with their parents. *)
Definition moveTick (r : Interaction) (ty : InteractionType) (dx dy : R)
    (mousePos startPos : Point) (c : CanvasState.t) : CanvasState.t :=
  let layers := movedLayers r ty dx dy mousePos startPos c in
  let newObjects := layers.1 in
  let newFrames := layers.2 in
  (* Sync prompt nodes with their parents *)
  let newPromptNodes :=
    (fun node =>
       match findParent newObjects newFrames (PromptNodeObject.attachedToId node) with
       | Some parent => syncWithParent parent node
       | None => node
       end) <$> CanvasState.promptNodes c in
  CanvasState.mk (CanvasState.id c) (CanvasState.name c)
    newObjects newFrames newPromptNodes.

(** The function that one [mousemove] of a session of type [ty] hands to
    [setCanvases] for the active canvas. *)
Definition sessionTick (s : AppState) (ty : InteractionType) (e : MouseEvent)
    : CanvasState.t -> CanvasState.t :=
  let r := interactionRef s in
  let zoom := zoom (viewTransform s) in
  let dx := (clientX e - startX r) / zoom in
  let dy := (clientY e - startY r) / zoom in
  moveTick r ty dx dy
    (getCanvasCoordinates s (clientX e) (clientY e))
    (getCanvasCoordinates s (startX r) (startY r)).

Definition handleMouseMove (e : MouseEvent) (s : AppState) : AppState :=
  match activeCanvas s with
  | None => s
  | Some _ =>
      let r := interactionRef s in
      match type r with
      | None => s
      | Some Pan =>
          setViewTransform (fun prev =>
            mkView (zoom prev)
                   (mkPoint (px (pan prev) + movementX e)
                            (py (pan prev) + movementY e))) s
      | Some ty =>
          if bool_decide (targetId r = "") then s
          else setCanvases (onActiveCanvas s (sessionTick s ty e)) s
      end
  end.

(** A drag: the [mousemove] events delivered between pointer-down and
    pointer-up, oldest first. *)
Definition ticks (es : list MouseEvent) (s : AppState) : AppState :=
  foldl (fun s e => handleMouseMove e s) s es.

(** ** Image import (src/App.tsx, [handleAddImagesToCanvas]) *)

(** One selected file, with what the browser makes of it. *)
Record ImageFile := mkFile {
  (** [URL.createObjectURL (file)] *)
  objectUrl : string;
  (** [img.width] and [img.height] when [onload] fires, nothing on [onerror] *)
  decoded : option (R * R);
  (** how many files of the batch finished loading before this one *)
  loadRank : nat;
  (** the [crypto.randomUUID ()] drawn in its [onload] *)
  newId : string
}.

Definition loadImageObject (zIndexCounter : Z) (file : ImageFile)
    : option CanvasObject.t :=
  match decoded file with
  | None => None
  | Some (imgWidth, imgHeight) =>
      Some (CanvasObject.mk (newId file) (objectUrl file) 0 0 150
              (150 / (imgWidth / imgHeight)) 0
              (zIndexCounter + Z.of_nat (loadRank file))%Z None)
  end.

Definition viewCenter (s : AppState) : Point :=
  match viewportRef s with
  | Some viewportBounds =>
      getCanvasCoordinates s
        (left viewportBounds + boundsWidth viewportBounds / 2)
        (top viewportBounds + boundsHeight viewportBounds / 2)
  | None => mkPoint 0 0
  end.

Definition IMAGE_LIMIT : Z := 20.

(** [files] is [e.target.files]. *)
Definition handleAddImagesToCanvas (files : option (list ImageFile))
    (s : AppState) : AppState :=
  match files, activeCanvas s with
  | Some files, Some ac =>
      if bool_decide (length files = 0%nat) then s
      else
        let limit := IMAGE_LIMIT in
        let currentCount := Z.of_nat (length (CanvasState.objects ac)) in
        let canAddCount := (limit - currentCount)%Z in
        if bool_decide (canAddCount <= 0)%Z then
          setError (Some ("Canvas image limit of " +:+ pretty limit +:+ " reached.")) s
        else
          let filesToAdd := take (Z.to_nat canAddCount) files in
          let s1 :=
            if bool_decide (length filesToAdd < length files)%nat
            then setError (Some ("Only " +:+ pretty (length filesToAdd)
                                 +:+ " were added to reach the limit of "
                                 +:+ pretty limit +:+ ".")) s
            else setError None s in
          let zIndexCounter :=
            match CanvasState.objects ac with
            | [] => Z_INDEX_BASE_IMAGE
            | objs => (Js.max_or (CanvasObject.zIndex <$> objs) 0 + 1)%Z
            end in
          (* await Promise.all: one failed load rejects, nothing is added *)
          match mapM (loadImageObject zIndexCounter) filesToAdd with
          | None => s1
          | Some newImageObjects =>
              let center := viewCenter s in
              let n := INR (length newImageObjects) in
              let positionedObjects :=
                imap (fun index obj =>
                        CanvasObject.set_xy obj
                          (px center - CanvasObject.width obj / 2
                           + (INR index - (n - 1) / 2) * 30)
                          (py center - CanvasObject.height obj / 2
                           + (INR index - (n - 1) / 2) * 30))
                     newImageObjects in
              setCanvases (onActiveCanvas s
                (mapObjects (fun objs => objs ++ positionedObjects))) s1
          end
  | _, _ => s
  end.

(** ** Job orchestration (src/App.tsx) *)

Definition MAX_CONCURRENT_JOBS : nat := 10.

(** What a handler has set in motion when it reaches its first [await]: the
    job it registered and the request that the capture and the provider call
    will work on. *)
Inductive Started :=
| StartedEdit (job : Job) (source : TargetObject) (apiPrompt apiKey : string)
| StartedUpscale (job : Job) (source : CanvasObject.t) (apiKey : string)
| StartedGenerate (job : Job) (textPrompt apiKey : string).

(** [apiConfigs[provider]], with [!apiKey] read as absent. *)
Definition apiKeyOf (s : AppState) (provider : string) : option string :=
  match apiConfigs s !! provider with
  | Some key => if bool_decide (key = "") then None else Some key
  | None => None
  end.

Definition countCall (targetApi : Provider) (counts : nat * nat) : nat * nat :=
  match targetApi with
  | SD => (S counts.1, counts.2)
  | NB => (counts.1, S counts.2)
  end.

(** The message of the cap, as the three handlers spell it. *)
Definition capMessage : string := "Maximum of 10 concurrent AI jobs reached.".

(** [jobId] is the value drawn from [crypto.randomUUID ()]. *)
Definition handleSendObjectToApi (objectId : string) (targetApi : Provider)
    (jobId : string) (s : AppState) : AppState * option Started :=
  match activeCanvas s with
  | None => (s, None)
  | Some ac =>
      if bool_decide (MAX_CONCURRENT_JOBS <= length (activeCombinedJobs s))%nat
      then (setError (Some "Maximum of 10 concurrent AI jobs reached.") s, None)
      else
        let isFrame := isFrameId objectId in
        let originalObject :=
          if isFrame
          then TFrame <$> Js.find (fun f => FrameObject.id f = objectId)
                            (CanvasState.frames ac)
          else TImage <$> Js.find (fun o => CanvasObject.id o = objectId)
                            (CanvasState.objects ac) in
        match originalObject with
        | None =>
            (setError (Some "Could not find the source object to process.") s, None)
        | Some originalObject =>
            (* Safety check for frames containing images with their own prompt nodes *)
            let hasNestedPromptNode :=
              match originalObject with
              | TFrame frame =>
                  let objectsInFrame :=
                    filter (overlapsFrame frame) (CanvasState.objects ac) in
                  let objectIdsInFrame := CanvasObject.id <$> objectsInFrame in
                  Js.some (fun node => Js.includes objectIdsInFrame
                                         (PromptNodeObject.attachedToId node))
                          (CanvasState.promptNodes ac)
              | _ => false
              end in
            if hasNestedPromptNode then
              (setError (Some "Cannot process frame: An image inside the frame has its own prompt node attached. Please remove it and attach a single prompt node to the frame itself.") s, None)
            else
              let attachedNode :=
                Js.find (fun p => PromptNodeObject.attachedToId p = objectId)
                        (CanvasState.promptNodes ac) in
              let apiPrompt :=
                match attachedNode with
                | Some node => PromptNodeObject.prompt node
                | None => prompt s
                end in
              if Js.trimsToEmpty apiPrompt then
                (setError (Some "Please enter an edit prompt or assign one to the selected object's node.") s, None)
              else
                let provider :=
                  match targetApi with NB => "gemini" | SD => "seadream" end in
                match apiKeyOf s provider with
                | None =>
                    (setError (Some ("API key for " +:+ provider +:+ " is required.")) s,
                     None)
                | Some apiKey =>
                    let job := mkJob jobId targetApi in
                    let s1 := setError None s in
                    let s2 := setApiCallCounts (countCall targetApi) s1 in
                    let s3 := setActiveCombinedJobs (fun prev => prev ++ [job]) s2 in
                    (s3, Some (StartedEdit job originalObject apiPrompt apiKey))
                end
        end
  end.

Definition handleUpscaleSingleImage (objectId : string) (jobId : string)
    (s : AppState) : AppState * option Started :=
  match activeCanvas s with
  | None => (s, None)
  | Some ac =>
      match apiKeyOf s "seadream" with
      | None =>
          (setError (Some "SeaDream API key must be connected for upscaling.") s, None)
      | Some apiKey =>
          if bool_decide (MAX_CONCURRENT_JOBS <= length (activeCombinedJobs s))%nat
          then (setError (Some "Maximum of 10 concurrent AI jobs reached.") s, None)
          else
            let s1 := setApiCallCounts (countCall SD) (setError None s) in
            match Js.find (fun o => CanvasObject.id o = objectId)
                          (CanvasState.objects ac) with
            | None =>
                (setError (Some "Could not find source object to upscale.") s1, None)
            | Some originalObject =>
                let job := mkJob jobId SD in
                (setActiveCombinedJobs (fun prev => prev ++ [job]) s1,
                 Some (StartedUpscale job originalObject apiKey))
            end
      end
  end.

Definition handleGenerateTextToImage (jobId : string) (s : AppState)
    : AppState * option Started :=
  match apiKeyOf s "seadream" with
  | Some apiKey =>
      if Js.trimsToEmpty (textGenPrompt s) then
        (setError (Some "SeaDream API key must be connected and a prompt provided.") s,
         None)
      else if bool_decide (MAX_CONCURRENT_JOBS <= length (activeCombinedJobs s))%nat
      then (setError (Some "Maximum of 10 concurrent AI jobs reached.") s, None)
      else
        let job := mkJob jobId SD in
        let s1 := setApiCallCounts (countCall SD) (setError None s) in
        (setActiveCombinedJobs (fun prev => prev ++ [job]) s1,
         Some (StartedGenerate job (textGenPrompt s) apiKey))
  | None =>
      (setError (Some "SeaDream API key must be connected and a prompt provided.") s,
       None)
  end.

(** The [catch] and [finally] of a job: the error of a failed job is shown,
    and the job leaves the active set whatever the outcome. *)
Definition settleJob (jobId' : string) (failure : option string)
    (s : AppState) : AppState :=
  let s1 := match failure with
            | Some msg => setError (Some msg) s
            | None => s
            end in
  setActiveCombinedJobs (filter (fun job => jobId job <> jobId')) s1.

(** ** Provider polling (src/services, [editImageWithSeaDream] and
       [generateImageWithSeaDream] from [const pollingStartTime] on) *)

Module SeaDream.

(** What one [fetch (RESULT_URL)] brings back: a rejected promise (the
    request or the parsing of its body failed), a response that is not ok,
    or the fields read from the JSON body. *)
Inductive PollReply :=
| Rejected (reason : string)
| HttpNotOk (status : Z)
| Json (status : option string) (output0 : option string)
       (error : option string).

(** One turn of the loop as the environment decides it: how long the timer
    and the request took beyond the 5000 ms asked for, and the reply. *)
Record PollStep := mkStep { delay : N; reply : PollReply }.

(** How a run ends: with the data URI, with an [Error] made by the loop
    itself ([throw new Error (message)]), or with the rejection of a
    [fetch] that escapes the loop as it came. *)
Inductive Outcome :=
| Returned (dataUri : string)
| Thrown (message : string)
| Escaped (reason : string)
| OutOfFuel.

(** The two copies of the loop differ in their messages only. *)
Record Messages := mkMessages {
  noOutputUrl : string;
  downloadFailed : string;
  taskFailed : string;
  timedOut : string
}.

Definition editMessages : Messages :=
  mkMessages "Task completed but no output URL was found."
             "Failed to download the final image from "
             "SeaDream task failed: "
             "SeaDream task timed out after 3 minutes.".

Definition textGenMessages : Messages :=
  mkMessages "Text-gen task completed but no output URL was found."
             "Failed to download the final generated image from "
             "SeaDream text-gen task failed: "
             "SeaDream text-gen task timed out after 3 minutes.".

Definition POLLING_TIMEOUT : Z := 3 * 60 * 1000.
Definition POLLING_INTERVAL : Z := 5000.

(** [s || fallback] on an optional string: absent and empty are falsy. *)
Definition or_string (s : option string) (fallback : string) : string :=
  match s with
  | Some v => if bool_decide (v = "") then fallback else v
  | None => fallback
  end.

Definition truthy (s : option string) : option string :=
  match s with
  | Some v => if bool_decide (v = "") then None else Some v
  | None => None
  end.

Section Loop.
Context (msgs : Messages).
(** [download url] is the data URI read from [fetch (url)], when that
    response is ok. *)
Context (download : string -> option string).
Context (steps : nat -> PollStep).
Context (pollingStartTime : Z).

(** The [while] loop; [now] is the clock at the test of the condition,
    [polls] the number of requests made so far.  The result carries the
    number of requests made in all. *)
Fixpoint pollLoop (fuel : nat) (now : Z) (polls : nat) : Outcome * nat :=
  match fuel with
  | O => (OutOfFuel, polls)
  | S fuel =>
      if decide (now - pollingStartTime < POLLING_TIMEOUT)%Z then
        let step := steps polls in
        let now' := (now + POLLING_INTERVAL + Z.of_N (delay step))%Z in
        match reply step with
        | Rejected reason => (Escaped reason, S polls)
        | HttpNotOk _ => pollLoop fuel now' (S polls)
        | Json status output0 error =>
            if decide (status = Some "completed") then
              match truthy output0 with
              | None => (Thrown (noOutputUrl msgs), S polls)
              | Some outputUrl =>
                  match download outputUrl with
                  | None =>
                      (Thrown (downloadFailed msgs +:+ outputUrl), S polls)
                  | Some finalDataUri => (Returned finalDataUri, S polls)
                  end
              end
            else if decide (status = Some "failed") then
              (Thrown (taskFailed msgs +:+ or_string error "Unknown error"),
               S polls)
            else pollLoop fuel now' (S polls)
        end
      else (Thrown (timedOut msgs), polls)
  end.

(** No run makes more than 36 requests, so 37 tests of the condition
    are enough. *)
Definition poll : Outcome * nat := pollLoop 37 pollingStartTime 0.
End Loop.

Definition editImageWithSeaDream_poll := poll editMessages.
Definition generateImageWithSeaDream_poll := poll textGenMessages.

(** A reply that carries a terminal status. *)
Definition terminal (r : PollReply) : Prop :=
  match r with
  | Rejected _ | HttpNotOk _ => False
  | Json status _ _ => status = Some "completed" \/ status = Some "failed"
  end.

(** A reply after which the loop polls again: a response that is not ok,
    or a body whose status is not terminal. *)
Definition transient (r : PollReply) : Prop :=
  match r with
  | Rejected _ => False
  | HttpNotOk _ => True
  | Json status _ _ => status <> Some "completed" /\ status <> Some "failed"
  end.

(** The clock when the condition is tested for the [k]-th time, counting
    from 0. *)
Fixpoint clockAt (steps : nat -> PollStep) (pollingStartTime : Z) (k : nat) : Z :=
  match k with
  | O => pollingStartTime
  | S k' =>
      (clockAt steps pollingStartTime k' + POLLING_INTERVAL
       + Z.of_N (delay (steps k')))%Z
  end.

End SeaDream.

(** ** Referential integrity of prompt nodes *)

(** Every prompt node of the canvas is attached to an image or a frame of
    the canvas. *)
Definition attachmentsResolve (c : CanvasState.t) : Prop :=
  Forall (fun node =>
            is_Some (findParent (CanvasState.objects c) (CanvasState.frames c)
                       (PromptNodeObject.attachedToId node)))
         (CanvasState.promptNodes c).

#[global] Instance attachmentsResolve_dec c : Decision (attachmentsResolve c).
Proof. unfold attachmentsResolve. apply _. Defined.

(** ** A small canvas used for the concrete instances *)

Module Sample.
Definition viewport : DOMRect := mkDOMRect 0 0 1000 800.

Definition idle : Interaction :=
  mkInteraction None "" 0 0 0 0 0 1 0 0 [] ∅.

Definition imageA : CanvasObject.t :=
  CanvasObject.mk "img-a" "blob:a" 100 50 200 80 0 0 None.
Definition imageB : CanvasObject.t :=
  CanvasObject.mk "img-b" "blob:b" 400 300 120 120 30 1 None.
Definition frame : FrameObject.t :=
  FrameObject.mk
    (CanvasObject.mk "format-frame-1" "" 0 0 400 300 0 10000 None) (4 / 3).
Definition nodeA : PromptNodeObject.t :=
  PromptNodeObject.mk "prompt-node-a" "img-a" 44 0 48 180 20000
    "make the sky blue".
Definition nodeB : PromptNodeObject.t :=
  PromptNodeObject.mk "prompt-node-b" "img-b" 344 270 48 180 20001 "".

Definition canvas : CanvasState.t :=
  CanvasState.mk "canvas-1" "Default Canvas"
    [imageA; imageB] [frame] [nodeA; nodeB].

Definition keys : gmap string string :=
  <["seadream" := "sd-key"]> (<["gemini" := "nb-key"]> ∅).

Definition state (selected : list string) (jobs : list Job) : AppState :=
  mkApp [canvas] (Some "canvas-1") selected (mkView (1 / 2) (mkPoint 0 0))
    jobs false false keys "" "a cat on a roof" None (0%nat, 0%nat) idle
    (Some viewport) false.

Definition pointerAt (x y : R) : MouseEvent := mkMouse x y 0 0 false 0.

Definition tenJobs : list Job :=
  (fun n : nat => mkJob ("job-" +:+ pretty n) (if Nat.even n then SD else NB))
    <$> seq 0 10.

(** A canvas at the import limit. *)
Definition twentyImages : list CanvasObject.t :=
  (fun n : nat =>
     CanvasObject.mk ("img-" +:+ pretty n) "blob:x" 0 0 150 100 0
       (Z.of_nat n) None) <$> seq 0 20.

Definition fullCanvas : CanvasState.t :=
  CanvasState.mk "canvas-1" "Default Canvas" twentyImages [] [].

Definition fullState : AppState :=
  mkApp [fullCanvas] (Some "canvas-1") [] (mkView (1 / 2) (mkPoint 0 0))
    [] false false keys "" "" None (0%nat, 0%nat) idle (Some viewport) false.

Definition pickedFile (n : nat) : ImageFile :=
  mkFile ("blob:picked-" +:+ pretty n) (Some (640, 480)) n
         ("uuid-" +:+ pretty n).

(** The frame and the two images of the capture example. *)
Definition captureFrame : FrameObject.t :=
  FrameObject.mk
    (CanvasObject.mk "format-frame-x" "" 0 0 100 100 0 10000 None) 1.
Definition captureA : CanvasObject.t :=
  CanvasObject.mk "A" "blob:A" 50 50 100 100 0 1 None.
Definition captureB : CanvasObject.t :=
  CanvasObject.mk "B" "blob:B" 200 200 50 50 0 2 None.

(** A provider that reports failure at the first poll. *)
Definition failingAtOnce (i : nat) : SeaDream.PollStep :=
  SeaDream.mkStep 120
    (SeaDream.Json (Some "failed") None (Some "content policy violation")).
End Sample.

(** ** Viewport transform (src/App.tsx, [handleWheel], [changeZoom] and the
       style of the canvas layer) *)

(** The fields of a wheel event that [handleWheel] reads. *)
Record WheelEvent := mkWheel {
  wheelClientX : R;
  wheelClientY : R;
  deltaY : R
}.

(** [Math.max (0.1, Math.min (5, z))]. *)
Definition clampZoom (z : R) : R := Rmax (1 / 10) (Rmin 5 z).

(** [viewportRef.current!.getBoundingClientRect ()] throws on an unmounted
    viewport: no state then. *)
Definition handleWheel (e : WheelEvent) (s : AppState) : option AppState :=
  match viewportRef s with
  | None => None
  | Some rect =>
      Some (setViewTransform (fun prev =>
        let zoom := zoom prev in
        let pan := pan prev in
        let newZoom :=
          clampZoom (if decide (deltaY e < 0)
                     then zoom * (11 / 10) else zoom / (11 / 10)) in
        let mouseX := wheelClientX e - left rect in
        let mouseY := wheelClientY e - top rect in
        let mouseOnCanvasX := (mouseX - px pan) / zoom in
        let mouseOnCanvasY := (mouseY - py pan) / zoom in
        let newPanX := mouseX - mouseOnCanvasX * newZoom in
        let newPanY := mouseY - mouseOnCanvasY * newZoom in
        mkView newZoom (mkPoint newPanX newPanY)) s)
  end.

Definition changeZoom (delta : R) (s : AppState) : AppState :=
  match viewportRef s with
  | None => s
  | Some viewportBounds =>
      setViewTransform (fun prev =>
        let newZoom := clampZoom (zoom prev + delta) in
        let center :=
          getCanvasCoordinates s
            (left viewportBounds + boundsWidth viewportBounds / 2)
            (top viewportBounds + boundsHeight viewportBounds / 2) in
        mkView newZoom
          (mkPoint (boundsWidth viewportBounds / 2 - px center * newZoom)
                   (boundsHeight viewportBounds / 2 - py center * newZoom))) s
  end.

(** Where the canvas layer shows a canvas point: the layer sits at the top
    left of the viewport with
    [transform: translate (pan.x, pan.y) scale (zoom)] and origin [0 0]. *)
Definition canvasToClient (rect : DOMRect) (view : ViewTransform) (p : Point)
    : Point :=
  mkPoint (left rect + px (pan view) + zoom view * px p)
          (top rect + py (pan view) + zoom view * py p).

(** The sum of the numbers of an array. *)
Definition sumR (l : list R) : R := foldr Rplus 0 l.

(** The other callbacks that [movedLayers] maps over a layer, by name: over
    the frames during a frame move, over the images during an image resize
    and during a rotation. *)
Definition movedFrame (r : Interaction) (dx dy : R) (f : FrameObject.t)
    : FrameObject.t :=
  if Js.includes (movedObjectIds r) (FrameObject.id f)
  then moveTarget (startPositions r) dx dy f else f.

Definition resizedImage (r : Interaction) (dx dy : R) (o : CanvasObject.t)
    : CanvasObject.t :=
  if decide (CanvasObject.id o = targetId r)
  then CanvasObject.set_size o (Rmax 20 (startWidth r + dx))
         (Rmax 20 (startHeight r + dy))
  else o.

(** The angle, in degrees, from the center recorded at session start to a
    canvas point. *)
Definition angleFromCenter (r : Interaction) (p : Point) : R :=
  Js.Math_atan2 (py p - centerCanvasY r) (px p - centerCanvasX r) * (180 / PI).

Definition rotatedImage (r : Interaction) (mousePos startPos : Point)
    (o : CanvasObject.t) : CanvasObject.t :=
  if decide (CanvasObject.id o = targetId r)
  then CanvasObject.set_rotation o
         (startRotation r
          + (angleFromCenter r mousePos - angleFromCenter r startPos))
  else o.

(** ** Prompt text and prompt-node removal (src/App.tsx) *)

Definition set_prompt (n : PromptNodeObject.t) (text : string)
    : PromptNodeObject.t :=
  PromptNodeObject.mk (PromptNodeObject.id n) (PromptNodeObject.attachedToId n)
    (PromptNodeObject.x n) (PromptNodeObject.y n) (PromptNodeObject.width n)
    (PromptNodeObject.height n) (PromptNodeObject.zIndex n) text.

Definition setPrompt (text : string) (s : AppState) : AppState :=
  mkApp (canvases s) (activeCanvasId s) (selectedObjectIds s)
    (viewTransform s) (activeCombinedJobs s) (isPanning s)
    (isPanningWithSpace s) (apiConfigs s) text (textGenPrompt s)
    (error s) (apiCallCounts s) (interactionRef s) (viewportRef s) (listening s).

(** [selectedObjectIds.length === 1 && selectedObjectIds[0].startsWith
    ('prompt-node-')], with the id. *)
Definition selectedNodeId (s : AppState) : option string :=
  match selectedObjectIds s with
  | [nodeId] => if isNodeId nodeId then Some nodeId else None
  | _ => None
  end.

(** [{ ...c, promptNodes: c.promptNodes.map (p => p.id === nodeId ?
    { ...p, prompt: text } : p) }] on the active canvas. *)
Definition writeNodePrompt (nodeId text : string) (s : AppState) : AppState :=
  setCanvases (onActiveCanvas s
    (mapPromptNodes (fmap (fun p =>
       if decide (PromptNodeObject.id p = nodeId) then set_prompt p text else p))))
    s.

Definition handlePromptChange (newPromptValue : string) (s : AppState)
    : AppState :=
  let s1 := setPrompt newPromptValue s in
  match selectedNodeId s with
  | Some nodeId => writeNodePrompt nodeId newPromptValue s1
  | None => s1
  end.

Definition handleClearPrompt (s : AppState) : AppState :=
  match selectedNodeId s with
  | Some nodeId => writeNodePrompt nodeId "" s
  | None => setPrompt "" s
  end.

(** The effect that syncs the prompt text area with the selected prompt
    node; it runs after a change of the selection or of the active canvas. *)
Definition syncPromptEffect (s : AppState) : AppState :=
  match activeCanvas s with
  | None => s
  | Some ac =>
      match selectedNodeId s with
      | Some nodeId =>
          match Js.find (fun p => PromptNodeObject.id p = nodeId)
                        (CanvasState.promptNodes ac) with
          | Some selectedNode => setPrompt (PromptNodeObject.prompt selectedNode) s
          | None => setPrompt "" s
          end
      | None => setPrompt "" s
      end
  end.

(** The deselection that the updater of [handleRemovePromptNodeForSelected]
    performs for a canvas it rewrites: the id of the node it removes leaves
    the selection. *)
Definition deselectRemovedNode (parentId : string) (selected : list string)
    (c : CanvasState.t) : list string :=
  match Js.find (fun p => PromptNodeObject.attachedToId p = parentId)
                (CanvasState.promptNodes c) with
  | Some node =>
      if bool_decide (PromptNodeObject.id node = "") then selected
      else filter (fun id => id <> PromptNodeObject.id node) selected
  | None => selected
  end.

Definition handleRemovePromptNodeForSelected (s : AppState) : AppState :=
  match activeCanvas s, selectedObjectIds s with
  | Some ac, [parentId] =>
      let nodeExists :=
        Js.some (fun p => PromptNodeObject.attachedToId p = parentId)
                (CanvasState.promptNodes ac) in
      if negb nodeExists then s
      else
        let rewritten :=
          filter (fun c => Some (CanvasState.id c) = activeCanvasId s)
                 (canvases s) in
        let s1 := setCanvases (onActiveCanvas s
          (mapPromptNodes
             (filter (fun p => PromptNodeObject.attachedToId p <> parentId)))) s in
        setSelectedObjectIds
          (fun prevIds => foldl (deselectRemovedNode parentId) prevIds rewritten)
          s1
  | _, _ => s
  end.

(** At most one prompt node per parent. *)
Definition oneNodePerParent (c : CanvasState.t) : Prop :=
  NoDup (PromptNodeObject.attachedToId <$> CanvasState.promptNodes c).

(** ** Job events (src/App.tsx, the three submissions and their [finally]) *)

(** What can happen to the set of active jobs: one of the three submissions,
    each with the id it draws, or the settlement of a job. *)
Inductive JobEvent :=
| SendObject (objectId : string) (targetApi : Provider) (jobId : string)
| Upscale (objectId jobId : string)
| Generate (jobId : string)
| Settle (jobId : string) (failure : option string).

Definition submittedId (ev : JobEvent) : option string :=
  match ev with
  | SendObject _ _ jobId | Upscale _ jobId | Generate jobId => Some jobId
  | Settle _ _ => None
  end.

(** The state after an event, each event handled in the render that follows
    the one before. *)
Definition jobStep (s : AppState) (ev : JobEvent) : AppState :=
  match ev with
  | SendObject objectId targetApi jobId =>
      (handleSendObjectToApi objectId targetApi jobId s).1
  | Upscale objectId jobId => (handleUpscaleSingleImage objectId jobId s).1
  | Generate jobId => (handleGenerateTextToImage jobId s).1
  | Settle jobId failure => settleJob jobId failure s
  end.

Definition jobRun (evs : list JobEvent) (s : AppState) : AppState :=
  foldl jobStep s evs.

(** ** Results (src/App.tsx, [handleSendResultBackToCompositor]) *)

Record OriginalPosition := mkOriginalPosition {
  origX : R; origY : R; origWidth : R; origHeight : R
}.

(** The handler and the [onload] it installs.  [s0] is the state of the
    render whose closure the handler belongs to (the one in which the job
    was submitted): [activeCanvas], [activeCanvasId] and [viewTransform] are
    read from it.  [img] is [(img.width, img.height)] and [uuid] the id
    drawn when [onload] fires, [s] the state at that moment: the viewport
    rectangle is read then, and the updater runs on the canvases of then.
    An image that does not load never fires [onload]. *)
Definition handleSendResultBackToCompositor (imageUrl : string)
    (originalPosition : option OriginalPosition) (s0 : AppState)
    (img : R * R) (uuid : string) (s : AppState) : AppState :=
  match activeCanvas s0 with
  | None => s
  | Some ac =>
      let newWidth := 300 in
      let newHeight := newWidth / (img.1 / img.2) in
      let newXY :=
        match originalPosition with
        | Some pos =>
            (origX pos + origWidth pos / 2 - newWidth / 2,
             origY pos + origHeight pos + 50)
        | None =>
            let center :=
              viewCenter (setViewTransform (fun _ => viewTransform s0) s) in
            (px center - newWidth / 2, py center - newHeight / 2)
        end in
      let newZIndex :=
        match CanvasState.objects ac with
        | [] => Z_INDEX_BASE_IMAGE
        | objs => (Js.max_or (CanvasObject.zIndex <$> objs) 0 + 1)%Z
        end in
      let newObject :=
        CanvasObject.mk uuid imageUrl newXY.1 newXY.2 newWidth newHeight 0
          newZIndex (Some true) in
      setCanvases (onActiveCanvas s0
        (mapObjects (fun objs => objs ++ [newObject]))) s
  end.

(** ** Format frames (src/App.tsx, [addFormatFrame]) *)

(** [uuid] is the value drawn from [crypto.randomUUID ()]. *)
Definition addFormatFrame (newAspectRatio : R) (uuid : string)
    (s : AppState) : AppState :=
  match activeCanvas s with
  | None => s
  | Some ac =>
      if decide (newAspectRatio <= 0)
      then setError (Some "Invalid aspect ratio provided.") s
      else
        match viewportRef s with
        | None => s
        | Some viewportBounds =>
            let zoom := zoom (viewTransform s) in
            let maxFrameWidth := boundsWidth viewportBounds * (5 / 10) / zoom in
            let maxFrameHeight := boundsHeight viewportBounds * (5 / 10) / zoom in
            let frameSize :=
              if decide (maxFrameWidth / newAspectRatio > maxFrameHeight)
              then (maxFrameHeight * newAspectRatio, maxFrameHeight)
              else (maxFrameWidth, maxFrameWidth / newAspectRatio) in
            let center :=
              getCanvasCoordinates s
                (left viewportBounds + boundsWidth viewportBounds / 2)
                (top viewportBounds + boundsHeight viewportBounds / 2) in
            let newZIndex :=
              match CanvasState.frames ac with
              | [] => Z_INDEX_BASE_FRAME
              | fs => (Js.max_or (FrameObject.zIndex <$> fs) 0 + 1)%Z
              end in
            let newFrame :=
              FrameObject.mk
                (CanvasObject.mk ("format-frame-" +:+ uuid) ""
                   (px center - frameSize.1 / 2) (py center - frameSize.2 / 2)
                   frameSize.1 frameSize.2 0 newZIndex None)
                newAspectRatio in
            setCanvases (onActiveCanvas s
              (mapFrames (fun fs => fs ++ [newFrame]))) s
        end
  end.

(** ** Capturing one image (src/App.tsx, [captureSingleObjectAsDataURL]) *)

(** The canvas is cleared, not filled: [background] is empty. *)
Definition captureSingleObjectAsDataURL (browser : Browser)
    (object : CanvasObject.t) : CaptureError + Captured :=
  let width := Js.Math_round (CanvasObject.width object) in
  let height := Js.Math_round (CanvasObject.height object) in
  if negb (hasContext2d browser) then inl NoDrawingContext
  else if loads browser (CanvasObject.src object)
  then inr (mkCaptured ""
              [mkDraw (CanvasObject.src object)
                 (IZR width / 2) (IZR height / 2)
                 (CanvasObject.rotation object * PI / 180)
                 (- IZR width / 2) (- IZR height / 2)
                 (IZR width) (IZR height)]
              width height)
  else inl ImageLoadFailed.

(** ** Canvas events (src/App.tsx, the handlers wired to the canvas) *)

(** What the user and the jobs can do to the canvases while a canvas stays
    selected; each event is handled in the render that follows the one
    before.  [ResultLoaded] carries the state [s0] that the submission of
    its job closed over. *)
Inductive CanvasEvent :=
| PointerDown (id : string) (e : MouseEvent) (ty : InteractionType)
| FramePointerDown (frameId : string) (e : MouseEvent)
| ViewportPointerDown (onBackground : bool) (e : MouseEvent)
| PointerMove (e : MouseEvent)
| PointerUp
| Wheel (e : WheelEvent)
| ZoomBy (delta : R)
| AddImages (files : option (list ImageFile))
| AddFrame (newAspectRatio : R) (uuid : string)
| AddPromptNode (uuid : string)
| RemovePromptNode
| DeletePromptNode (id : string)
| DeleteImage (id : string)
| DeleteFrame (id : string)
| ClearCanvas
| PromptChange (text : string)
| ClearPrompt
| JobChange (ev : JobEvent)
| ResultLoaded (imageUrl : string) (originalPosition : option OriginalPosition)
    (s0 : AppState) (img : R * R) (uuid : string).

Definition canvasStep (s : AppState) (ev : CanvasEvent) : AppState :=
  match ev with
  | PointerDown id e ty => handleInteractionStart id e ty s
  | FramePointerDown frameId e => handleFrameMouseDown frameId e s
  | ViewportPointerDown onBackground e => handleViewportMouseDown onBackground e s
  | PointerMove e => handleMouseMove e s
  | PointerUp => handleMouseUp s
  | Wheel e => default s (handleWheel e s)
  | ZoomBy delta => changeZoom delta s
  | AddImages files => handleAddImagesToCanvas files s
  | AddFrame newAspectRatio uuid => addFormatFrame newAspectRatio uuid s
  | AddPromptNode uuid => handleAddPromptNode uuid s
  | RemovePromptNode => handleRemovePromptNodeForSelected s
  | DeletePromptNode id => handleDeletePromptNode id s
  | DeleteImage id => handleDeleteSingleObject id s
  | DeleteFrame id => handleDeleteFrame id s
  | ClearCanvas => handleClearCanvas s
  | PromptChange text => handlePromptChange text s
  | ClearPrompt => handleClearPrompt s
  | JobChange ev => jobStep s ev
  | ResultLoaded imageUrl originalPosition s0 img uuid =>
      handleSendResultBackToCompositor imageUrl originalPosition s0 img uuid s
  end.

Definition canvasRun (evs : list CanvasEvent) (s : AppState) : AppState :=
  foldl canvasStep s evs.

(** A canvas is well formed when no image or frame has two prompt nodes and
    every prompt node is attached to an image or a frame of the canvas. *)
Definition wellFormed (c : CanvasState.t) : Prop :=
  oneNodePerParent c /\ attachmentsResolve c.

(** What an event may do to the canvases, seen from the active canvas [c]:
    the active id stays, every canvas keeps its id and its place, and the
    active canvas stays well formed. *)
Definition evolves (s s' : AppState) (c : CanvasState.t) : Prop :=
  activeCanvasId s' = activeCanvasId s
  /\ exists g : CanvasState.t -> CanvasState.t,
       canvases s' = g <$> canvases s
       /\ (forall c0, CanvasState.id (g c0) = CanvasState.id c0)
       /\ (wellFormed c -> wellFormed (g c)).

(** ** The collection of canvases and the favorites (src/App.tsx) *)

Definition NUM_FAVORITE_SLOTS : nat := 4.

Definition setActiveCanvasId (id : option string) (s : AppState) : AppState :=
  mkApp (canvases s) id (selectedObjectIds s)
    (viewTransform s) (activeCombinedJobs s) (isPanning s)
    (isPanningWithSpace s) (apiConfigs s) (prompt s) (textGenPrompt s)
    (error s) (apiCallCounts s) (interactionRef s) (viewportRef s) (listening s).

(** The state of [App] together with its [favoriteCanvasIds]. *)
Record Workspace := mkWorkspace {
  app : AppState;
  favoriteCanvasIds : list (option string)
}.

Definition onApp (f : AppState -> AppState) (w : Workspace) : Workspace :=
  mkWorkspace (f (app w)) (favoriteCanvasIds w).

Definition defaultCanvas (uuid : string) : CanvasState.t :=
  CanvasState.mk uuid "Default Canvas" [] [] [].

(** The effect that makes a default canvas when none is left; [uuid] is the
    id it would draw. *)
Definition ensureDefaultCanvasEffect (uuid : string) (s : AppState) : AppState :=
  if bool_decide (length (canvases s) = 0%nat)
     && bool_decide (activeCanvasId s = None)
  then setActiveCanvasId (Some (CanvasState.id (defaultCanvas uuid)))
         (setCanvases (fun _ => [defaultCanvas uuid]) s)
  else s.

(** The effect keyed on [activeCanvasId]: [setSelectedObjectIds ([])]; [prev]
    is the state of the render before. *)
Definition resetSelectionEffect (prev s : AppState) : AppState :=
  if decide (activeCanvasId s = activeCanvasId prev) then s
  else setSelectedObjectIds (fun _ => []) s.

(** The two effects after a render, and once more after the render that
    the default canvas causes. *)
Definition afterRender (uuid : string) (prev s : AppState) : AppState :=
  let s1 := resetSelectionEffect prev s in
  let s2 := ensureDefaultCanvasEffect uuid s1 in
  resetSelectionEffect s1 s2.

Definition createNewCanvas (uuid : string) (s : AppState) : AppState :=
  let newCanvas :=
    CanvasState.mk uuid ("Project " +:+ pretty (length (canvases s) + 1)%nat)
      [] [] [] in
  setActiveCanvasId (Some (CanvasState.id newCanvas))
    (setCanvases (fun prev => prev ++ [newCanvas]) s).

(** [confirmed] is the answer to [window.confirm].  The result is [None]
    when the updater throws, which reading [id] of a canvas that is not
    there would do. *)
Definition handleDeleteCanvas (confirmed : bool) (idToDelete : string)
    (w : Workspace) : option Workspace :=
  if negb confirmed then Some w
  else
    let s := app w in
    let prevCanvases := canvases s in
    match list_find (fun c => CanvasState.id c = idToDelete) prevCanvases with
    | None => Some w
    | Some (indexToDelete, _) =>
        let newCanvases :=
          filter (fun c => CanvasState.id c <> idToDelete) prevCanvases in
        let newFavs :=
          (fun favId => if decide (favId = Some idToDelete) then None else favId)
            <$> favoriteCanvasIds w in
        let s1 := setCanvases (fun _ => newCanvases) s in
        if decide (activeCanvasId s = Some idToDelete) then
          if bool_decide (0 < length newCanvases)%nat then
            let newActiveIndex := Nat.max 0 (indexToDelete - 1) in
            match newCanvases !! newActiveIndex with
            | Some canvas =>
                Some (mkWorkspace
                        (setActiveCanvasId (Some (CanvasState.id canvas)) s1)
                        newFavs)
            | None => None
            end
          else
            (* The useEffect will handle creating a new default canvas *)
            Some (mkWorkspace (setActiveCanvasId None s1) newFavs)
        else Some (mkWorkspace s1 newFavs)
    end.

Definition handleRenameCanvas (id newName : string) (s : AppState) : AppState :=
  setCanvases (fmap (fun c =>
    if decide (CanvasState.id c = id)
    then CanvasState.mk (CanvasState.id c)
           (if bool_decide (newName = "") then "Untitled Canvas" else newName)
           (CanvasState.objects c) (CanvasState.frames c)
           (CanvasState.promptNodes c)
    else c)) s.

(** [newFavorites[index] = canvasId]: an index past the end extends the
    array, the slots in between staying empty. *)
Definition handleDropOnFavorite (index : nat) (canvasId : string)
    (w : Workspace) : Workspace :=
  let newFavorites := favoriteCanvasIds w in
  mkWorkspace (app w)
    (if bool_decide (index < length newFavorites)%nat
     then <[index := Some canvasId]> newFavorites
     else newFavorites ++ replicate (index - length newFavorites) None
            ++ [Some canvasId]).

Definition handleRemoveFromFavorites (index : nat) (w : Workspace) : Workspace :=
  let newFavs := favoriteCanvasIds w in
  mkWorkspace (app w)
    (if bool_decide (index < length newFavs)%nat
     then <[index := None]> newFavs else newFavs).

(** The button of the [index]-th canvas of the list:
    [setActiveCanvasId (canvas.id)]. *)
Definition clickCanvas (index : nat) (s : AppState) : AppState :=
  match canvases s !! index with
  | Some canvas => setActiveCanvasId (Some (CanvasState.id canvas)) s
  | None => s
  end.

(** The button of a favorite slot, which is there only when the slot holds
    the id of a canvas of the list. *)
Definition clickFavorite (index : nat) (w : Workspace) : Workspace :=
  match favoriteCanvasIds w !! index with
  | Some (Some favId) =>
      if bool_decide (favId = "") then w
      else
        match Js.find (fun c => CanvasState.id c = favId) (canvases (app w)) with
        | Some canvas =>
            onApp (setActiveCanvasId (Some (CanvasState.id canvas))) w
        | None => w
        end
  | _ => w
  end.

Inductive WorkspaceEvent :=
| NewCanvas (uuid : string)
| DeleteCanvas (confirmed : bool) (idToDelete : string)
| RenameCanvas (id newName : string)
| ClickCanvas (index : nat)
| ClickFavorite (index : nat)
| DropOnFavorite (index : nat) (canvasId : string)
| RemoveFromFavorites (index : nat)
| OnCanvas (ev : CanvasEvent).

Definition handle (ev : WorkspaceEvent) (w : Workspace) : option Workspace :=
  match ev with
  | NewCanvas uuid => Some (onApp (createNewCanvas uuid) w)
  | DeleteCanvas confirmed idToDelete => handleDeleteCanvas confirmed idToDelete w
  | RenameCanvas id newName => Some (onApp (handleRenameCanvas id newName) w)
  | ClickCanvas index => Some (onApp (clickCanvas index) w)
  | ClickFavorite index => Some (clickFavorite index w)
  | DropOnFavorite index canvasId => Some (handleDropOnFavorite index canvasId w)
  | RemoveFromFavorites index => Some (handleRemoveFromFavorites index w)
  | OnCanvas ev => Some (onApp (fun s => canvasStep s ev) w)
  end.

(** An event and the effects of the renders it causes; [uuid] is the id
    that the default canvas would get. *)
Definition workspaceStep (w : Workspace) (ev : WorkspaceEvent * string)
    : option Workspace :=
  onApp (afterRender ev.2 (app w)) <$> handle ev.1 w.

Fixpoint workspaceRun (evs : list (WorkspaceEvent * string)) (w : Workspace)
    : option Workspace :=
  match evs with
  | [] => Some w
  | ev :: rest =>
      match workspaceStep w ev with
      | Some w' => workspaceRun rest w'
      | None => None
      end
  end.

(** The favorite bar offers [NUM_FAVORITE_SLOTS] drop targets. *)
Definition onSlot (ev : WorkspaceEvent * string) : Prop :=
  match ev.1 with
  | DropOnFavorite index _ => (index < NUM_FAVORITE_SLOTS)%nat
  | _ => True
  end.

Definition usable (w : Workspace) : Prop :=
  is_Some (activeCanvas (app w))
  /\ length (favoriteCanvasIds w) = NUM_FAVORITE_SLOTS.

(** ** The size sent to SeaDream (src/services, [editImageWithSeaDream]) *)

Definition MIN_PIXELS : Z := 921600.

(** [finalWidth] and [finalHeight] of the payload. *)
Definition editImageWithSeaDream_size (width height : R) : Z * Z :=
  let finalWidth := Js.Math_round width in
  let finalHeight := Js.Math_round height in
  if decide (finalWidth * finalHeight < MIN_PIXELS)%Z then
    let aspectRatio := IZR finalWidth / IZR finalHeight in
    let newWidth := sqrt (IZR MIN_PIXELS * aspectRatio) in
    let newHeight := newWidth / aspectRatio in
    (Js.Math_ceil newWidth, Js.Math_ceil newHeight)
  else (finalWidth, finalHeight).

(** ** Gemini (src/services, [editImageWithAI]) *)

Module Gemini.

(** A part of the first candidate: [part.inlineData?.data]. *)
Record Part := mkPart { inlineData : option string }.

Record Response := mkResponse {
  (** [response.candidates], each with its [content.parts] *)
  candidates : option (list (list Part));
  (** [response.text] *)
  text : option string
}.

(** What [ai.models.generateContent] comes to: a response, a rejection
    with an [Error], or a rejection with something else. *)
Inductive ApiOutcome :=
| Resolved (response : Response)
| RejectedError (message : string)
| RejectedOther.

Inductive Result :=
| Returned (imageUrls : list string)
| Thrown (message : string).

Definition imageUrlsOf (response : Response) : list string :=
  match candidates response with
  | Some (parts :: _) =>
      omap (fun part =>
              (fun base64ImageBytes => "data:image/png;base64," +:+ base64ImageBytes)
                <$> inlineData part)
           parts
  | _ => []
  end.

(** The [catch] of the request. *)
Definition rethrow (error : option string) : Result :=
  match error with
  | Some message =>
      if Js.includes_string message "Requested entity was not found"
      then Thrown "Failed to generate image with AI: A 404 Not Found error occurred. This is often due to an incorrect model name."
      else Thrown ("Failed to generate image with AI: " +:+ message)
  | None => Thrown "An unknown error occurred while calling the AI model."
  end.

(** [generateContent rawBase64 prompt] is the outcome of the request. *)
Definition editImageWithAI (generateContent : string -> string -> ApiOutcome)
    (imageDataUri prompt apiKey : string) : Result :=
  if bool_decide (apiKey = "") then Thrown "API key is missing."
  else
    match SeaDream.truthy (Js.split_comma imageDataUri !! 1%nat) with
    | None => Thrown "Invalid image data URI provided to Gemini service."
    | Some rawBase64 =>
        match generateContent rawBase64 prompt with
        | Resolved response =>
            let imageUrls := imageUrlsOf response in
            if bool_decide (length imageUrls = 0%nat) then
              let errorText :=
                SeaDream.or_string (text response)
                  "API returned an empty response without an image." in
              rethrow (Some errorText)
            else Returned imageUrls
        | RejectedError message => rethrow (Some message)
        | RejectedOther => rethrow None
        end
    end.
End Gemini.

(** ** Loading from [localStorage] (src/App.tsx, the effect run on mount) *)

(** An entry of [localStorage] as the effect reads it: absent (or empty),
    rejected by [JSON.parse], or parsed. *)
Inductive Stored (A : Type) :=
| Missing
| Unparsable
| Parsed (value : A).
Arguments Missing {A}.
Arguments Unparsable {A}.
Arguments Parsed {A} value.

(** A stored canvas; the canvases of older versions have no
    [promptNodes]. *)
Record StoredCanvas := mkStoredCanvas {
  storedId : string;
  storedName : string;
  storedObjects : list CanvasObject.t;
  storedFrames : list FrameObject.t;
  storedPromptNodes : option (list PromptNodeObject.t)
}.

(** [{ ...c, promptNodes: c.promptNodes || [] }]. *)
Definition revive (c : StoredCanvas) : CanvasState.t :=
  CanvasState.mk (storedId c) (storedName c) (storedObjects c)
    (storedFrames c) (default [] (storedPromptNodes c)).

Definition setApiConfigs (configs : gmap string string) (s : AppState)
    : AppState :=
  mkApp (canvases s) (activeCanvasId s) (selectedObjectIds s)
    (viewTransform s) (activeCombinedJobs s) (isPanning s)
    (isPanningWithSpace s) configs (prompt s) (textGenPrompt s)
    (error s) (apiCallCounts s) (interactionRef s) (viewportRef s) (listening s).

(** The [catch] of the effect. *)
Definition loadFallback (defaultCanvasId : string) (w : Workspace) : Workspace :=
  onApp (fun s =>
           setActiveCanvasId (Some defaultCanvasId)
             (setCanvases (fun _ => [defaultCanvas defaultCanvasId]) s)) w.

(** The arrays are [None] when the parsed value is not an array.
    [lastActiveId] is the stored [activeCanvasId]; [uuidTry] and
    [uuidCatch] are the ids drawn in the [try] and in the [catch]. *)
Definition loadEffect
    (storedCanvases : Stored (option (list StoredCanvas)))
    (storedFavorites : Stored (option (list (option string))))
    (storedApiConfigs : Stored (gmap string string))
    (lastActiveId : option string) (uuidTry uuidCatch : string)
    (w : Workspace) : Workspace :=
  match storedCanvases with
  | Unparsable => loadFallback uuidCatch w
  | _ =>
      let loadedCanvases :=
        match storedCanvases with
        | Parsed (Some parsedCanvases) => revive <$> parsedCanvases
        | _ => []
        end in
      let w1 :=
        match loadedCanvases with
        | [] =>
            onApp (fun s =>
                     setActiveCanvasId (Some uuidTry)
                       (setCanvases (fun _ => [defaultCanvas uuidTry]) s)) w
        | first :: _ =>
            let activeId :=
              match SeaDream.truthy lastActiveId with
              | Some lastActiveId =>
                  if Js.some (fun c => CanvasState.id c = lastActiveId)
                             loadedCanvases
                  then lastActiveId else CanvasState.id first
              | None => CanvasState.id first
              end in
            onApp (fun s =>
                     setActiveCanvasId (Some activeId)
                       (setCanvases (fun _ => loadedCanvases) s)) w
        end in
      match storedFavorites with
      | Unparsable => loadFallback uuidCatch w1
      | _ =>
          let w2 :=
            match storedFavorites with
            | Parsed (Some parsedFavorites) =>
                let newFavorites :=
                  parsedFavorites
                  ++ replicate (NUM_FAVORITE_SLOTS - length parsedFavorites) None in
                mkWorkspace (app w1) (take NUM_FAVORITE_SLOTS newFavorites)
            | _ => w1
            end in
          match storedApiConfigs with
          | Unparsable => loadFallback uuidCatch w2
          | Parsed configs => onApp (setApiConfigs configs) w2
          | Missing => w2
          end
      end
  end.

(** ** Verified properties *)

Section Geometry.

Lemma rotate_compose (u v a b : R) :
  (u * cos b - v * sin b) * cos (a - b) - (u * sin b + v * cos b) * sin (a - b)
    = u * cos a - v * sin a
  /\ (u * cos b - v * sin b) * sin (a - b) + (u * sin b + v * cos b) * cos (a - b)
    = u * sin a + v * cos a.
Proof.
  rewrite cos_minus, sin_minus.
  pose proof (sin2_cos2 b) as Hb. unfold Rsqr in Hb.
  split.
  - transitivity ((u * cos a - v * sin a) * (sin b * sin b + cos b * cos b)).
    + ring.
    + rewrite Hb. ring.
  - transitivity ((u * sin a + v * cos a) * (sin b * sin b + cos b * cos b)).
    + ring.
    + rewrite Hb. ring.
Qed.

Lemma rotate_inverse (u v b : R) :
  (u * cos b - v * sin b) * cos (- b) - (u * sin b + v * cos b) * sin (- b) = u
  /\ (u * cos b - v * sin b) * sin (- b) + (u * sin b + v * cos b) * cos (- b) = v.
Proof.
  destruct (rotate_compose u v 0 b) as [H1 H2].
  replace (0 - b) with (- b) in H1, H2 by ring.
  rewrite cos_0, sin_0 in H1, H2. split; lra.
Qed.

Lemma local_frame_of_rotated (rect : RotatedRect) (deg : R) (p : Point) :
  let c := rectCenter rect in
  let a := - rrotation rect * (PI / 180) in
  let a' := - rrotation (rotateRect deg rect) * (PI / 180) in
  let q := rotateAbout c deg p in
  (px q - px c) * cos a' - (py q - py c) * sin a'
    = (px p - px c) * cos a - (py p - py c) * sin a
  /\ (px q - px c) * sin a' + (py q - py c) * cos a'
    = (px p - px c) * sin a + (py p - py c) * cos a.
Proof.
  cbn zeta. simpl.
  set (u := px p - (rx rect + rwidth rect / 2)).
  set (v := py p - (ry rect + rheight rect / 2)).
  set (b := deg * (PI / 180)).
  set (a := - rrotation rect * (PI / 180)).
  replace (- (rrotation rect + deg) * (PI / 180)) with (a - b)
    by (unfold a, b; ring).
  destruct (rotate_compose u v a b) as [H1 H2].
  split.
  - rewrite <- H1. f_equal; f_equal; ring.
  - rewrite <- H2. f_equal; f_equal; ring.
Qed.


End Geometry.

Section Sorting.
Context {A : Type} (key : A -> Z).

(** The comparators of the source are differences of an integer key. *)
Let cmp (a b : A) : Z := (key a - key b)%Z.

Lemma insertBy_Permutation (a : A) (l : list A) :
  Js.insertBy cmp a l ≡ₚ a :: l.
Proof.
  induction l as [|b l IH]; simpl; [done|].
  case_decide; [done|]. rewrite IH. apply Permutation_swap.
Qed.

Lemma sort_Permutation (l : list A) : Js.sort cmp l ≡ₚ l.
Proof.
  induction l as [|a l IH]; simpl; [done|].
  rewrite insertBy_Permutation. by f_equiv.
Qed.

Lemma insertBy_sorted (a : A) (l : list A) :
  StronglySorted (fun u v => (key u <= key v)%Z) l ->
  StronglySorted (fun u v => (key u <= key v)%Z) (Js.insertBy cmp a l).
Proof.
  induction 1 as [|b l Hl IH Hb]; simpl.
  - repeat constructor.
  - unfold cmp at 1. case_decide.
    + constructor; [by constructor|].
      constructor; [lia|].
      eapply Forall_impl; [exact Hb|]. simpl. intros; lia.
    + constructor; [exact IH|].
      rewrite insertBy_Permutation. constructor; [lia|done].
Qed.

Lemma sort_sorted (l : list A) :
  StronglySorted (fun u v => (key u <= key v)%Z) (Js.sort cmp l).
Proof.
  induction l as [|a l IH]; simpl; [constructor|].
  by apply insertBy_sorted.
Qed.

(** Stability: elements of equal key keep their relative order. *)
Lemma insertBy_stable (k : Z) (a : A) (l : list A) :
  StronglySorted (fun u v => (key u <= key v)%Z) l ->
  filter (fun b => key b = k) (Js.insertBy cmp a l)
    = filter (fun b => key b = k) (a :: l).
Proof.
  induction 1 as [|b l Hl IH Hb]; simpl; [done|].
  unfold cmp at 1. case_decide as Hab; [done|].
  rewrite (filter_cons _ b), IH.
  rewrite !(filter_cons _ a), !(filter_cons _ b).
  destruct (decide (key a = k)), (decide (key b = k)); try done.
  lia.
Qed.

Lemma sort_stable (k : Z) (l : list A) :
  filter (fun b => key b = k) (Js.sort cmp l) = filter (fun b => key b = k) l.
Proof.
  induction l as [|a l IH]; simpl; [done|].
  rewrite insertBy_stable by apply sort_sorted.
  rewrite !filter_cons, IH. done.
Qed.

End Sorting.

Section Capture.

Lemma forallb_false_elem {A} (f : A -> bool) (l : list A) :
  forallb f l = false -> exists a, a ∈ l /\ f a = false.
Proof.
  induction l as [|a l IH]; simpl; [done|].
  destruct (f a) eqn:Ha; simpl.
  - intros (b & Hb & Hfb)%IH. exists b. split; [by right|done].
  - intros _. exists a. split; [by left|done].
Qed.

Lemma objectsToRender_Permutation frame objects :
  objectsToRender frame objects ≡ₚ filter (overlapsFrame frame) objects.
Proof. apply (sort_Permutation CanvasObject.zIndex). Qed.

Lemma objectsToRender_sorted frame objects :
  StronglySorted
    (fun a b => (CanvasObject.zIndex a <= CanvasObject.zIndex b)%Z)
    (objectsToRender frame objects).
Proof. apply (sort_sorted CanvasObject.zIndex). Qed.

Lemma capture_succeeds browser frame objects :
  hasContext2d browser = true ->
  (forall obj, obj ∈ objects -> loads browser (CanvasObject.src obj) = true) ->
  exists captured,
    captureFrameContentAsDataURL browser frame objects = inr captured.
Proof.
  intros Hctx Hload. unfold captureFrameContentAsDataURL.
  rewrite Hctx. simpl.
  destruct (forallb _ _) eqn:Hall; [eauto|].
  exfalso. apply not_true_iff_false in Hall. apply Hall.
  apply forallb_forall. intros obj Hin. apply Hload.
  apply list_elem_of_In in Hin.
  rewrite objectsToRender_Permutation in Hin.
  by apply list_elem_of_filter in Hin as [_ ?].
Qed.

(** C7. Frame capture keeps exactly the images whose axis-aligned box
    overlaps the frame's (the rotation is not looked at), orders them by
    ascending zIndex (images of equal zIndex stay in array order), and
    issues one draw call per kept image in that order; with a drawing
    context, it fails only when a kept image does not load. *)
Theorem captureFrame_selects_overlapping_in_zIndex_order
    (browser : Browser) (frame : FrameObject.t)
    (objects : list CanvasObject.t) :
  let kept := objectsToRender frame objects in
  (forall obj,
      obj ∈ kept <->
      obj ∈ objects
      /\ CanvasObject.x obj < FrameObject.x frame + FrameObject.width frame
      /\ CanvasObject.x obj + CanvasObject.width obj > FrameObject.x frame
      /\ CanvasObject.y obj < FrameObject.y frame + FrameObject.height frame
      /\ CanvasObject.y obj + CanvasObject.height obj > FrameObject.y frame)
  /\ (forall obj r,
        overlapsFrame frame (CanvasObject.set_rotation obj r)
        <-> overlapsFrame frame obj)
  /\ kept ≡ₚ filter (overlapsFrame frame) objects
  /\ StronglySorted
       (fun a b => (CanvasObject.zIndex a <= CanvasObject.zIndex b)%Z) kept
  /\ (forall z, filter (fun o => CanvasObject.zIndex o = z) kept
               = filter (fun o => CanvasObject.zIndex o = z)
                   (filter (overlapsFrame frame) objects))
  /\ match captureFrameContentAsDataURL browser frame objects with
     | inr captured => drawn captured = drawCallOf frame <$> kept
     | inl NoDrawingContext => hasContext2d browser = false
     | inl ImageLoadFailed =>
         exists obj, obj ∈ kept /\ loads browser (CanvasObject.src obj) = false
     end.
Proof.
  cbv zeta. split; [|split; [|split; [|split; [|split]]]].
  - intros obj. rewrite objectsToRender_Permutation, list_elem_of_filter.
    unfold overlapsFrame. tauto.
  - done.
  - apply objectsToRender_Permutation.
  - apply objectsToRender_sorted.
  - intros z. apply (sort_stable CanvasObject.zIndex).
  - unfold captureFrameContentAsDataURL.
    destruct (hasContext2d browser); simpl; [|done].
    destruct (forallb _ _) eqn:Hall; [done|].
    by apply forallb_false_elem in Hall.
Qed.

End Capture.

(** *** Array helpers *)

Section ArrayFacts.
Context {A : Type} (P : A -> Prop) `{!forall a, Decision (P a)}.

Lemma find_cons (a : A) (l : list A) :
  Js.find P (a :: l) = if decide (P a) then Some a else Js.find P l.
Proof.
  unfold Js.find. simpl. case_decide; [done|].
  by destruct (list_find P l) as [[i b]|].
Qed.

Lemma find_Some_elem (l : list A) (a : A) :
  Js.find P l = Some a -> a ∈ l /\ P a.
Proof.
  induction l as [|b l IH]; [done|].
  rewrite find_cons. case_decide.
  - intros [= ->]. split; [by left|done].
  - intros [? ?]%IH. split; [by right|done].
Qed.

Lemma find_None_iff (l : list A) :
  Js.find P l = None <-> forall a, a ∈ l -> ~ P a.
Proof.
  induction l as [|b l IH].
  - split; [|done]. intros _ a Ha. by apply elem_of_nil in Ha.
  - rewrite find_cons. case_decide as Hb.
    + split; [done|]. intros Hall. destruct (Hall b); [by left|done].
    + rewrite IH. split.
      * intros Hall a [->|Ha]%elem_of_cons; auto.
      * intros Hall a Ha. apply Hall. by right.
Qed.

(** A map that keeps the truth of [P] commutes with [find]. *)
Lemma find_fmap_preserving (g : A -> A) (l : list A) :
  (forall a, P (g a) <-> P a) ->
  Js.find P (g <$> l) = g <$> Js.find P l.
Proof.
  intros Hg. induction l as [|b l IH]; [done|].
  rewrite fmap_cons, !find_cons, IH.
  destruct (decide (P (g b))) as [H1|H1], (decide (P b)) as [H2|H2];
    try done.
  - destruct H2. by apply Hg.
  - destruct H1. by apply Hg.
Qed.
End ArrayFacts.

(** *** The active canvas under state updates *)

Section ActiveCanvas.

Lemma activeCanvas_elem (s : AppState) (c : CanvasState.t) :
  activeCanvas s = Some c ->
  c ∈ canvases s /\ Some (CanvasState.id c) = activeCanvasId s.
Proof.
  apply (find_Some_elem (fun c => Some (CanvasState.id c) = activeCanvasId s)).
Qed.

Lemma activeCanvas_onActiveCanvas (s s' : AppState)
    (f : CanvasState.t -> CanvasState.t) (c : CanvasState.t) :
  canvases s' = canvases s ->
  activeCanvasId s' = activeCanvasId s ->
  (forall c0, CanvasState.id (f c0) = CanvasState.id c0) ->
  activeCanvas s = Some c ->
  activeCanvas (setCanvases (onActiveCanvas s f) s') = Some (f c).
Proof.
  intros Hcs Hact Hid Hc. pose proof Hc as Hc'.
  unfold activeCanvas, setCanvases, onActiveCanvas in *.
  cbn [canvases activeCanvasId]. rewrite Hcs, Hact.
  rewrite find_fmap_preserving.
  - rewrite Hc. cbn. apply activeCanvas_elem in Hc' as [_ Hc'].
    by rewrite decide_True.
  - intros c0. case_decide; [|done]. by rewrite Hid.
Qed.

Lemma moveTick_id r ty dx dy mp sp c :
  CanvasState.id (moveTick r ty dx dy mp sp c) = CanvasState.id c.
Proof. reflexivity. Qed.

Lemma promote_id id c : CanvasState.id (promote id c) = CanvasState.id c.
Proof.
  unfold promote.
  by destruct (isFrameId id), (isNodeId id).
Qed.

(** What one [mousemove] does during a session that is not a pan. *)
Lemma handleMouseMove_session (e : MouseEvent) (s : AppState)
    (c : CanvasState.t) (ty : InteractionType) :
  activeCanvas s = Some c ->
  type (interactionRef s) = Some ty ->
  ty <> Pan ->
  targetId (interactionRef s) <> "" ->
  handleMouseMove e s = setCanvases (onActiveCanvas s (sessionTick s ty e)) s.
Proof.
  intros Hc Hty Hpan Htarget. unfold handleMouseMove.
  rewrite Hc, Hty. cbv zeta. rewrite bool_decide_eq_false_2 by done.
  by destruct ty.
Qed.

Lemma sessionTick_ext (s s' : AppState) ty e :
  interactionRef s' = interactionRef s ->
  viewTransform s' = viewTransform s ->
  viewportRef s' = viewportRef s ->
  sessionTick s' ty e = sessionTick s ty e.
Proof.
  intros Hr Hv Hp. unfold sessionTick, getCanvasCoordinates.
  by rewrite Hr, Hv, Hp.
Qed.

(** A drag keeps the session, the view and the viewport, and applies the
    ticks of its events to the active canvas one after the other. *)
Lemma ticks_session (es : list MouseEvent) (s : AppState)
    (c : CanvasState.t) (ty : InteractionType) :
  activeCanvas s = Some c ->
  type (interactionRef s) = Some ty ->
  ty <> Pan ->
  targetId (interactionRef s) <> "" ->
  activeCanvas (ticks es s)
    = Some (foldl (fun c e => sessionTick s ty e c) c es)
  /\ interactionRef (ticks es s) = interactionRef s
  /\ viewTransform (ticks es s) = viewTransform s
  /\ viewportRef (ticks es s) = viewportRef s
  /\ selectedObjectIds (ticks es s) = selectedObjectIds s
  /\ activeCombinedJobs (ticks es s) = activeCombinedJobs s.
Proof.
  intros Hc Hty Hpan Htarget. unfold ticks.
  induction es as [|e es IH] using rev_ind; [done|].
  rewrite !foldl_snoc.
  destruct IH as (Hc' & Hr & Hv & Hp & Hsel & Hjobs).
  rewrite (handleMouseMove_session e _ _ ty Hc');
    [|by rewrite Hr|done|by rewrite Hr].
  cbn [interactionRef viewTransform viewportRef selectedObjectIds
       activeCombinedJobs setCanvases].
  repeat split; try done.
  erewrite activeCanvas_onActiveCanvas; [|done|done|done|exact Hc'].
  by rewrite (sessionTick_ext s) by done.
Qed.

End ActiveCanvas.

(** *** Prompt nodes follow their parent *)

Section PromptNodeSync.

(** A node is created at the derived position, with the default height
    [PROMPT_NODE_HEIGHT]; its height follows the parent from the first tick
    on. *)
Lemma handleAddPromptNode_places_node (uuid : string) (s : AppState)
    (c : CanvasState.t) (parentId : string) (parent : CanvasObject.t) :
  activeCanvas s = Some c ->
  selectedObjectIds s = [parentId] ->
  isFrameId parentId = false ->
  Js.find (fun o => CanvasObject.id o = parentId) (CanvasState.objects c)
    = Some parent ->
  Js.some (fun p => PromptNodeObject.attachedToId p = parentId)
          (CanvasState.promptNodes c) = false ->
  exists z,
    activeCanvas (handleAddPromptNode uuid s)
    = Some (mapPromptNodes
              (fun nodes =>
                 nodes ++
                 [PromptNodeObject.mk ("prompt-node-" +:+ uuid)
                    (CanvasObject.id parent)
                    (CanvasObject.x parent - PROMPT_NODE_WIDTH - 8)
                    (CanvasObject.y parent + CanvasObject.height parent / 2
                     - PROMPT_NODE_HEIGHT / 2)
                    PROMPT_NODE_WIDTH PROMPT_NODE_HEIGHT z ""]) c).
Proof.
  intros Hc Hsel HF Hparent Hfree. unfold handleAddPromptNode.
  rewrite Hc, Hsel. cbv zeta. unfold isFrameId in HF.
  rewrite HF, Hparent, Hfree. eexists.
  by apply activeCanvas_onActiveCanvas.
Qed.


End PromptNodeSync.

(** *** Drags: the last tick decides *)

Section Drag.

(** When every step rewrites a list elementwise and a later rewrite
    overrides an earlier one, a run of steps amounts to its last step. *)
Lemma foldl_last_wins {C E A} (f : C -> E -> C) (proj : C -> list A)
    (G : E -> A -> A) :
  (forall c e, proj (f c e) = G e <$> proj c) ->
  (forall e e' a, G e (G e' a) = G e a) ->
  forall es c e, proj (foldl f c (es ++ [e])) = G e <$> proj c.
Proof.
  intros Hstep Hover es. induction es as [|e' es IH] using rev_ind;
    intros c e.
  - apply Hstep.
  - rewrite foldl_snoc, Hstep, IH, <- list_fmap_compose.
    apply list_fmap_ext. intros ? a _. simpl. apply Hover.
Qed.

Lemma movedImage_id r dx dy obj :
  CanvasObject.id (movedImage r dx dy obj) = CanvasObject.id obj.
Proof.
  unfold movedImage, moveTarget. cbn.
  destruct (Js.includes _ _); [|done].
  by destruct (startPositions r !! CanvasObject.id obj).
Qed.

Lemma movedImage_overrides r dx dy dx' dy' obj :
  movedImage r dx dy (movedImage r dx' dy' obj) = movedImage r dx dy obj.
Proof.
  unfold movedImage at 1. rewrite movedImage_id.
  unfold movedImage, moveTarget. cbn.
  destruct (Js.includes _ _); [|done].
  by destruct (startPositions r !! CanvasObject.id obj) as [sp|] eqn:E;
    cbn; rewrite E.
Qed.

Lemma resizedFrame_overrides r dx dx' f :
  resizedFrame r dx (resizedFrame r dx' f) = resizedFrame r dx f.
Proof.
  unfold resizedFrame.
  destruct (decide (FrameObject.id f = targetId r)) as [Hid|Hid].
  - cbn. by rewrite decide_True by done.
  - by rewrite decide_False by done.
Qed.

Lemma moveTick_objects_image r dx dy mp sp c :
  isFrameId (targetId r) = false ->
  isNodeId (targetId r) = false ->
  CanvasState.objects (moveTick r Move dx dy mp sp c)
    = movedImage r dx dy <$> CanvasState.objects c.
Proof. intros HF HN. unfold moveTick, movedLayers. by rewrite HF, HN. Qed.

Lemma moveTick_frames_resize r dx dy mp sp c :
  isFrameId (targetId r) = true ->
  CanvasState.frames (moveTick r ResizeBr dx dy mp sp c)
    = resizedFrame r dx <$> CanvasState.frames c.
Proof. intros HF. unfold moveTick, movedLayers. by rewrite HF. Qed.

End Drag.

(** *** Starting a session *)

Section SessionStart.

Lemma prefix_cons (a b : ascii) (p s : string) :
  String.prefix (String a p) (String b s)
    = if Ascii.ascii_dec a b then String.prefix p s else false.
Proof. reflexivity. Qed.

Lemma frame_id_not_node_id (id : string) :
  isFrameId id = true -> isNodeId id = false.
Proof.
  unfold isFrameId, isNodeId, Js.startsWith.
  destruct id as [|a id]; [done|]. rewrite !prefix_cons.
  destruct (Ascii.ascii_dec "f" a) as [<-|]; [|discriminate].
  intros _. by destruct (Ascii.ascii_dec "p" "f").
Qed.

Lemma snapshotPositions_snoc l t :
  snapshotPositions (l ++ [t])
    = <[Target.id t := mkPoint (Target.x t) (Target.y t)]> (snapshotPositions l).
Proof. unfold snapshotPositions. by rewrite foldl_snoc. Qed.

(** With distinct ids, the snapshot holds the position of every entry. *)
Lemma snapshotPositions_lookup (l : list TargetObject) (t : TargetObject) :
  NoDup (Target.id <$> l) ->
  t ∈ l ->
  snapshotPositions l !! Target.id t
    = Some (mkPoint (Target.x t) (Target.y t)).
Proof.
  induction l as [|a l IH] using rev_ind; [by intros _ ?%elem_of_nil|].
  rewrite fmap_app, NoDup_app. intros (Hl & Hdisj & _).
  rewrite snapshotPositions_snoc.
  intros [Hin|Heq%list_elem_of_singleton]%elem_of_app.
  - rewrite lookup_insert_ne; [by apply IH|].
    intros Heq. apply (Hdisj (Target.id t)).
    + by apply list_elem_of_fmap_2.
    + rewrite <- Heq. cbn. by left.
  - subst t. apply lookup_insert_eq.
Qed.

Lemma imageSnapshotEntries_NoDup c current :
  NoDup ((CanvasObject.id <$> CanvasState.objects c)
         ++ (PromptNodeObject.id <$> CanvasState.promptNodes c)) ->
  NoDup (Target.id <$> imageSnapshotEntries c current).
Proof.
  intros Hnd. eapply sublist_NoDup; [exact Hnd|].
  unfold imageSnapshotEntries.
  rewrite fmap_app, <- !list_fmap_compose.
  apply sublist_app; apply fmap_sublist, sublist_filter.
Qed.

End SessionStart.

Section SessionStartFacts.

Lemma handleInteractionStart_image (s : AppState) (c : CanvasState.t)
    (id : string) (e0 : MouseEvent) (ty : InteractionType)
    (o : CanvasObject.t) :
  activeCanvas s = Some c ->
  isFrameId id = false ->
  isNodeId id = false ->
  Js.find (fun o => CanvasObject.id o = id) (CanvasState.objects c) = Some o ->
  let current := selectionAfterPointerDown (selectedObjectIds s) id (shiftKey e0) in
  let s1 := handleInteractionStart id e0 ty s in
  activeCanvas s1 = Some (promote id c)
  /\ interactionRef s1
     = mkInteraction (Some ty) id (clientX e0) (clientY e0)
         (CanvasObject.width o) (CanvasObject.height o)
         (Js.or_number (CanvasObject.rotation o) 0) 1
         (CanvasObject.x o + CanvasObject.width o / 2)
         (CanvasObject.y o + CanvasObject.height o / 2)
         current (snapshotPositions (imageSnapshotEntries c current))
  /\ viewTransform s1 = viewTransform s
  /\ viewportRef s1 = viewportRef s
  /\ selectedObjectIds s1 = current.
Proof.
  intros Hc HF HN Ho. cbv zeta. unfold handleInteractionStart.
  rewrite Hc. cbv zeta. rewrite HF, HN, Ho. cbn [fmap option_fmap option_map andb].
  split; [|done].
  apply activeCanvas_onActiveCanvas; [done|done|apply promote_id|done].
Qed.

Lemma handleInteractionStart_frame (s : AppState) (c : CanvasState.t)
    (id : string) (e0 : MouseEvent) (ty : InteractionType)
    (f : FrameObject.t) :
  activeCanvas s = Some c ->
  isFrameId id = true ->
  Js.find (fun f => FrameObject.id f = id) (CanvasState.frames c) = Some f ->
  let s1 := handleInteractionStart id e0 ty s in
  activeCanvas s1 = Some (promote id c)
  /\ type (interactionRef s1) = Some ty
  /\ targetId (interactionRef s1) = id
  /\ startX (interactionRef s1) = clientX e0
  /\ startWidth (interactionRef s1) = FrameObject.width f
  /\ startAspectRatio (interactionRef s1)
     = Js.or_number (FrameObject.aspectRatio f) 1
  /\ viewTransform s1 = viewTransform s
  /\ viewportRef s1 = viewportRef s.
Proof.
  intros Hc HF Hf. cbv zeta. unfold handleInteractionStart.
  rewrite Hc. cbv zeta. rewrite HF, (frame_id_not_node_id id HF), Hf.
  cbn [fmap option_fmap option_map andb].
  split; [|done].
  apply activeCanvas_onActiveCanvas; [done|done|apply promote_id|done].
Qed.

(** Z-promotion of an image rewrites nothing but [zIndex]. *)
Lemma promote_objects_image id c :
  isFrameId id = false ->
  isNodeId id = false ->
  exists z,
    CanvasState.objects (promote id c)
      = (fun obj => if decide (CanvasObject.id obj = id)
                    then CanvasObject.set_zIndex obj z else obj)
          <$> CanvasState.objects c.
Proof. intros HF HN. unfold promote. rewrite HF, HN. by eexists. Qed.

Lemma promote_frames_frame id c :
  isFrameId id = true ->
  exists z,
    CanvasState.frames (promote id c)
      = (fun f => if decide (FrameObject.id f = id)
                  then FrameObject.set_zIndex f z else f)
          <$> CanvasState.frames c.
Proof. intros HF. unfold promote. rewrite HF. by eexists. Qed.

End SessionStartFacts.

(** *** Group move *)

Section GroupMove.


End GroupMove.

(** *** Frame resize *)

Section FrameResize.

(** C6. During a resize drag on a frame, after every [mousemove] (whatever
    the earlier ones were) the frame's width is
    [max (50, startWidth + dx)] and its height is that width divided by
    the aspect ratio read at pointer-down; the width is at least 50; a
    frame whose [aspectRatio] is the (non-zero) one read at pointer-down
    satisfies [height = width / aspectRatio]; other frames keep their
    size. *)
Theorem frame_resize_keeps_aspect_ratio (s : AppState) (c : CanvasState.t)
    (id : string) (e0 : MouseEvent) (es : list MouseEvent) (e : MouseEvent)
    (f0 : FrameObject.t) :
  activeCanvas s = Some c ->
  isFrameId id = true ->
  Js.find (fun f => FrameObject.id f = id) (CanvasState.frames c) = Some f0 ->
  let s1 := handleInteractionStart id e0 ResizeBr s in
  let s2 := ticks (es ++ [e]) s1 in
  let dx := (clientX e - clientX e0) / zoom (viewTransform s) in
  let newWidth := Rmax 50 (FrameObject.width f0 + dx) in
  startWidth (interactionRef s1) = FrameObject.width f0
  /\ startAspectRatio (interactionRef s1)
     = Js.or_number (FrameObject.aspectRatio f0) 1
  /\ exists c2,
      activeCanvas s2 = Some c2
      /\ Forall2
           (fun f f2 =>
              FrameObject.id f2 = FrameObject.id f
              /\ FrameObject.aspectRatio f2 = FrameObject.aspectRatio f
              /\ if decide (FrameObject.id f = id)
                 then FrameObject.width f2 = newWidth
                      /\ FrameObject.height f2
                         = newWidth / startAspectRatio (interactionRef s1)
                      /\ 50 <= FrameObject.width f2
                      /\ (FrameObject.aspectRatio f = FrameObject.aspectRatio f0 ->
                          FrameObject.aspectRatio f0 <> 0 ->
                          FrameObject.height f2
                            = FrameObject.width f2 / FrameObject.aspectRatio f2)
                 else FrameObject.width f2 = FrameObject.width f
                      /\ FrameObject.height f2 = FrameObject.height f)
           (CanvasState.frames c) (CanvasState.frames c2).
Proof.
  intros Hc HF Hf0. cbv zeta.
  destruct (handleInteractionStart_frame s c id e0 ResizeBr f0 Hc HF Hf0)
    as (Hc1 & Hty & Htid & HsX & HsW & HsA & Hv1 & Hp1).
  set (s1 := handleInteractionStart id e0 ResizeBr s) in *.
  assert (id <> "") as Hid by (by intros ->).
  split; [done|]. split; [done|].
  destruct (ticks_session (es ++ [e]) s1 (promote id c) ResizeBr Hc1)
    as (Hc2 & _); [done|done|by rewrite Htid|].
  eexists. split; [exact Hc2|].
  set (G := fun e : MouseEvent =>
    resizedFrame (interactionRef s1)
      ((clientX e - startX (interactionRef s1)) / zoom (viewTransform s1))).
  rewrite (foldl_last_wins (fun c e => sessionTick s1 ResizeBr e c)
             CanvasState.frames G); cycle 1.
  { intros c0 e1. unfold sessionTick.
    apply moveTick_frames_resize; by rewrite Htid. }
  { intros e1 e2 a. apply resizedFrame_overrides. }
  destruct (promote_frames_frame id c HF) as [z ->].
  rewrite <- list_fmap_compose.
  apply Forall2_fmap_r, Forall_Forall2_diag, Forall_forall.
  intros f Hfin. cbn. unfold G, resizedFrame.
  rewrite Htid, HsX, HsW, HsA, Hv1.
  destruct (decide (FrameObject.id f = id)) as [Hfid|Hfid].
  - cbn. rewrite decide_True by done. cbn.
    repeat split; [apply Rmax_l|].
    intros -> Hnz. unfold Js.or_number. by rewrite decide_False.
  - by rewrite decide_False.
Qed.

End FrameResize.

(** *** Deletion and the attachment of prompt nodes *)

Section Deletion.

Lemma find_filter_implied {A} (P Q : A -> Prop)
    `{!forall a, Decision (P a)} `{!forall a, Decision (Q a)} (l : list A) :
  (forall a, P a -> Q a) ->
  Js.find P (filter Q l) = Js.find P l.
Proof.
  intros HPQ. induction l as [|a l IH]; [done|].
  rewrite filter_cons, (find_cons P a l).
  destruct (decide (Q a)) as [HQ|HQ].
  - by rewrite find_cons, IH.
  - rewrite IH. case_decide as HP; [|done]. destruct HQ. by apply HPQ.
Qed.

Lemma findParent_without_object objects frames (idToDelete id : string) :
  id <> idToDelete ->
  findParent (filter (fun o => CanvasObject.id o <> idToDelete) objects) frames id
    = findParent objects frames id.
Proof.
  intros Hne. unfold findParent.
  rewrite find_filter_implied; [done|]. by intros a ->.
Qed.

Lemma findParent_without_frame objects frames (idToDelete id : string) :
  id <> idToDelete ->
  findParent objects (filter (fun f => FrameObject.id f <> idToDelete) frames) id
    = findParent objects frames id.
Proof.
  intros Hne. unfold findParent.
  rewrite find_filter_implied; [done|]. by intros a ->.
Qed.

(** The cascade of [handleDeleteSingleObject] keeps every remaining node
    attached. *)
Lemma handleDeleteSingleObject_keeps_attachments (idToDelete : string)
    (s : AppState) (c : CanvasState.t) :
  activeCanvas s = Some c ->
  attachmentsResolve c ->
  exists c',
    activeCanvas (handleDeleteSingleObject idToDelete s) = Some c'
    /\ attachmentsResolve c'.
Proof.
  intros Hc Hok. unfold handleDeleteSingleObject.
  destruct (noActiveCanvasId s); [by exists c|].
  eexists. split; [by apply activeCanvas_onActiveCanvas|].
  unfold attachmentsResolve in *. cbn.
  apply Forall_forall. intros node [Hne Hin]%list_elem_of_filter.
  rewrite findParent_without_object by done.
  by apply (proj1 (Forall_forall _ _) Hok).
Qed.

(** So does the cascade of [handleDeleteFrame]. *)
Lemma handleDeleteFrame_keeps_attachments (idToDelete : string)
    (s : AppState) (c : CanvasState.t) :
  activeCanvas s = Some c ->
  attachmentsResolve c ->
  exists c',
    activeCanvas (handleDeleteFrame idToDelete s) = Some c'
    /\ attachmentsResolve c'.
Proof.
  intros Hc Hok. unfold handleDeleteFrame. rewrite Hc.
  eexists. split; [by apply activeCanvas_onActiveCanvas|].
  unfold attachmentsResolve in *. cbn.
  apply Forall_forall. intros node [Hne Hin]%list_elem_of_filter.
  rewrite findParent_without_frame by done.
  by apply (proj1 (Forall_forall _ _) Hok).
Qed.

(** Clearing the canvas leaves no node at all. *)
Lemma handleClearCanvas_keeps_attachments (s : AppState) (c : CanvasState.t) :
  activeCanvas s = Some c ->
  attachmentsResolve c ->
  exists c',
    activeCanvas (handleClearCanvas s) = Some c' /\ attachmentsResolve c'.
Proof.
  intros Hc Hok. unfold handleClearCanvas.
  destruct (noActiveCanvasId s); [by exists c|].
  eexists. split; [by apply activeCanvas_onActiveCanvas|].
  by apply Forall_nil.
Qed.

(** [deleteSelectedObjects] filters the images only: the prompt nodes (and
    the frames) of the canvas are the ones it found. *)
Lemma deleteSelectedObjects_keeps_prompt_nodes (s : AppState)
    (c : CanvasState.t) :
  activeCanvas s = Some c ->
  selectedObjectIds s <> [] ->
  noActiveCanvasId s = false ->
  activeCanvas (deleteSelectedObjects s)
  = Some (mapObjects
            (filter (fun o => ¬ Js.includes (selectedObjectIds s)
                                  (CanvasObject.id o))) c).
Proof.
  intros Hc Hsel Hid. unfold deleteSelectedObjects.
  rewrite Hid, bool_decide_eq_true_2.
  - by apply activeCanvas_onActiveCanvas.
  - destruct (selectedObjectIds s); [done|simpl; lia].
Qed.


End Deletion.

(** *** Pointer-down on a prompt node *)

Section NodePointerDown.

Lemma node_id_not_frame_id (id : string) :
  isNodeId id = true -> isFrameId id = false.
Proof.
  intros HN. destruct (isFrameId id) eqn:HF; [|done].
  apply frame_id_not_node_id in HF. congruence.
Qed.

(** A pointer-down on a prompt node arrives as a ['move'] start; it sets
    the selection to the node and returns before the session is recorded
    and before any z-promotion: canvases, session and listeners are as
    they were. *)
Lemma handleInteractionStart_node_move (id : string) (e : MouseEvent)
    (s : AppState) (c : CanvasState.t) (node : PromptNodeObject.t) :
  activeCanvas s = Some c ->
  isNodeId id = true ->
  Js.find (fun p => PromptNodeObject.id p = id) (CanvasState.promptNodes c)
    = Some node ->
  handleInteractionStart id e Move s = setSelectedObjectIds (fun _ => [id]) s.
Proof.
  intros Hc HN Hnode. unfold handleInteractionStart.
  rewrite Hc. cbv zeta.
  unfold selectionAfterPointerDown.
  rewrite HN, (node_id_not_frame_id id HN), Hnode. reflexivity.
Qed.

(** C4. A pointer-down on [prompt-node-a] of the sample canvas selects the
    node alone, starts no session and moves nothing, and it promotes
    nothing either: the node keeps zIndex 20000 where one more than the
    maximum of its band is 20002. *)
Theorem pointer_down_on_prompt_node_skips_promotion :
  let s := Sample.state ["img-b"] [] in
  let s' := handleInteractionStart "prompt-node-a" (Sample.pointerAt 60 90) Move s in
  selectedObjectIds s' = ["prompt-node-a"]
  /\ type (interactionRef s') = None
  /\ listening s' = false
  /\ canvases s' = canvases s
  /\ (PromptNodeObject.zIndex <$>
        (activeCanvas s' ≫= fun c =>
           Js.find (fun p => PromptNodeObject.id p = "prompt-node-a")
                   (CanvasState.promptNodes c)))
     = Some 20000%Z
  /\ (Js.max_or (PromptNodeObject.zIndex <$> CanvasState.promptNodes Sample.canvas)
                (Z_INDEX_BASE_PROMPT_NODE - 1) + 1)%Z = 20002%Z.
Proof. cbv zeta. repeat split; reflexivity. Qed.

End NodePointerDown.

(** *** The concurrency cap *)

Section ConcurrencyCap.

(** C8. With ten or more jobs in flight, whatever their providers, each of
    the three submission handlers stops before it registers a job: nothing
    is started (no capture, no provider call), the active jobs, the
    canvases and the call counters are as before, and an error message is
    shown; for a handler that got as far as the cap test the message is the
    one of the cap. *)
Theorem job_cap_rejects_submission (s : AppState) (jobId : string) :
  (MAX_CONCURRENT_JOBS <= length (activeCombinedJobs s))%nat ->
  (forall objectId targetApi,
      is_Some (activeCanvas s) ->
      handleSendObjectToApi objectId targetApi jobId s
        = (setError (Some capMessage) s, None))
  /\ (forall objectId,
        is_Some (activeCanvas s) ->
        exists message,
          handleUpscaleSingleImage objectId jobId s
            = (setError (Some message) s, None)
          /\ (is_Some (apiKeyOf s "seadream") -> message = capMessage))
  /\ (exists message,
        handleGenerateTextToImage jobId s = (setError (Some message) s, None)
        /\ (is_Some (apiKeyOf s "seadream") ->
            Js.trimsToEmpty (textGenPrompt s) = false ->
            message = capMessage))
  /\ (forall message,
        activeCombinedJobs (setError (Some message) s) = activeCombinedJobs s
        /\ canvases (setError (Some message) s) = canvases s
        /\ apiCallCounts (setError (Some message) s) = apiCallCounts s
        /\ error (setError (Some message) s) = Some message).
Proof.
  intros Hfull. split; [|split; [|split]].
  - intros objectId targetApi [c Hc]. unfold handleSendObjectToApi.
    rewrite Hc. by rewrite bool_decide_eq_true_2.
  - intros objectId [c Hc]. unfold handleUpscaleSingleImage. rewrite Hc.
    destruct (apiKeyOf s "seadream") as [key|].
    + rewrite bool_decide_eq_true_2 by done. by eexists.
    + eexists. split; [done|]. by intros [? ?].
  - unfold handleGenerateTextToImage.
    destruct (apiKeyOf s "seadream") as [key|].
    + destruct (Js.trimsToEmpty (textGenPrompt s)).
      * eexists. split; [done|]. by intros _ ?.
      * rewrite bool_decide_eq_true_2 by done. by eexists.
    + eexists. split; [done|]. by intros [? ?].
  - done.
Qed.

End ConcurrencyCap.

(** *** Provider polling *)

Section Polling.
Import SeaDream.
Context (msgs : Messages) (download : string -> option string).
Context (steps : nat -> PollStep) (t0 : Z).

Local Open Scope Z_scope.

Lemma clockAt_step (k : nat) :
  clockAt steps t0 k + POLLING_INTERVAL <= clockAt steps t0 (S k).
Proof. simpl. pose proof (N2Z.is_nonneg (delay (steps k))). lia. Qed.

Lemma clockAt_lower (k : nat) :
  t0 + POLLING_INTERVAL * Z.of_nat k <= clockAt steps t0 k.
Proof.
  induction k as [|k IH]; [simpl; lia|].
  pose proof (clockAt_step k). unfold POLLING_INTERVAL in *. lia.
Qed.

Lemma clockAt_mono (i k : nat) :
  (i <= k)%nat -> clockAt steps t0 i <= clockAt steps t0 k.
Proof.
  induction 1 as [|k _ IH]; [lia|].
  pose proof (clockAt_step k). unfold POLLING_INTERVAL in *. lia.
Qed.

(** Within the budget fewer than 36 requests have been made. *)
Lemma within_budget_bound (k : nat) :
  clockAt steps t0 k - t0 < POLLING_TIMEOUT -> (k < 36)%nat.
Proof.
  pose proof (clockAt_lower k).
  unfold POLLING_TIMEOUT, POLLING_INTERVAL in *. lia.
Qed.

Lemma pollLoop_unfold (fuel : nat) (now : Z) (polls : nat) :
  pollLoop msgs download steps t0 (S fuel) now polls
  = if decide (now - t0 < POLLING_TIMEOUT) then
      let step := steps polls in
      let now' := now + POLLING_INTERVAL + Z.of_N (delay step) in
      match reply step with
      | Rejected reason => (Escaped reason, S polls)
      | HttpNotOk _ => pollLoop msgs download steps t0 fuel now' (S polls)
      | Json status output0 error =>
          if decide (status = Some "completed") then
            match truthy output0 with
            | None => (Thrown (noOutputUrl msgs), S polls)
            | Some outputUrl =>
                match download outputUrl with
                | None => (Thrown (downloadFailed msgs +:+ outputUrl), S polls)
                | Some finalDataUri => (Returned finalDataUri, S polls)
                end
            end
          else if decide (status = Some "failed") then
            (Thrown (taskFailed msgs +:+ or_string error "Unknown error"),
             S polls)
          else pollLoop msgs download steps t0 fuel now' (S polls)
      end
    else (Thrown (timedOut msgs), polls).
Proof. reflexivity. Qed.

(** A transient reply within the budget leads to the next test. *)
Lemma pollLoop_transient (fuel polls : nat) :
  clockAt steps t0 polls - t0 < POLLING_TIMEOUT ->
  transient (reply (steps polls)) ->
  pollLoop msgs download steps t0 (S fuel) (clockAt steps t0 polls) polls
  = pollLoop msgs download steps t0 fuel (clockAt steps t0 (S polls)) (S polls).
Proof.
  intros Hin Htr. rewrite pollLoop_unfold, decide_True by done. cbv zeta.
  destruct (reply (steps polls)) as [?|?|status out err]; [done|done|].
  destruct Htr as [H1 H2]. by rewrite !decide_False by done.
Qed.

(** The loop never runs out of its 37 tests. *)
Lemma pollLoop_total (fuel polls : nat) :
  (polls <= 36)%nat ->
  (37 <= fuel + polls)%nat ->
  (pollLoop msgs download steps t0 fuel (clockAt steps t0 polls) polls).1
    <> OutOfFuel.
Proof.
  revert polls. induction fuel as [|fuel IH]; intros polls Hle Hfuel; [lia|].
  rewrite pollLoop_unfold.
  destruct (decide _) as [Hin|]; [|done]. cbv zeta.
  pose proof (within_budget_bound polls Hin).
  destruct (reply (steps polls)) as [?|?|status out err]; [done| |].
  - apply (IH (S polls)); lia.
  - destruct (decide (status = _)).
    + destruct (truthy out); [|done]. by destruct (download _).
    + destruct (decide (status = _)); [done|]. apply (IH (S polls)); lia.
Qed.

(** Transient replies up to the [k]-th request bring the loop there. *)
Lemma pollLoop_reaches (k fuel polls : nat) :
  (polls <= k)%nat ->
  clockAt steps t0 k - t0 < POLLING_TIMEOUT ->
  (forall i, (polls <= i < k)%nat -> transient (reply (steps i))) ->
  pollLoop msgs download steps t0 (k - polls + fuel) (clockAt steps t0 polls) polls
  = pollLoop msgs download steps t0 fuel (clockAt steps t0 k) k.
Proof.
  intros Hle Hin. remember (k - polls)%nat as d eqn:Hd.
  revert polls Hle Hd. induction d as [|d IH]; intros polls Hle Hd Htr.
  - by replace polls with k by lia.
  - cbn [Nat.add]. rewrite pollLoop_transient.
    + apply IH; [lia|lia|]. intros i Hi. apply Htr. lia.
    + pose proof (clockAt_mono polls k Hle). lia.
    + apply Htr. lia.
Qed.

End Polling.

Section PollingOutcome.
Import SeaDream.
Context (msgs : Messages) (download : string -> option string).
Context (steps : nat -> PollStep) (t0 : Z).

Local Open Scope Z_scope.

Lemma transient_not_terminal (r : PollReply) : transient r -> ~ terminal r.
Proof.
  destruct r as [?|?|status out err]; simpl.
  - tauto.
  - tauto.
  - intros [H1 H2] [?|?]; congruence.
Qed.

(** In both copies of the loop the time-out message is none of the other
    messages, whatever the provider's detail or the output URL. *)
Lemma timedOut_distinct :
  msgs = editMessages \/ msgs = textGenMessages ->
  noOutputUrl msgs <> timedOut msgs
  /\ (forall url, downloadFailed msgs +:+ url <> timedOut msgs)
  /\ (forall detail, taskFailed msgs +:+ detail <> timedOut msgs).
Proof.
  intros [-> | ->]; cbn; repeat split; try discriminate;
    intros ?; discriminate.
Qed.

(** A run that ends with the time-out message saw only transient replies,
    each within the budget, and stopped at the first test past it. *)
Lemma pollLoop_timedOut (fuel polls n : nat) :
  msgs = editMessages \/ msgs = textGenMessages ->
  pollLoop msgs download steps t0 fuel (clockAt steps t0 polls) polls
    = (Thrown (timedOut msgs), n) ->
  (polls <= n)%nat
  /\ (forall i, (polls <= i < n)%nat ->
        transient (reply (steps i))
        /\ clockAt steps t0 i - t0 < POLLING_TIMEOUT)
  /\ POLLING_TIMEOUT <= clockAt steps t0 n - t0.
Proof.
  intros Hmsgs. destruct (timedOut_distinct Hmsgs) as (D1 & D2 & D3).
  revert polls. induction fuel as [|fuel IH]; intros polls; [done|].
  rewrite pollLoop_unfold.
  destruct (decide _) as [Hin|Hout]; cycle 1.
  { intros [= <-]. split; [lia|]. split; [lia|lia]. }
  cbv zeta. destruct (reply (steps polls)) as [?|?|status out err] eqn:Hreply.
  - done.
  - intros Hrec. apply (IH (S polls)) in Hrec as (Hle & Htr & Hend).
    split; [lia|]. split; [|done].
    intros i Hi. destruct (decide (i = polls)) as [->|].
    + by rewrite Hreply.
    + apply Htr. lia.
  - destruct (decide (status = Some "completed")) as [|Hnc].
    { destruct (truthy out) as [url|]; [|by intros [= ?]].
      destruct (download url); [done|]. intros [= ? _]. by destruct (D2 url). }
    destruct (decide (status = Some "failed")) as [|Hnf].
    { intros [= ? _]. by destruct (D3 (or_string err "Unknown error")). }
    intros Hrec. apply (IH (S polls)) in Hrec as (Hle & Htr & Hend).
    split; [lia|]. split; [|done].
    intros i Hi. destruct (decide (i = polls)) as [->|].
    + by rewrite Hreply.
    + apply Htr. lia.
Qed.

(** With nothing but transient replies the run ends with the time-out. *)
Lemma pollLoop_all_transient (fuel polls : nat) :
  (polls <= 36)%nat ->
  (37 <= fuel + polls)%nat ->
  (forall i, transient (reply (steps i))) ->
  exists n,
    pollLoop msgs download steps t0 fuel (clockAt steps t0 polls) polls
      = (Thrown (timedOut msgs), n).
Proof.
  intros Hle Hfuel Htr. revert polls Hle Hfuel.
  induction fuel as [|fuel IH]; intros polls Hle Hfuel; [lia|].
  destruct (decide (clockAt steps t0 polls - t0 < POLLING_TIMEOUT)) as [Hin|Hout].
  - rewrite pollLoop_transient by done.
    pose proof (within_budget_bound steps t0 polls Hin).
    apply IH; lia.
  - rewrite pollLoop_unfold, decide_False by done. by eexists.
Qed.

Lemma poll_start :
  poll msgs download steps t0
    = pollLoop msgs download steps t0 37 (clockAt steps t0 0) 0.
Proof. reflexivity. Qed.

Lemma poll_failed_at (k : nat) (out err : option string) :
  (forall i, (i < k)%nat -> transient (reply (steps i))) ->
  clockAt steps t0 k - t0 < POLLING_TIMEOUT ->
  reply (steps k) = Json (Some "failed") out err ->
  poll msgs download steps t0
    = (Thrown (taskFailed msgs +:+ or_string err "Unknown error"), S k).
Proof.
  intros Htr Hin Hreply. rewrite poll_start.
  pose proof (within_budget_bound steps t0 k Hin) as Hk.
  replace 37%nat with (k - 0 + S (36 - k))%nat by lia.
  rewrite pollLoop_reaches; [|lia|done|intros i Hi; apply Htr; lia].
  rewrite pollLoop_unfold, decide_True by done. cbv zeta.
  rewrite Hreply. by rewrite decide_False, decide_True.
Qed.

Lemma poll_total : (poll msgs download steps t0).1 <> OutOfFuel.
Proof. rewrite poll_start. apply pollLoop_total; lia. Qed.

Lemma poll_timedOut (n : nat) :
  msgs = editMessages \/ msgs = textGenMessages ->
  poll msgs download steps t0 = (Thrown (timedOut msgs), n) ->
  (forall i, (i < n)%nat ->
     transient (reply (steps i))
     /\ clockAt steps t0 i - t0 < POLLING_TIMEOUT)
  /\ POLLING_TIMEOUT <= clockAt steps t0 n - t0.
Proof.
  intros Hmsgs. rewrite poll_start.
  intros (_ & Htr & Hend)%pollLoop_timedOut; [|done].
  split; [|done]. intros i Hi. apply Htr. lia.
Qed.

Lemma poll_all_transient :
  (forall i, transient (reply (steps i))) ->
  exists n, poll msgs download steps t0 = (Thrown (timedOut msgs), n).
Proof.
  intros Htr. rewrite poll_start.
  apply pollLoop_all_transient; [lia|lia|done].
Qed.

(** C9. In both polling loops: a reply with status ['failed'] ends the run
    at that very request, the first one included, with the error
    ['... task failed: <detail>'] carrying the provider's detail (or
    ['Unknown error']), which is never the time-out error; every run
    ends; a run ends with the time-out error only after transient replies
    alone (responses that are not ok, or bodies without a terminal status),
    each asked for within the 180000 ms budget at 5000 ms or more apart,
    once the budget is used up; and transient replies alone do end in the
    time-out error. *)
Theorem failed_status_is_provider_error_not_timeout :
  msgs = editMessages \/ msgs = textGenMessages ->
  (forall k out err,
      (forall i, (i < k)%nat -> transient (reply (steps i))) ->
      clockAt steps t0 k - t0 < POLLING_TIMEOUT ->
      reply (steps k) = Json (Some "failed") out err ->
      poll msgs download steps t0
        = (Thrown (taskFailed msgs +:+ or_string err "Unknown error"), S k)
      /\ taskFailed msgs +:+ or_string err "Unknown error" <> timedOut msgs)
  /\ (forall out err,
        reply (steps 0) = Json (Some "failed") out err ->
        poll msgs download steps t0
          = (Thrown (taskFailed msgs +:+ or_string err "Unknown error"), 1%nat))
  /\ (poll msgs download steps t0).1 <> OutOfFuel
  /\ (forall n,
        poll msgs download steps t0 = (Thrown (timedOut msgs), n) ->
        (n <= 36)%nat
        /\ (forall i, (i < n)%nat ->
              transient (reply (steps i))
              /\ ~ terminal (reply (steps i))
              /\ clockAt steps t0 i - t0 < POLLING_TIMEOUT)
        /\ (forall i, clockAt steps t0 i + POLLING_INTERVAL
                      <= clockAt steps t0 (S i))
        /\ POLLING_TIMEOUT <= clockAt steps t0 n - t0)
  /\ ((forall i, transient (reply (steps i))) ->
      exists n, poll msgs download steps t0 = (Thrown (timedOut msgs), n)).
Proof.
  intros Hmsgs. destruct (timedOut_distinct Hmsgs) as (D1 & D2 & D3).
  split; [|split; [|split; [|split]]].
  - intros k out err Htr Hin Hreply.
    split; [by apply poll_failed_at with out|apply D3].
  - intros out err Hreply. apply poll_failed_at with out; [lia| |done].
    simpl. unfold POLLING_TIMEOUT. lia.
  - apply poll_total.
  - intros n Hn. apply poll_timedOut in Hn as (Htr & Hend); [|done].
    assert (n <= 36)%nat as Hle.
    { destruct n as [|n]; [lia|].
      destruct (Htr n) as [_ Hin]; [lia|].
      apply within_budget_bound in Hin. lia. }
    split; [done|]. split; [|split; [apply clockAt_step|done]].
    intros i Hi. destruct (Htr i Hi) as [Ht Hin].
    split; [done|]. split; [by apply transient_not_terminal|done].
  - apply poll_all_transient.
Qed.

End PollingOutcome.

(** *** Image import *)

Section ImageImport.

Lemma loadImageObject_is_Some z file :
  is_Some (decoded file) -> is_Some (loadImageObject z file).
Proof.
  intros [[w h] Hd]. unfold loadImageObject. rewrite Hd. by eexists.
Qed.


End ImageImport.

(** *** Concrete instances *)

Section Instances.

(** The example of the capture property: only [A] overlaps the frame. *)
Example capture_example :
  objectsToRender Sample.captureFrame [Sample.captureA; Sample.captureB]
    = [Sample.captureA].
Proof.
  unfold objectsToRender.
  rewrite filter_cons_True.
  - rewrite filter_cons_False; [done|].
    unfold overlapsFrame. cbn. lra.
  - unfold overlapsFrame. cbn. lra.
Qed.



Lemma frame_resize_keeps_aspect_ratio_witness :
  let s := Sample.state [] [] in
  let e0 := Sample.pointerAt 400 300 in
  let e := Sample.pointerAt 100 200 in
  let s1 := handleInteractionStart "format-frame-1" e0 ResizeBr s in
  let s2 := ticks ([Sample.pointerAt 450 320] ++ [e]) s1 in
  exists c2,
    activeCanvas s2 = Some c2
    /\ forall f2,
         CanvasState.frames c2 !! 0%nat = Some f2 ->
         FrameObject.width f2 = Rmax 50 (400 + (100 - 400) / (1 / 2))
         /\ 50 <= FrameObject.width f2
         /\ FrameObject.height f2
            = FrameObject.width f2 / FrameObject.aspectRatio f2.
Proof.
  cbv zeta.
  destruct (frame_resize_keeps_aspect_ratio (Sample.state [] [])
              Sample.canvas "format-frame-1" (Sample.pointerAt 400 300)
              [Sample.pointerAt 450 320] (Sample.pointerAt 100 200)
              Sample.frame)
    as (_ & _ & c2 & Hc2 & Hall).
  - reflexivity.
  - reflexivity.
  - reflexivity.
  - exists c2. split; [exact Hc2|].
    intros f2 Hf2.
    destruct (Forall2_lookup_lr _ _ _ 0%nat Sample.frame f2 Hall eq_refl Hf2)
      as (_ & _ & Hsize).
    rewrite decide_True in Hsize by reflexivity.
    destruct Hsize as (Hw & _ & Hmin & Hratio).
    split; [exact Hw|]. split; [exact Hmin|].
    apply Hratio; [reflexivity|]. cbn. lra.
Defined.

Lemma job_cap_rejects_submission_witness :
  let s := Sample.state ["img-a"] Sample.tenJobs in
  handleSendObjectToApi "img-a" NB "job-new" s
    = (setError (Some capMessage) s, None)
  /\ (handleGenerateTextToImage "job-new" s).2 = None
  /\ activeCombinedJobs (handleGenerateTextToImage "job-new" s).1
     = Sample.tenJobs.
Proof.
  cbv zeta.
  destruct (job_cap_rejects_submission
              (Sample.state ["img-a"] Sample.tenJobs) "job-new")
    as (Hsend & _ & (message & Hgen & _) & _).
  - vm_compute. lia.
  - split.
    + apply Hsend. eexists. reflexivity.
    + rewrite Hgen. split; reflexivity.
Defined.

(** Below the cap the same request is taken: with nine jobs in flight the
    job is registered and the generation started. *)
Example ninth_job_is_accepted :
  let s := Sample.state [] (take 9 Sample.tenJobs) in
  handleGenerateTextToImage "job-new" s
  = (setActiveCombinedJobs (fun prev => prev ++ [mkJob "job-new" SD])
       (setApiCallCounts (countCall SD) (setError None s)),
     Some (StartedGenerate (mkJob "job-new" SD) "a cat on a roof" "sd-key")).
Proof. reflexivity. Qed.

Lemma failed_status_is_provider_error_not_timeout_witness :
  SeaDream.editImageWithSeaDream_poll (fun _ => None) Sample.failingAtOnce 0
    = (SeaDream.Thrown "SeaDream task failed: content policy violation", 1%nat).
Proof.
  destruct (failed_status_is_provider_error_not_timeout
              SeaDream.editMessages (fun _ => None) Sample.failingAtOnce 0)
    as (_ & Hfirst & _).
  - left. reflexivity.
  - apply (Hfirst None (Some "content policy violation")). reflexivity.
Defined.



End Instances.

(** *** Zoom and pan *)

Section ViewTransformFacts.

Lemma clampZoom_range (z : R) : 1 / 10 <= clampZoom z <= 5.
Proof.
  unfold clampZoom. split; [apply Rmax_l|].
  apply Rmax_lub; [lra|apply Rmin_l].
Qed.

(** Undoing [newPan = anchor - m * newZoom] gives [m] back. *)
Lemma anchor_kept (m nz anchor : R) :
  nz <> 0 -> (anchor - (anchor - m * nz)) / nz = m.
Proof. intros Hnz. field. done. Qed.



(** The zoom buttons keep the zoom within [0.1, 5] and keep the canvas point
    shown at the center of the viewport where it is. *)
Theorem changeZoom_keeps_view_center (delta : R) (s : AppState)
    (rect : DOMRect) :
  viewportRef s = Some rect ->
  let s' := changeZoom delta s in
  1 / 10 <= zoom (viewTransform s') <= 5
  /\ zoom (viewTransform s') = clampZoom (zoom (viewTransform s) + delta)
  /\ viewCenter s' = viewCenter s
  /\ canvases s' = canvases s.
Proof.
  intros Hrect. cbv zeta. unfold changeZoom. rewrite Hrect.
  split; [apply clampZoom_range|]. split; [done|]. split; [|done].
  unfold viewCenter, getCanvasCoordinates.
  cbn [viewportRef setViewTransform viewTransform]. rewrite Hrect.
  cbn [zoom pan px py].
  set (nz := clampZoom _).
  assert (nz <> 0) as Hnz by (pose proof (clampZoom_range
    (zoom (viewTransform s) + delta)); fold nz in H; lra).
  f_equal.
  - set (m := (left rect + boundsWidth rect / 2 - left rect
               - px (pan (viewTransform s))) / zoom (viewTransform s)).
    field. done.
  - set (m := (top rect + boundsHeight rect / 2 - top rect
               - py (pan (viewTransform s))) / zoom (viewTransform s)).
    field. done.
Qed.

Lemma changeZoom_keeps_view_center_witness :
  let s' := changeZoom (1 / 10) (Sample.state [] []) in
  1 / 10 <= zoom (viewTransform s') <= 5
  /\ viewCenter s' = viewCenter (Sample.state [] []).
Proof.
  cbv zeta.
  destruct (changeZoom_keeps_view_center (1 / 10) (Sample.state [] [])
              Sample.viewport eq_refl) as (Hrange & _ & Hcenter & _).
  split; [exact Hrange|exact Hcenter].
Defined.

(** [getCanvasCoordinates] undoes the transform of the canvas layer, and the
    transform undoes it: a canvas point is found again from where it is
    shown, and a client position from the canvas point it maps to. *)
Theorem client_canvas_round_trip (s : AppState) (rect : DOMRect) (p : Point) :
  viewportRef s = Some rect ->
  zoom (viewTransform s) <> 0 ->
  (let q := canvasToClient rect (viewTransform s) p in
   getCanvasCoordinates s (px q) (py q) = p)
  /\ canvasToClient rect (viewTransform s)
       (getCanvasCoordinates s (px p) (py p)) = p.
Proof.
  intros Hrect Hz. cbv zeta. unfold getCanvasCoordinates, canvasToClient.
  rewrite Hrect. destruct p as [x0 y0]. cbn [px py].
  split; f_equal; field; done.
Qed.

Lemma client_canvas_round_trip_witness :
  getCanvasCoordinates (Sample.state [] [])
    (px (canvasToClient Sample.viewport (viewTransform (Sample.state [] []))
           (mkPoint 100 50)))
    (py (canvasToClient Sample.viewport (viewTransform (Sample.state [] []))
           (mkPoint 100 50)))
  = mkPoint 100 50.
Proof.
  apply (client_canvas_round_trip (Sample.state [] []) Sample.viewport
           (mkPoint 100 50) eq_refl).
  cbn. lra.
Defined.

Lemma pan_ticks (es : list MouseEvent) (s : AppState) (c : CanvasState.t) :
  activeCanvas s = Some c ->
  type (interactionRef s) = Some Pan ->
  viewTransform (ticks es s)
    = mkView (zoom (viewTransform s))
        (mkPoint (px (pan (viewTransform s)) + sumR (movementX <$> es))
                 (py (pan (viewTransform s)) + sumR (movementY <$> es)))
  /\ canvases (ticks es s) = canvases s
  /\ selectedObjectIds (ticks es s) = selectedObjectIds s
  /\ interactionRef (ticks es s) = interactionRef s.
Proof.
  revert s. induction es as [|e es IH]; intros s Hc Hty.
  - cbn. destruct (viewTransform s) as [z [x0 y0]]. cbn.
    repeat split. f_equal. f_equal; lra.
  - change (ticks (e :: es) s) with (ticks es (handleMouseMove e s)).
    assert (handleMouseMove e s
            = setViewTransform (fun prev =>
                mkView (zoom prev)
                  (mkPoint (px (pan prev) + movementX e)
                           (py (pan prev) + movementY e))) s) as ->
      by (unfold handleMouseMove; by rewrite Hc, Hty).
    destruct (IH (setViewTransform (fun prev =>
                mkView (zoom prev)
                  (mkPoint (px (pan prev) + movementX e)
                           (py (pan prev) + movementY e))) s))
      as (Hv & Hcs & Hsel & Hr); [exact Hc|exact Hty|].
    rewrite Hv, Hcs, Hsel, Hr.
    cbn [viewTransform setViewTransform canvases selectedObjectIds
         interactionRef zoom pan px py].
    rewrite !fmap_cons.
    change (sumR (movementX e :: (movementX <$> es)))
      with (movementX e + sumR (movementX <$> es)).
    change (sumR (movementY e :: (movementY <$> es)))
      with (movementY e + sumR (movementY <$> es)).
    repeat split. f_equal. f_equal; lra.
Qed.

(** A pan drag (space held or secondary button, on the background) adds the
    raw pointer movements to the pan, not scaled by the zoom, and changes
    neither the zoom, nor the canvases, nor, once started, the selection. *)
Theorem pan_drag_adds_movements (s : AppState) (c : CanvasState.t)
    (e0 : MouseEvent) (es : list MouseEvent) :
  activeCanvas s = Some c ->
  isPanningWithSpace s = true \/ button e0 = 2%Z ->
  let s2 := ticks es (handleViewportMouseDown true e0 s) in
  viewTransform s2
    = mkView (zoom (viewTransform s))
        (mkPoint (px (pan (viewTransform s)) + sumR (movementX <$> es))
                 (py (pan (viewTransform s)) + sumR (movementY <$> es)))
  /\ canvases s2 = canvases s
  /\ selectedObjectIds s2 = selectedObjectIds s.
Proof.
  intros Hc Hpan. cbv zeta.
  assert (handleViewportMouseDown true e0 s
          = setInteraction (set_type (interactionRef s) (Some Pan)) true
              (setIsPanning true s)) as ->.
  { unfold handleViewportMouseDown. cbn [negb].
    destruct Hpan as [-> | ->]; [done|].
    by rewrite bool_decide_eq_true_2, orb_true_r. }
  destruct (pan_ticks es
              (setInteraction (set_type (interactionRef s) (Some Pan)) true
                 (setIsPanning true s)) c) as (Hv & Hcs & Hsel & _);
    [exact Hc|done|].
  by rewrite Hv, Hcs, Hsel.
Qed.

Lemma pan_drag_adds_movements_witness :
  viewTransform
    (ticks [mkMouse 0 0 5 (-3) false 2; mkMouse 0 0 10 4 false 2]
       (handleViewportMouseDown true (mkMouse 0 0 0 0 false 2)
          (Sample.state ["img-a"] [])))
  = mkView (1 / 2) (mkPoint (0 + (5 + (10 + 0))) (0 + (-3 + (4 + 0)))).
Proof.
  apply (pan_drag_adds_movements (Sample.state ["img-a"] []) Sample.canvas
           (mkMouse 0 0 0 0 false 2)
           [mkMouse 0 0 5 (-3) false 2; mkMouse 0 0 10 4 false 2]).
  - reflexivity.
  - right. reflexivity.
Defined.

(** After pointer-up no [mousemove] changes anything: the session is over,
    the listeners are gone, and whatever events still arrive leave the
    state as the pointer-up left it. *)
Theorem pointer_up_ends_session (es : list MouseEvent) (s : AppState) :
  ticks es (handleMouseUp s) = handleMouseUp s
  /\ type (interactionRef (handleMouseUp s)) = None
  /\ listening (handleMouseUp s) = false
  /\ isPanning (handleMouseUp s) = false
  /\ canvases (handleMouseUp s) = canvases s
  /\ viewTransform (handleMouseUp s) = viewTransform s.
Proof.
  split; [|done].
  induction es as [|e es IH] using rev_ind; [done|].
  unfold ticks in *. rewrite foldl_snoc, IH.
  unfold handleMouseMove. by destruct (activeCanvas (handleMouseUp s)).
Qed.

End ViewTransformFacts.

(** *** Sessions on images and frames *)

Section SessionFacts.

Lemma foldl_max_ge (l : list Z) (a : Z) :
  (a <= foldl Z.max a l)%Z /\ Forall (fun z => (z <= foldl Z.max a l)%Z) l.
Proof.
  revert a. induction l as [|b l IH]; intros a; simpl; [split; [lia|done]|].
  destruct (IH (a `max` b)%Z) as [H1 H2]. split; [lia|].
  constructor; [lia|done].
Qed.

(** Every element of the array is at most [Math.max (...zs)]. *)
Lemma max_or_ge (zs : list Z) (otherwise z : Z) :
  z ∈ zs -> (z <= Js.max_or zs otherwise)%Z.
Proof.
  destruct zs as [|a l]; [by intros ?%elem_of_nil|]. simpl.
  destruct (foldl_max_ge l a) as [H1 H2].
  intros [->|Hin]%elem_of_cons; [done|].
  by apply (proj1 (Forall_forall _ _) H2).
Qed.

Lemma or_number_zero (a : R) : Js.or_number a 0 = a.
Proof. unfold Js.or_number. by case_decide. Qed.

(** A session on an image: what the last tick of a drag leaves in the image
    layer, for a rewrite [G] that a later tick overrides. *)
Lemma image_session_last_tick (s : AppState) (c : CanvasState.t) (id : string)
    (e0 : MouseEvent) (ty : InteractionType) (o : CanvasObject.t)
    (es : list MouseEvent) (e : MouseEvent)
    (G : MouseEvent -> CanvasObject.t -> CanvasObject.t) :
  activeCanvas s = Some c ->
  isFrameId id = false ->
  isNodeId id = false ->
  id <> "" ->
  ty <> Pan ->
  Js.find (fun o => CanvasObject.id o = id) (CanvasState.objects c) = Some o ->
  let s1 := handleInteractionStart id e0 ty s in
  (forall c0 e1,
      CanvasState.objects (sessionTick s1 ty e1 c0) = G e1 <$> CanvasState.objects c0) ->
  (forall c0 e1,
      CanvasState.frames (sessionTick s1 ty e1 c0) = CanvasState.frames c0) ->
  (forall e1 e2 a, G e1 (G e2 a) = G e1 a) ->
  exists c2 z,
    activeCanvas (ticks (es ++ [e]) s1) = Some c2
    /\ CanvasState.objects c2
       = (G e ∘ (fun obj => if decide (CanvasObject.id obj = id)
                           then CanvasObject.set_zIndex obj z else obj))
           <$> CanvasState.objects c
    /\ CanvasState.frames c2 = CanvasState.frames c.
Proof.
  intros Hc HF HN Hid Hpan Ho. cbv zeta. intros Hstep Hframes Hover.
  destruct (handleInteractionStart_image s c id e0 ty o Hc HF HN Ho)
    as (Hc1 & Hr1 & _).
  set (s1 := handleInteractionStart id e0 ty s) in *.
  destruct (ticks_session (es ++ [e]) s1 (promote id c) ty Hc1)
    as (Hc2 & _); [by rewrite Hr1|done|by rewrite Hr1|].
  destruct (promote_objects_image id c HF HN) as [z Hz].
  eexists. exists z. split; [exact Hc2|]. split.
  - rewrite (foldl_last_wins (fun c e => sessionTick s1 ty e c)
               CanvasState.objects G) by done.
    by rewrite Hz, <- list_fmap_compose.
  - rewrite foldl_snoc, Hframes.
    assert (forall l c0,
      CanvasState.frames (foldl (fun c e => sessionTick s1 ty e c) c0 l)
        = CanvasState.frames c0) as Hall.
    { induction l as [|e1 l IH] using rev_ind; intros c0; [done|].
      by rewrite foldl_snoc, Hframes. }
    rewrite Hall. unfold promote. by rewrite HF, HN.
Qed.

(** A pointer-down on an image brings it to the front of the image band and
    its prompt node to the front of the node band: the touched image gets a
    zIndex above that of every image of the canvas, the node attached to it
    one above that of every node, and nothing else changes. *)
Theorem interaction_start_brings_image_to_front (s : AppState)
    (c : CanvasState.t) (id : string) (e : MouseEvent) (ty : InteractionType) :
  activeCanvas s = Some c ->
  isFrameId id = false ->
  isNodeId id = false ->
  is_Some (Js.find (fun o => CanvasObject.id o = id) (CanvasState.objects c)) ->
  exists c1 top topNode,
    activeCanvas (handleInteractionStart id e ty s) = Some c1
    /\ Forall (fun o0 => (CanvasObject.zIndex o0 < top)%Z) (CanvasState.objects c)
    /\ Forall (fun p => (PromptNodeObject.zIndex p < topNode)%Z)
         (CanvasState.promptNodes c)
    /\ Forall2 (fun o0 o1 =>
                  if decide (CanvasObject.id o0 = id)
                  then o1 = CanvasObject.set_zIndex o0 top else o1 = o0)
         (CanvasState.objects c) (CanvasState.objects c1)
    /\ Forall2 (fun p p1 =>
                  if decide (PromptNodeObject.attachedToId p = id)
                  then p1 = PromptNodeObject.set_zIndex p topNode else p1 = p)
         (CanvasState.promptNodes c) (CanvasState.promptNodes c1)
    /\ CanvasState.frames c1 = CanvasState.frames c.
Proof.
  intros Hc HF HN [o Ho].
  destruct (handleInteractionStart_image s c id e ty o Hc HF HN Ho) as (Hc1 & _).
  exists (promote id c),
    (Js.max_or (CanvasObject.zIndex <$> CanvasState.objects c)
       (Z_INDEX_BASE_IMAGE - 1) + 1)%Z,
    (Js.max_or (PromptNodeObject.zIndex <$> CanvasState.promptNodes c)
       (Z_INDEX_BASE_PROMPT_NODE - 1) + 1)%Z.
  split; [exact Hc1|].
  unfold promote. rewrite HF, HN. cbn.
  split; [|split; [|split; [|split; [|done]]]].
  - apply Forall_forall. intros o0 Hin.
    pose proof (max_or_ge (CanvasObject.zIndex <$> CanvasState.objects c)
                  (Z_INDEX_BASE_IMAGE - 1) (CanvasObject.zIndex o0)
                  (list_elem_of_fmap_2 _ _ _ Hin)). lia.
  - apply Forall_forall. intros p Hin.
    pose proof (max_or_ge (PromptNodeObject.zIndex <$> CanvasState.promptNodes c)
                  (Z_INDEX_BASE_PROMPT_NODE - 1) (PromptNodeObject.zIndex p)
                  (list_elem_of_fmap_2 _ _ _ Hin)). lia.
  - apply Forall2_fmap_r, Forall_Forall2_diag, Forall_forall.
    intros o0 _. unfold compose. by destruct (decide (CanvasObject.id o0 = id)).
  - apply Forall2_fmap_r, Forall_Forall2_diag, Forall_forall.
    intros p _. unfold compose. by destruct (decide (PromptNodeObject.attachedToId p = id)).
Qed.

Lemma interaction_start_brings_image_to_front_witness :
  exists c1 top topNode,
    activeCanvas (handleInteractionStart "img-a" (Sample.pointerAt 150 80) Move
                    (Sample.state [] [])) = Some c1
    /\ Forall (fun o0 => (CanvasObject.zIndex o0 < top)%Z)
         (CanvasState.objects Sample.canvas)
    /\ Forall (fun p => (PromptNodeObject.zIndex p < topNode)%Z)
         (CanvasState.promptNodes Sample.canvas)
    /\ CanvasState.frames c1 = CanvasState.frames Sample.canvas.
Proof.
  destruct (interaction_start_brings_image_to_front (Sample.state [] [])
              Sample.canvas "img-a" (Sample.pointerAt 150 80) Move)
    as (c1 & top & topNode & Hc1 & Htop & HtopNode & _ & _ & Hframes).
  - reflexivity.
  - reflexivity.
  - reflexivity.
  - eexists. reflexivity.
  - exists c1, top, topNode. repeat split; assumption.
Defined.

(** The same for a frame: it goes above every frame, its prompt node above
    every node, and the images are as they were. *)
Theorem interaction_start_brings_frame_to_front (s : AppState)
    (c : CanvasState.t) (id : string) (e : MouseEvent) (ty : InteractionType) :
  activeCanvas s = Some c ->
  isFrameId id = true ->
  is_Some (Js.find (fun f => FrameObject.id f = id) (CanvasState.frames c)) ->
  exists c1 top topNode,
    activeCanvas (handleInteractionStart id e ty s) = Some c1
    /\ Forall (fun f => (FrameObject.zIndex f < top)%Z) (CanvasState.frames c)
    /\ Forall (fun p => (PromptNodeObject.zIndex p < topNode)%Z)
         (CanvasState.promptNodes c)
    /\ Forall2 (fun f f1 =>
                  if decide (FrameObject.id f = id)
                  then f1 = FrameObject.set_zIndex f top else f1 = f)
         (CanvasState.frames c) (CanvasState.frames c1)
    /\ Forall2 (fun p p1 =>
                  if decide (PromptNodeObject.attachedToId p = id)
                  then p1 = PromptNodeObject.set_zIndex p topNode else p1 = p)
         (CanvasState.promptNodes c) (CanvasState.promptNodes c1)
    /\ CanvasState.objects c1 = CanvasState.objects c.
Proof.
  intros Hc HF [f Hf].
  destruct (handleInteractionStart_frame s c id e ty f Hc HF Hf) as (Hc1 & _).
  exists (promote id c),
    (Js.max_or (FrameObject.zIndex <$> CanvasState.frames c)
       (Z_INDEX_BASE_FRAME - 1) + 1)%Z,
    (Js.max_or (PromptNodeObject.zIndex <$> CanvasState.promptNodes c)
       (Z_INDEX_BASE_PROMPT_NODE - 1) + 1)%Z.
  split; [exact Hc1|].
  unfold promote. rewrite HF. cbn.
  split; [|split; [|split; [|split; [|done]]]].
  - apply Forall_forall. intros f0 Hin.
    pose proof (max_or_ge (FrameObject.zIndex <$> CanvasState.frames c)
                  (Z_INDEX_BASE_FRAME - 1) (FrameObject.zIndex f0)
                  (list_elem_of_fmap_2 _ _ _ Hin)). lia.
  - apply Forall_forall. intros p Hin.
    pose proof (max_or_ge (PromptNodeObject.zIndex <$> CanvasState.promptNodes c)
                  (Z_INDEX_BASE_PROMPT_NODE - 1) (PromptNodeObject.zIndex p)
                  (list_elem_of_fmap_2 _ _ _ Hin)). lia.
  - apply Forall2_fmap_r, Forall_Forall2_diag, Forall_forall.
    intros f0 _. unfold compose. by destruct (decide (FrameObject.id f0 = id)).
  - apply Forall2_fmap_r, Forall_Forall2_diag, Forall_forall.
    intros p _. unfold compose. by destruct (decide (PromptNodeObject.attachedToId p = id)).
Qed.

Lemma interaction_start_brings_frame_to_front_witness :
  exists c1 top topNode,
    activeCanvas (handleInteractionStart "format-frame-1"
                    (Sample.pointerAt 10 10) Move (Sample.state [] []))
      = Some c1
    /\ Forall (fun f => (FrameObject.zIndex f < top)%Z)
         (CanvasState.frames Sample.canvas)
    /\ Forall (fun p => (PromptNodeObject.zIndex p < topNode)%Z)
         (CanvasState.promptNodes Sample.canvas)
    /\ CanvasState.objects c1 = CanvasState.objects Sample.canvas.
Proof.
  destruct (interaction_start_brings_frame_to_front (Sample.state [] [])
              Sample.canvas "format-frame-1" (Sample.pointerAt 10 10) Move)
    as (c1 & top & topNode & Hc1 & Htop & HtopNode & _ & _ & Hobjects).
  - reflexivity.
  - reflexivity.
  - eexists. reflexivity.
  - exists c1, top, topNode. repeat split; assumption.
Defined.

Lemma resizedImage_overrides r dx dy dx' dy' o :
  resizedImage r dx dy (resizedImage r dx' dy' o) = resizedImage r dx dy o.
Proof.
  unfold resizedImage.
  destruct (decide (CanvasObject.id o = targetId r)) as [Hid|Hid].
  - cbn. by rewrite decide_True by done.
  - by rewrite decide_False by done.
Qed.

Lemma rotatedImage_overrides r mp sp mp' sp' o :
  rotatedImage r mp sp (rotatedImage r mp' sp' o) = rotatedImage r mp sp o.
Proof.
  unfold rotatedImage.
  destruct (decide (CanvasObject.id o = targetId r)) as [Hid|Hid].
  - cbn. by rewrite decide_True by done.
  - by rewrite decide_False by done.
Qed.

(** Resizing an image by its handle: after every [mousemove] its width is
    [max (20, startWidth + dx)] and its height [max (20, startHeight + dy)],
    each axis on its own and neither below 20; its position and rotation,
    and the size of every other image, are untouched, and so are the
    frames. *)
Theorem image_resize_clamps_each_axis (s : AppState) (c : CanvasState.t)
    (id : string) (e0 : MouseEvent) (es : list MouseEvent) (e : MouseEvent)
    (o : CanvasObject.t) :
  activeCanvas s = Some c ->
  isFrameId id = false ->
  isNodeId id = false ->
  id <> "" ->
  Js.find (fun o => CanvasObject.id o = id) (CanvasState.objects c) = Some o ->
  let s2 := ticks (es ++ [e]) (handleInteractionStart id e0 ResizeBr s) in
  let dx := (clientX e - clientX e0) / zoom (viewTransform s) in
  let dy := (clientY e - clientY e0) / zoom (viewTransform s) in
  exists c2,
    activeCanvas s2 = Some c2
    /\ CanvasState.frames c2 = CanvasState.frames c
    /\ Forall2
         (fun o0 o2 =>
            CanvasObject.id o2 = CanvasObject.id o0
            /\ CanvasObject.x o2 = CanvasObject.x o0
            /\ CanvasObject.y o2 = CanvasObject.y o0
            /\ CanvasObject.rotation o2 = CanvasObject.rotation o0
            /\ if decide (CanvasObject.id o0 = id)
               then CanvasObject.width o2 = Rmax 20 (CanvasObject.width o + dx)
                    /\ CanvasObject.height o2 = Rmax 20 (CanvasObject.height o + dy)
                    /\ 20 <= CanvasObject.width o2
                    /\ 20 <= CanvasObject.height o2
               else CanvasObject.width o2 = CanvasObject.width o0
                    /\ CanvasObject.height o2 = CanvasObject.height o0)
         (CanvasState.objects c) (CanvasState.objects c2).
Proof.
  intros Hc HF HN Hid Ho. cbv zeta.
  destruct (handleInteractionStart_image s c id e0 ResizeBr o Hc HF HN Ho)
    as (_ & Hr1 & Hv1 & _).
  destruct (image_session_last_tick s c id e0 ResizeBr o es e
              (fun e1 => resizedImage
                 (interactionRef (handleInteractionStart id e0 ResizeBr s))
                 ((clientX e1 - clientX e0) / zoom (viewTransform s))
                 ((clientY e1 - clientY e0) / zoom (viewTransform s))))
    as (c2 & z & Hc2 & Hobjs & Hframes); try done.
  - intros c0 e1. unfold sessionTick, moveTick, movedLayers.
    rewrite Hr1, Hv1. cbn [targetId startX startY]. by rewrite HF.
  - intros c0 e1. unfold sessionTick, moveTick, movedLayers.
    rewrite Hr1. cbn [targetId]. by rewrite HF.
  - intros e1 e2 a. apply resizedImage_overrides.
  - exists c2. split; [exact Hc2|]. split; [exact Hframes|].
    rewrite Hobjs. apply Forall2_fmap_r, Forall_Forall2_diag, Forall_forall.
    intros a _. unfold compose, resizedImage. rewrite Hr1.
    cbn [targetId startWidth startHeight].
    destruct (decide (CanvasObject.id a = id)) as [Ha|Ha].
    + cbn. rewrite decide_True by done. cbn.
      repeat split; apply Rmax_l.
    + by rewrite decide_False by done.
Qed.

Lemma image_resize_clamps_each_axis_witness :
  exists c2,
    activeCanvas
      (ticks ([Sample.pointerAt 310 140] ++ [Sample.pointerAt 0 200])
         (handleInteractionStart "img-a" (Sample.pointerAt 300 130) ResizeBr
            (Sample.state ["img-a"] []))) = Some c2
    /\ CanvasState.frames c2 = CanvasState.frames Sample.canvas.
Proof.
  destruct (image_resize_clamps_each_axis (Sample.state ["img-a"] [])
              Sample.canvas "img-a" (Sample.pointerAt 300 130)
              [Sample.pointerAt 310 140] (Sample.pointerAt 0 200) Sample.imageA)
    as (c2 & Hc2 & Hframes & _).
  - reflexivity.
  - reflexivity.
  - reflexivity.
  - discriminate.
  - reflexivity.
  - exists c2. split; [exact Hc2|exact Hframes].
Defined.

(** Rotating an image by its handle: after every [mousemove] its rotation is
    the one at pointer-down plus the angle, seen from the center recorded at
    pointer-down, between the pointer now and the pointer then; a pointer
    back where it went down gives the rotation back; position and size are
    untouched, and so are the other images and the frames. *)
Theorem image_rotation_follows_pointer (s : AppState) (c : CanvasState.t)
    (id : string) (e0 : MouseEvent) (es : list MouseEvent) (e : MouseEvent)
    (o : CanvasObject.t) :
  activeCanvas s = Some c ->
  isFrameId id = false ->
  isNodeId id = false ->
  id <> "" ->
  Js.find (fun o => CanvasObject.id o = id) (CanvasState.objects c) = Some o ->
  let s1 := handleInteractionStart id e0 Rotate s in
  let s2 := ticks (es ++ [e]) s1 in
  let turn :=
    angleFromCenter (interactionRef s1)
      (getCanvasCoordinates s (clientX e) (clientY e))
    - angleFromCenter (interactionRef s1)
        (getCanvasCoordinates s (clientX e0) (clientY e0)) in
  centerCanvasX (interactionRef s1)
    = CanvasObject.x o + CanvasObject.width o / 2
  /\ centerCanvasY (interactionRef s1)
     = CanvasObject.y o + CanvasObject.height o / 2
  /\ (clientX e = clientX e0 -> clientY e = clientY e0 -> turn = 0)
  /\ exists c2,
      activeCanvas s2 = Some c2
      /\ CanvasState.frames c2 = CanvasState.frames c
      /\ Forall2
           (fun o0 o2 =>
              CanvasObject.id o2 = CanvasObject.id o0
              /\ CanvasObject.x o2 = CanvasObject.x o0
              /\ CanvasObject.y o2 = CanvasObject.y o0
              /\ CanvasObject.width o2 = CanvasObject.width o0
              /\ CanvasObject.height o2 = CanvasObject.height o0
              /\ if decide (CanvasObject.id o0 = id)
                 then CanvasObject.rotation o2 = CanvasObject.rotation o + turn
                 else CanvasObject.rotation o2 = CanvasObject.rotation o0)
           (CanvasState.objects c) (CanvasState.objects c2).
Proof.
  intros Hc HF HN Hid Ho. cbv zeta.
  destruct (handleInteractionStart_image s c id e0 Rotate o Hc HF HN Ho)
    as (_ & Hr1 & Hv1 & Hp1 & _).
  set (s1 := handleInteractionStart id e0 Rotate s) in *.
  assert (forall a b, getCanvasCoordinates s1 a b = getCanvasCoordinates s a b)
    as Hgcc by (intros a b; unfold getCanvasCoordinates; by rewrite Hv1, Hp1).
  split; [by rewrite Hr1|]. split; [by rewrite Hr1|].
  split; [intros -> ->; lra|].
  destruct (image_session_last_tick s c id e0 Rotate o es e
              (fun e1 => rotatedImage (interactionRef s1)
                 (getCanvasCoordinates s (clientX e1) (clientY e1))
                 (getCanvasCoordinates s (clientX e0) (clientY e0))))
    as (c2 & z & Hc2 & Hobjs & Hframes); try done.
  - intros c0 e1. unfold sessionTick, moveTick, movedLayers.
    fold s1. rewrite !Hgcc. unfold rotatedImage, angleFromCenter.
    rewrite Hr1. cbn [targetId startX startY]. by rewrite HF, HN.
  - intros c0 e1. unfold sessionTick, moveTick, movedLayers.
    fold s1. rewrite Hr1. cbn [targetId]. by rewrite HF, HN.
  - intros e1 e2 a. apply rotatedImage_overrides.
  - exists c2. split; [exact Hc2|]. split; [exact Hframes|].
    rewrite Hobjs. apply Forall2_fmap_r, Forall_Forall2_diag, Forall_forall.
    intros a _. unfold compose, rotatedImage, angleFromCenter. rewrite Hr1.
    cbn [targetId startRotation centerCanvasX centerCanvasY].
    destruct (decide (CanvasObject.id a = id)) as [Ha|Ha].
    + cbn. rewrite decide_True by done. cbn. by rewrite or_number_zero.
    + by rewrite decide_False by done.
Qed.

Lemma image_rotation_follows_pointer_witness :
  exists c2,
    activeCanvas
      (ticks ([Sample.pointerAt 210 20] ++ [Sample.pointerAt 200 10])
         (handleInteractionStart "img-a" (Sample.pointerAt 200 10) Rotate
            (Sample.state ["img-a"] []))) = Some c2
    /\ CanvasState.frames c2 = CanvasState.frames Sample.canvas.
Proof.
  destruct (image_rotation_follows_pointer (Sample.state ["img-a"] [])
              Sample.canvas "img-a" (Sample.pointerAt 200 10)
              [Sample.pointerAt 210 20] (Sample.pointerAt 200 10) Sample.imageA)
    as (_ & _ & _ & c2 & Hc2 & Hframes & _).
  - reflexivity.
  - reflexivity.
  - reflexivity.
  - discriminate.
  - reflexivity.
  - exists c2. split; [exact Hc2|exact Hframes].
Defined.

Lemma handleInteractionStart_frame_session (s : AppState) (c : CanvasState.t)
    (id : string) (e0 : MouseEvent) (ty : InteractionType) (f : FrameObject.t) :
  activeCanvas s = Some c ->
  isFrameId id = true ->
  Js.find (fun f => FrameObject.id f = id) (CanvasState.frames c) = Some f ->
  interactionRef (handleInteractionStart id e0 ty s)
  = mkInteraction (Some ty) id (clientX e0) (clientY e0)
      (FrameObject.width f) (FrameObject.height f)
      (Target.rotationOr0 (TFrame f)) (Js.or_number (FrameObject.aspectRatio f) 1)
      (FrameObject.x f + FrameObject.width f / 2)
      (FrameObject.y f + FrameObject.height f / 2)
      [id]
      (snapshotPositions
         ([TFrame f] ++
          (TNode <$> filter (fun p => Js.includes [id]
                                        (PromptNodeObject.attachedToId p))
                            (CanvasState.promptNodes c)))).
Proof.
  intros Hc HF Hf. unfold handleInteractionStart.
  rewrite Hc. cbv zeta. rewrite HF, (frame_id_not_node_id id HF), Hf.
  reflexivity.
Qed.

(** Entries under other keys leave the snapshot of a key alone. *)
Lemma snapshotPositions_keeps (l1 l2 : list TargetObject) (k : string) :
  Forall (fun t => Target.id t <> k) l2 ->
  snapshotPositions (l1 ++ l2) !! k = snapshotPositions l1 !! k.
Proof.
  induction l2 as [|t l2 IH] using rev_ind; intros Hall.
  - by rewrite app_nil_r.
  - apply Forall_app in Hall as [Hl2 Ht].
    apply Forall_cons in Ht as [Ht _].
    rewrite app_assoc, snapshotPositions_snoc.
    rewrite lookup_insert_ne; [by apply IH|exact Ht].
Qed.

Lemma movedFrame_overrides r dx dy dx' dy' f :
  movedFrame r dx dy (movedFrame r dx' dy' f) = movedFrame r dx dy f.
Proof.
  unfold movedFrame, moveTarget. cbn.
  destruct (Js.includes (movedObjectIds r) (FrameObject.id f)) eqn:Hinc.
  - destruct (startPositions r !! FrameObject.id f) as [sp|] eqn:E.
    + cbn. change (CanvasObject.id (FrameObject.base f))
        with (FrameObject.id f). by rewrite Hinc, E.
    + by rewrite Hinc, E.
  - by rewrite Hinc.
Qed.

(** A frame moves alone: during a drag started on a frame, every [mousemove]
    puts the frame at its pointer-down position plus the canvas-space
    pointer delta and leaves its size alone; the images, selected or not,
    are not moved, and neither are the other frames. *)
Theorem frame_moves_alone (s : AppState) (c : CanvasState.t) (id : string)
    (e0 : MouseEvent) (es : list MouseEvent) (e : MouseEvent)
    (f0 : FrameObject.t) :
  activeCanvas s = Some c ->
  isFrameId id = true ->
  Js.find (fun f => FrameObject.id f = id) (CanvasState.frames c) = Some f0 ->
  Forall (fun p => PromptNodeObject.id p <> id) (CanvasState.promptNodes c) ->
  let s2 := ticks (es ++ [e]) (handleInteractionStart id e0 Move s) in
  let dx := (clientX e - clientX e0) / zoom (viewTransform s) in
  let dy := (clientY e - clientY e0) / zoom (viewTransform s) in
  exists c2,
    activeCanvas s2 = Some c2
    /\ CanvasState.objects c2 = CanvasState.objects c
    /\ Forall2
         (fun f f2 =>
            FrameObject.id f2 = FrameObject.id f
            /\ FrameObject.width f2 = FrameObject.width f
            /\ FrameObject.height f2 = FrameObject.height f
            /\ FrameObject.aspectRatio f2 = FrameObject.aspectRatio f
            /\ if decide (FrameObject.id f = id)
               then FrameObject.x f2 = FrameObject.x f0 + dx
                    /\ FrameObject.y f2 = FrameObject.y f0 + dy
               else FrameObject.x f2 = FrameObject.x f
                    /\ FrameObject.y f2 = FrameObject.y f)
         (CanvasState.frames c) (CanvasState.frames c2).
Proof.
  intros Hc HF Hf0 Hnodes. cbv zeta.
  destruct (handleInteractionStart_frame s c id e0 Move f0 Hc HF Hf0)
    as (Hc1 & Hty & Htid & _ & _ & _ & Hv1 & _).
  pose proof (handleInteractionStart_frame_session s c id e0 Move f0 Hc HF Hf0)
    as Hr1.
  set (s1 := handleInteractionStart id e0 Move s) in *.
  assert (id <> "") as Hid by (by intros ->).
  destruct (ticks_session (es ++ [e]) s1 (promote id c) Move Hc1)
    as (Hc2 & _); [done|done|by rewrite Htid|].
  eexists. split; [exact Hc2|].
  assert (forall c0 e1,
    CanvasState.objects (sessionTick s1 Move e1 c0) = CanvasState.objects c0)
    as Hobjs.
  { intros c0 e1. unfold sessionTick, moveTick, movedLayers.
    by rewrite Htid, HF. }
  split.
  - assert (forall l c0,
      CanvasState.objects (foldl (fun c e => sessionTick s1 Move e c) c0 l)
        = CanvasState.objects c0) as Hall.
    { induction l as [|e1 l IH] using rev_ind; intros c0; [done|].
      by rewrite foldl_snoc, Hobjs. }
    rewrite Hall. unfold promote. by rewrite HF.
  - set (G := fun e1 : MouseEvent =>
      movedFrame (interactionRef s1)
        ((clientX e1 - startX (interactionRef s1)) / zoom (viewTransform s1))
        ((clientY e1 - startY (interactionRef s1)) / zoom (viewTransform s1))).
    rewrite (foldl_last_wins (fun c e => sessionTick s1 Move e c)
               CanvasState.frames G); cycle 1.
    { intros c0 e1. unfold sessionTick, moveTick, movedLayers.
      by rewrite Htid, HF. }
    { intros e1 e2 a. apply movedFrame_overrides. }
    destruct (promote_frames_frame id c HF) as [z ->].
    rewrite <- list_fmap_compose.
    apply Forall2_fmap_r, Forall_Forall2_diag, Forall_forall.
    intros f _. unfold compose, G, movedFrame. rewrite Hr1, Hv1.
    cbn [movedObjectIds startPositions startX startY].
    set (f' := if decide (FrameObject.id f = id)
               then FrameObject.set_zIndex f z else f).
    assert (FrameObject.id f' = FrameObject.id f
            /\ FrameObject.x f' = FrameObject.x f
            /\ FrameObject.y f' = FrameObject.y f
            /\ FrameObject.width f' = FrameObject.width f
            /\ FrameObject.height f' = FrameObject.height f
            /\ FrameObject.aspectRatio f' = FrameObject.aspectRatio f)
      as (Ei & Ex & Ey & Ew & Eh & Ea)
      by (unfold f'; by destruct (decide (FrameObject.id f = id))).
    rewrite Ei. unfold Js.includes.
    destruct (decide (FrameObject.id f = id)) as [Hfid|Hfid].
    + rewrite bool_decide_eq_true_2 by (rewrite Hfid; by left).
      unfold moveTarget. cbn [idOf withPosition FrameObject_positioned].
      rewrite Ei, Hfid.
      rewrite snapshotPositions_keeps.
      * apply find_Some_elem in Hf0 as [_ Hid0].
        change (snapshotPositions [TFrame f0])
          with (<[FrameObject.id f0 :=
                    mkPoint (FrameObject.x f0) (FrameObject.y f0)]>
                  (∅ : gmap string Point)).
        rewrite Hid0, lookup_insert_eq. cbn. by rewrite <- Hfid.
      * apply Forall_fmap, Forall_forall.
        intros p [_ Hp]%list_elem_of_filter. cbn.
        by apply (proj1 (Forall_forall _ _) Hnodes).
    + rewrite bool_decide_eq_false_2; [done|].
      by intros ?%list_elem_of_singleton.
Qed.

Lemma frame_moves_alone_witness :
  exists c2,
    activeCanvas
      (ticks ([Sample.pointerAt 20 20] ++ [Sample.pointerAt 60 40])
         (handleInteractionStart "format-frame-1" (Sample.pointerAt 10 10) Move
            (Sample.state ["img-a"; "img-b"] []))) = Some c2
    /\ CanvasState.objects c2 = CanvasState.objects Sample.canvas.
Proof.
  destruct (frame_moves_alone (Sample.state ["img-a"; "img-b"] [])
              Sample.canvas "format-frame-1" (Sample.pointerAt 10 10)
              [Sample.pointerAt 20 20] (Sample.pointerAt 60 40) Sample.frame)
    as (c2 & Hc2 & Hobjects & _).
  - reflexivity.
  - reflexivity.
  - reflexivity.
  - repeat constructor; discriminate.
  - exists c2. split; [exact Hc2|exact Hobjects].
Defined.

Lemma insertBy_ext {A} (cmp1 cmp2 : A -> A -> Z) (a : A) (l : list A) :
  (forall u v, cmp1 u v = cmp2 u v) ->
  Js.insertBy cmp1 a l = Js.insertBy cmp2 a l.
Proof.
  intros Hext. induction l as [|b l IH]; [done|]. simpl.
  rewrite Hext, IH. done.
Qed.

Lemma sort_ext {A} (cmp1 cmp2 : A -> A -> Z) (l : list A) :
  (forall u v, cmp1 u v = cmp2 u v) ->
  Js.sort cmp1 l = Js.sort cmp2 l.
Proof.
  intros Hext. induction l as [|a l IH]; [done|]. simpl.
  rewrite IH. by apply insertBy_ext.
Qed.

Lemma sort_descending_Permutation (l : list CanvasObject.t) :
  Js.sort byZIndexDescending l ≡ₚ l.
Proof.
  rewrite (sort_ext byZIndexDescending
             (fun a b => (- CanvasObject.zIndex a - - CanvasObject.zIndex b)%Z))
    by (intros u v; unfold byZIndexDescending; lia).
  apply (sort_Permutation (fun o => (- CanvasObject.zIndex o)%Z)).
Qed.

Lemma StronglySorted_weaken {A} (R1 R2 : A -> A -> Prop) (l : list A) :
  (forall a b, R1 a b -> R2 a b) ->
  StronglySorted R1 l -> StronglySorted R2 l.
Proof.
  intros Himp. induction 1 as [|a l Hl IH Ha]; constructor; [done|].
  eapply Forall_impl; [exact Ha|]. intros b. apply Himp.
Qed.

Lemma sort_descending_sorted (l : list CanvasObject.t) :
  StronglySorted
    (fun a b => (CanvasObject.zIndex b <= CanvasObject.zIndex a)%Z)
    (Js.sort byZIndexDescending l).
Proof.
  rewrite (sort_ext byZIndexDescending
             (fun a b => (- CanvasObject.zIndex a - - CanvasObject.zIndex b)%Z))
    by (intros u v; unfold byZIndexDescending; lia).
  eapply StronglySorted_weaken;
    [|apply (sort_sorted (fun o => (- CanvasObject.zIndex o)%Z))].
  intros a b. simpl. lia.
Qed.

(** The descending sort puts an image of greatest zIndex first. *)
Lemma sort_descending_head (l : list CanvasObject.t) (top : CanvasObject.t)
    (rest : list CanvasObject.t) :
  Js.sort byZIndexDescending l = top :: rest ->
  top ∈ l
  /\ forall o, o ∈ l -> (CanvasObject.zIndex o <= CanvasObject.zIndex top)%Z.
Proof.
  intros Hsort.
  pose proof (sort_descending_Permutation l) as Hperm.
  pose proof (sort_descending_sorted l) as Hsorted.
  rewrite Hsort in Hperm, Hsorted.
  split.
  - rewrite <- Hperm. by left.
  - intros o Ho. rewrite <- Hperm in Ho.
    apply StronglySorted_inv in Hsorted as [_ Hall].
    apply elem_of_cons in Ho as [->|Ho]; [lia|].
    by apply (proj1 (Forall_forall _ _) Hall o).
Qed.

(** A pointer-down that lands on a frame goes to the topmost image under the
    cursor, the rotation of the images taken into account, and to the frame
    only when no image is under the cursor. *)
Theorem frame_click_prefers_top_image (frameId : string) (e : MouseEvent)
    (s : AppState) (c : CanvasState.t) :
  activeCanvas s = Some c ->
  let p := getCanvasCoordinates s (clientX e) (clientY e) in
  (exists top,
      top ∈ CanvasState.objects c
      /\ isPointInRotatedRect p (rectOf top) = true
      /\ (forall o, o ∈ CanvasState.objects c ->
            isPointInRotatedRect p (rectOf o) = true ->
            (CanvasObject.zIndex o <= CanvasObject.zIndex top)%Z)
      /\ handleFrameMouseDown frameId e s
         = handleInteractionStart (CanvasObject.id top) e Move s)
  \/ ((forall o, o ∈ CanvasState.objects c ->
         isPointInRotatedRect p (rectOf o) = false)
      /\ handleFrameMouseDown frameId e s
         = handleInteractionStart frameId e Move s).
Proof.
  intros Hc. cbv zeta. unfold handleFrameMouseDown. rewrite Hc. cbv zeta.
  set (p := getCanvasCoordinates s (clientX e) (clientY e)).
  set (hits := filter (fun obj => isPointInRotatedRect p (rectOf obj))
                      (CanvasState.objects c)).
  destruct (Js.sort byZIndexDescending hits) as [|top rest] eqn:Hsort.
  - right. split; [|done]. intros o Ho.
    destruct (isPointInRotatedRect p (rectOf o)) eqn:Hhit; [|done].
    assert (o ∈ hits) as Hin
      by (apply list_elem_of_filter; split; [by rewrite Hhit|done]).
    pose proof (sort_descending_Permutation hits) as Hperm.
    rewrite Hsort in Hperm. apply Permutation_nil_l in Hperm.
    rewrite <- Hperm in Hin. by apply elem_of_nil in Hin.
  - left. exists top.
    apply sort_descending_head in Hsort as [Hin Hmax].
    apply list_elem_of_filter in Hin as [Hhit Hin].
    split; [done|]. split; [by apply Is_true_true|]. split; [|done].
    intros o Ho Hhito. apply Hmax, list_elem_of_filter.
    split; [by rewrite Hhito|done].
Qed.

Lemma frame_click_prefers_top_image_witness :
  handleFrameMouseDown "format-frame-1" (Sample.pointerAt 1000 1000)
    (Sample.state [] [])
  = handleInteractionStart "format-frame-1" (Sample.pointerAt 1000 1000) Move
      (Sample.state [] [])
  \/ exists top,
       top ∈ CanvasState.objects Sample.canvas
       /\ handleFrameMouseDown "format-frame-1" (Sample.pointerAt 1000 1000)
            (Sample.state [] [])
          = handleInteractionStart (CanvasObject.id top)
              (Sample.pointerAt 1000 1000) Move (Sample.state [] []).
Proof.
  destruct (frame_click_prefers_top_image "format-frame-1"
              (Sample.pointerAt 1000 1000) (Sample.state [] []) Sample.canvas
              eq_refl) as [(top & Hin & _ & _ & Heq) | [_ Heq]].
  - right. exists top. split; [exact Hin|exact Heq].
  - left. exact Heq.
Defined.

Lemma onActiveCanvas_other (s : AppState) (f : CanvasState.t -> CanvasState.t)
    (l : list CanvasState.t) (i : nat) (c0 : CanvasState.t) :
  l !! i = Some c0 ->
  Some (CanvasState.id c0) <> activeCanvasId s ->
  onActiveCanvas s f l !! i = Some c0.
Proof.
  intros Hi Hne. unfold onActiveCanvas.
  rewrite list_lookup_fmap, Hi. cbn. by rewrite decide_False.
Qed.

Lemma handleMouseMove_canvases (e : MouseEvent) (s : AppState) :
  activeCanvasId (handleMouseMove e s) = activeCanvasId s
  /\ (canvases (handleMouseMove e s) = canvases s
      \/ exists f, canvases (handleMouseMove e s)
                   = onActiveCanvas s f (canvases s)).
Proof.
  unfold handleMouseMove.
  destruct (activeCanvas s); [|by split; [|left]].
  destruct (type (interactionRef s)) as [[]|]; cbv zeta;
    try (by split; [|left]);
    (case_bool_decide; [by split; [|left]|split; [done|right; by eexists]]).
Qed.

(** A drag works on the active canvas only: through a pointer-down and any
    run of [mousemove]s the other canvases are the same, at the same places
    of the list, and the active canvas is still the active one. *)
Theorem drag_leaves_other_canvases (s : AppState) (id : string)
    (e0 : MouseEvent) (ty : InteractionType) (es : list MouseEvent)
    (i : nat) (c0 : CanvasState.t) :
  canvases s !! i = Some c0 ->
  Some (CanvasState.id c0) <> activeCanvasId s ->
  let s2 := ticks es (handleInteractionStart id e0 ty s) in
  canvases s2 !! i = Some c0
  /\ activeCanvasId s2 = activeCanvasId s
  /\ length (canvases s2) = length (canvases s).
Proof.
  intros Hi Hne. cbv zeta.
  set (s1 := handleInteractionStart id e0 ty s).
  assert (canvases s1 !! i = Some c0
          /\ activeCanvasId s1 = activeCanvasId s
          /\ length (canvases s1) = length (canvases s)) as H1.
  { unfold s1, handleInteractionStart.
    destruct (activeCanvas s); [|done]. cbv zeta.
    destruct (if isFrameId id then _ else _); [|done].
    destruct (isNodeId id && bool_decide (ty = Move)); [done|].
    cbn [canvases setCanvases activeCanvasId setInteraction
         setSelectedObjectIds].
    split; [by apply onActiveCanvas_other|]. split; [done|].
    unfold onActiveCanvas. by rewrite length_fmap. }
  unfold ticks. induction es as [|e es IH] using rev_ind; [exact H1|].
  rewrite foldl_snoc. destruct IH as (IHi & IHa & IHl).
  destruct (handleMouseMove_canvases e (foldl (fun s e => handleMouseMove e s) s1 es))
    as [Ha [Hsame | [f Hf]]].
  - rewrite Hsame, Ha. done.
  - rewrite Hf, Ha. split; [|split; [done|]].
    + apply onActiveCanvas_other; [done|by rewrite IHa].
    + unfold onActiveCanvas. by rewrite length_fmap.
Qed.

Lemma drag_leaves_other_canvases_witness :
  let other := CanvasState.mk "canvas-2" "Project 2" [Sample.imageA] [] [] in
  let s := setCanvases (fun prev => prev ++ [other]) (Sample.state [] []) in
  canvases (ticks [Sample.pointerAt 190 100]
              (handleInteractionStart "img-a" (Sample.pointerAt 150 80) Move s))
    !! 1%nat = Some other.
Proof.
  cbv zeta.
  apply (drag_leaves_other_canvases
           (setCanvases
              (fun prev => prev ++ [CanvasState.mk "canvas-2" "Project 2"
                                      [Sample.imageA] [] []])
              (Sample.state [] []))
           "img-a" (Sample.pointerAt 150 80) Move [Sample.pointerAt 190 100]
           1%nat).
  - reflexivity.
  - discriminate.
Defined.

End SessionFacts.

(** *** Prompt nodes: attachment and text *)

Section PromptNodeFacts.

Lemma some_false_iff {A} (P : A -> Prop) `{!forall a, Decision (P a)}
    (l : list A) :
  Js.some P l = false <-> forall a, a ∈ l -> ~ P a.
Proof.
  unfold Js.some. rewrite bool_decide_eq_false, <- Forall_Exists_neg,
    Forall_forall. done.
Qed.

Lemma find_Some_is_Some_findParent objects frames id (o : CanvasObject.t) :
  Js.find (fun o => CanvasObject.id o = id) objects = Some o ->
  is_Some (findParent objects frames id).
Proof. intros Ho. unfold findParent. rewrite Ho. by eexists. Qed.

Lemma find_frame_is_Some_findParent objects frames id (f : FrameObject.t) :
  Js.find (fun f => FrameObject.id f = id) frames = Some f ->
  is_Some (findParent objects frames id).
Proof.
  intros Hf. unfold findParent.
  destruct (Js.find _ objects); [by eexists|]. rewrite Hf. by eexists.
Qed.

(** Adding a prompt node keeps the canvas well formed: no parent gets a
    second node, every node is still attached to a live image or frame, the
    nodes that were there are kept in place, and images and frames are not
    touched; a refused request changes nothing in the canvas. *)
Theorem handleAddPromptNode_keeps_one_node_per_parent (uuid : string)
    (s : AppState) (c : CanvasState.t) :
  activeCanvas s = Some c ->
  oneNodePerParent c ->
  attachmentsResolve c ->
  exists c',
    activeCanvas (handleAddPromptNode uuid s) = Some c'
    /\ oneNodePerParent c'
    /\ attachmentsResolve c'
    /\ CanvasState.objects c' = CanvasState.objects c
    /\ CanvasState.frames c' = CanvasState.frames c
    /\ (CanvasState.promptNodes c' = CanvasState.promptNodes c
        \/ exists node,
             CanvasState.promptNodes c' = CanvasState.promptNodes c ++ [node]
             /\ selectedObjectIds s = [PromptNodeObject.attachedToId node]).
Proof.
  intros Hc Hone Hres. unfold handleAddPromptNode. rewrite Hc.
  destruct (selectedObjectIds s) as [|parentId [|]];
    try (exists c; repeat split; try done; by left).
  cbv zeta.
  set (found := if Js.startsWith parentId "format-frame-" then _ else _).
  destruct found as [parent|] eqn:Hparent;
    [|exists c; repeat split; try done; by left].
  destruct (Js.some _ _) eqn:Htaken;
    [exists c; repeat split; try done; by left|].
  assert (CanvasObject.id parent = parentId
          /\ is_Some (findParent (CanvasState.objects c) (CanvasState.frames c)
                        parentId)) as [Hpid Hlive].
  { unfold found in Hparent.
    destruct (Js.startsWith parentId "format-frame-").
    - destruct (Js.find _ (CanvasState.frames c)) as [f|] eqn:Hf; [|done].
      injection Hparent as <-. split.
      + by apply find_Some_elem in Hf as [_ ?].
      + by eapply find_frame_is_Some_findParent.
    - split.
      + by apply find_Some_elem in Hparent as [_ ?].
      + by eapply find_Some_is_Some_findParent. }
  eexists. split; [by apply activeCanvas_onActiveCanvas|].
  unfold mapPromptNodes.
  cbn [CanvasState.promptNodes CanvasState.objects CanvasState.frames].
  split; [|split; [|split; [done|split; [done|]]]].
  - unfold oneNodePerParent in *. cbn [CanvasState.promptNodes].
    rewrite fmap_app. apply NoDup_app. split; [done|]. split.
    + intros a Ha [->|[]%elem_of_nil]%elem_of_cons.
      apply list_elem_of_fmap in Ha as (p & Hp & Hin).
      rewrite some_false_iff in Htaken. apply (Htaken p Hin).
      cbn in Hp. congruence.
    + apply NoDup_singleton.
  - unfold attachmentsResolve in *. cbn [CanvasState.promptNodes
      CanvasState.objects CanvasState.frames].
    apply Forall_app. split; [done|]. apply Forall_singleton. cbn.
    by rewrite Hpid.
  - right. eexists. split; [done|]. cbn. by rewrite Hpid.
Qed.

Lemma handleAddPromptNode_keeps_one_node_per_parent_witness :
  exists c',
    activeCanvas (handleAddPromptNode "u1" (Sample.state ["format-frame-1"] []))
      = Some c'
    /\ oneNodePerParent c'
    /\ attachmentsResolve c'.
Proof.
  destruct (handleAddPromptNode_keeps_one_node_per_parent "u1"
              (Sample.state ["format-frame-1"] []) Sample.canvas)
    as (c' & Hc' & Hone & Hres & _).
  - reflexivity.
  - apply (bool_decide_unpack _). vm_compute. exact I.
  - unfold attachmentsResolve. repeat constructor; by eexists.
  - exists c'. split; [exact Hc'|]. split; [exact Hone|exact Hres].
Defined.

Lemma some_true_intro {A} (P : A -> Prop) `{!forall a, Decision (P a)}
    (l : list A) (a : A) :
  a ∈ l -> P a -> Js.some P l = true.
Proof.
  intros Ha HP. unfold Js.some. apply bool_decide_eq_true.
  apply Exists_exists. by exists a.
Qed.

Lemma filter_detached_snoc (parentId : string)
    (nodes : list PromptNodeObject.t) (node : PromptNodeObject.t) :
  Js.some (fun p => PromptNodeObject.attachedToId p = parentId) nodes = false ->
  PromptNodeObject.attachedToId node = parentId ->
  filter (fun p => PromptNodeObject.attachedToId p <> parentId)
         (nodes ++ [node]) = nodes.
Proof.
  intros Hfree Hnode. rewrite some_false_iff in Hfree.
  rewrite filter_app, filter_cons, filter_nil.
  destruct (decide (PromptNodeObject.attachedToId node <> parentId)); [done|].
  rewrite app_nil_r. induction nodes as [|p nodes IH]; [done|].
  rewrite filter_cons. destruct (decide _) as [|Hp].
  - f_equal. apply IH. intros a Ha. apply Hfree. by right.
  - destruct Hp. apply Hfree. by left.
Qed.

(** Adding a prompt node to the selected image or frame and then removing
    the prompt node of the selection gives back the active canvas as it
    was: the removal filters on [attachedToId], which the added node takes
    from the parent that was found under the selected id. *)
Theorem add_then_remove_prompt_node_restores_canvas (uuid : string)
    (s : AppState) (c : CanvasState.t) (parentId : string) :
  activeCanvas s = Some c ->
  selectedObjectIds s = [parentId] ->
  is_Some (if isFrameId parentId
           then FrameObject.base <$>
                  Js.find (fun f => FrameObject.id f = parentId)
                          (CanvasState.frames c)
           else Js.find (fun o => CanvasObject.id o = parentId)
                        (CanvasState.objects c)) ->
  Js.some (fun p => PromptNodeObject.attachedToId p = parentId)
          (CanvasState.promptNodes c) = false ->
  exists c1,
    activeCanvas (handleAddPromptNode uuid s) = Some c1
    /\ length (CanvasState.promptNodes c1)
       = S (length (CanvasState.promptNodes c))
    /\ activeCanvas
         (handleRemovePromptNodeForSelected (handleAddPromptNode uuid s))
       = Some c.
Proof.
  intros Hc Hsel [parent Hparent] Hfree.
  assert (CanvasObject.id parent = parentId) as Hpid.
  { destruct (isFrameId parentId).
    - destruct (Js.find _ (CanvasState.frames c)) as [f|] eqn:Hf; [|done].
      injection Hparent as <-. by apply find_Some_elem in Hf as [_ ?].
    - by apply find_Some_elem in Hparent as [_ ?]. }
  unfold handleAddPromptNode. rewrite Hc, Hsel. cbv zeta.
  unfold isFrameId in Hparent. rewrite Hparent, Hfree.
  set (newNode := PromptNodeObject.mk _ _ _ _ _ _ _ _).
  set (s1 := setCanvases _ s).
  assert (activeCanvas s1
          = Some (mapPromptNodes (fun nodes => nodes ++ [newNode]) c)) as Hc1
    by by apply activeCanvas_onActiveCanvas.
  eexists. split; [exact Hc1|]. split.
  { unfold mapPromptNodes. cbn [CanvasState.promptNodes].
    rewrite length_app. cbn. lia. }
  unfold handleRemovePromptNodeForSelected. rewrite Hc1.
  change (selectedObjectIds s1) with (selectedObjectIds s). rewrite Hsel.
  cbv zeta.
  rewrite (some_true_intro _ _ newNode).
  - cbn [negb].
    match goal with
    | |- activeCanvas (setSelectedObjectIds _ ?s2) = _ =>
        change (activeCanvas s2 = Some c)
    end.
    erewrite activeCanvas_onActiveCanvas; [|done|done|done|exact Hc1].
    f_equal. destruct c as [cid name objects frames nodes].
    unfold mapPromptNodes in *.
    cbn [CanvasState.promptNodes CanvasState.objects CanvasState.frames
         CanvasState.id CanvasState.name] in *.
    f_equal. by apply filter_detached_snoc.
  - unfold mapPromptNodes. cbn [CanvasState.promptNodes].
    apply elem_of_app. right. by left.
  - done.
Qed.

Lemma add_then_remove_prompt_node_restores_canvas_witness :
  activeCanvas
    (handleRemovePromptNodeForSelected
       (handleAddPromptNode "u1" (Sample.state ["format-frame-1"] [])))
  = Some Sample.canvas.
Proof.
  refine (let '(ex_intro _ _ (conj _ (conj _ H))) :=
            add_then_remove_prompt_node_restores_canvas "u1"
              (Sample.state ["format-frame-1"] []) Sample.canvas
              "format-frame-1" _ _ _ _ in H).
  - reflexivity.
  - reflexivity.
  - vm_compute. by eexists.
  - apply bool_decide_eq_false. vm_compute.
    intros H. apply Exists_exists in H as (p & Hp & Hat).
    repeat (apply elem_of_cons in Hp as [->|Hp]; [discriminate Hat|]).
    by apply elem_of_nil in Hp.
Defined.

Lemma writeNodePrompt_active (nodeId text : string) (s : AppState)
    (c : CanvasState.t) :
  activeCanvas s = Some c ->
  activeCanvas (writeNodePrompt nodeId text s)
  = Some (mapPromptNodes
            (fmap (fun p => if decide (PromptNodeObject.id p = nodeId)
                            then set_prompt p text else p)) c).
Proof. intros Hc. by apply activeCanvas_onActiveCanvas. Qed.

Lemma find_written_node (nodeId text : string)
    (nodes : list PromptNodeObject.t) :
  Js.find (fun p => PromptNodeObject.id p = nodeId)
    ((fun p => if decide (PromptNodeObject.id p = nodeId)
               then set_prompt p text else p) <$> nodes)
  = (fun p => set_prompt p text)
      <$> Js.find (fun p => PromptNodeObject.id p = nodeId) nodes.
Proof.
  induction nodes as [|p nodes IH]; [done|].
  rewrite fmap_cons, !find_cons, IH.
  destruct (decide (PromptNodeObject.id p = nodeId)) as [Hp|Hp].
  - by rewrite decide_True.
  - by rewrite decide_False.
Qed.

Lemma selectedNodeId_setCanvases f s :
  selectedNodeId (setCanvases f s) = selectedNodeId s.
Proof. done. Qed.

(** Typing in the prompt box while a prompt node of the active canvas is
    selected stores the text in that node and in no other: every node keeps
    its id, parent, geometry and layer, the nodes of another id keep their
    text, images and frames are untouched, and the effect that reloads the
    box from the selected node then shows the typed text again. *)
Theorem prompt_change_is_stored_in_selected_node (newPromptValue : string)
    (s : AppState) (c : CanvasState.t) (nodeId : string)
    (node : PromptNodeObject.t) :
  activeCanvas s = Some c ->
  selectedObjectIds s = [nodeId] ->
  isNodeId nodeId = true ->
  Js.find (fun p => PromptNodeObject.id p = nodeId) (CanvasState.promptNodes c)
    = Some node ->
  exists c',
    activeCanvas (handlePromptChange newPromptValue s) = Some c'
    /\ CanvasState.objects c' = CanvasState.objects c
    /\ CanvasState.frames c' = CanvasState.frames c
    /\ Forall2
         (fun p p' =>
            set_prompt p' (PromptNodeObject.prompt p) = p
            /\ PromptNodeObject.prompt p'
               = if decide (PromptNodeObject.id p = nodeId)
                 then newPromptValue else PromptNodeObject.prompt p)
         (CanvasState.promptNodes c) (CanvasState.promptNodes c')
    /\ Js.find (fun p => PromptNodeObject.id p = nodeId)
               (CanvasState.promptNodes c')
       = Some (set_prompt node newPromptValue)
    /\ prompt (syncPromptEffect (handlePromptChange newPromptValue s))
       = newPromptValue.
Proof.
  intros Hc Hsel Hnode Hfind.
  assert (selectedNodeId s = Some nodeId) as Hid.
  { unfold selectedNodeId. by rewrite Hsel, Hnode. }
  unfold handlePromptChange. cbv zeta. rewrite Hid.
  pose proof (writeNodePrompt_active nodeId newPromptValue
                (setPrompt newPromptValue s) c Hc) as Hc'.
  eexists. split; [exact Hc'|].
  unfold mapPromptNodes.
  cbn [CanvasState.promptNodes CanvasState.objects CanvasState.frames].
  split; [done|]. split; [done|]. split; [|split].
  - apply Forall2_fmap_r, Forall_Forall2_diag, Forall_forall.
    intros [pid att px py pw ph pz pt] _. cbn.
    by destruct (decide (pid = nodeId)).
  - by rewrite find_written_node, Hfind.
  - unfold syncPromptEffect. rewrite Hc'.
    change (selectedNodeId (writeNodePrompt nodeId newPromptValue
                              (setPrompt newPromptValue s)))
      with (selectedNodeId s).
    rewrite Hid. unfold mapPromptNodes. cbn [CanvasState.promptNodes].
    by rewrite find_written_node, Hfind.
Qed.

Lemma prompt_change_is_stored_in_selected_node_witness :
  prompt (syncPromptEffect
            (handlePromptChange "a red car"
               (Sample.state ["prompt-node-b"] [])))
  = "a red car".
Proof.
  refine (let '(ex_intro _ _ (conj _ (conj _ (conj _ (conj _ (conj _ H)))))) :=
            prompt_change_is_stored_in_selected_node "a red car"
              (Sample.state ["prompt-node-b"] []) Sample.canvas
              "prompt-node-b" Sample.nodeB _ _ _ _ in H);
    reflexivity.
Defined.

(** Clearing the prompt empties the prompt box on every path once the
    reloading effect has run: with a prompt node selected the node's text is
    emptied (or the node is missing) and the effect loads the empty text;
    without one the box is emptied at once. *)
Theorem clear_prompt_empties_prompt_box (s : AppState) (c : CanvasState.t) :
  activeCanvas s = Some c ->
  prompt (syncPromptEffect (handleClearPrompt s)) = ""
  /\ (selectedNodeId s = None -> prompt (handleClearPrompt s) = "")
  /\ (forall nodeId node,
        selectedNodeId s = Some nodeId ->
        Js.find (fun p => PromptNodeObject.id p = nodeId)
                (CanvasState.promptNodes c) = Some node ->
        exists c',
          activeCanvas (handleClearPrompt s) = Some c'
          /\ Js.find (fun p => PromptNodeObject.id p = nodeId)
                     (CanvasState.promptNodes c')
             = Some (set_prompt node "")).
Proof.
  intros Hc. unfold handleClearPrompt.
  destruct (selectedNodeId s) as [nodeId|] eqn:Hid.
  - pose proof (writeNodePrompt_active nodeId "" s c Hc) as Hc'.
    split; [|split; [done|]].
    + unfold syncPromptEffect. rewrite Hc'.
      change (selectedNodeId (writeNodePrompt nodeId "" s))
        with (selectedNodeId s).
      rewrite Hid. unfold mapPromptNodes. cbn [CanvasState.promptNodes].
      rewrite find_written_node.
      by destruct (Js.find _ (CanvasState.promptNodes c)).
    + intros ? node [= <-] Hfind. eexists. split; [exact Hc'|].
      unfold mapPromptNodes. cbn [CanvasState.promptNodes].
      by rewrite find_written_node, Hfind.
  - split; [|split; [done|done]].
    unfold syncPromptEffect.
    change (activeCanvas (setPrompt "" s)) with (activeCanvas s).
    change (selectedNodeId (setPrompt "" s)) with (selectedNodeId s).
    by rewrite Hc, Hid.
Qed.

Lemma clear_prompt_empties_prompt_box_witness :
  prompt (syncPromptEffect
            (handleClearPrompt (Sample.state ["prompt-node-a"] []))) = "".
Proof.
  exact (proj1 (clear_prompt_empties_prompt_box
                  (Sample.state ["prompt-node-a"] []) Sample.canvas
                  eq_refl)).
Defined.

End PromptNodeFacts.

(** *** Jobs: the cap, the counters and the settlement *)

Section JobFacts.

(** What a submission does to the state, accepted or not. *)
Lemma submission_effect (s : AppState) (ev : JobEvent) (j : string) :
  submittedId ev = Some j ->
  canvases (jobStep s ev) = canvases s
  /\ selectedObjectIds (jobStep s ev) = selectedObjectIds s
  /\ (activeCombinedJobs (jobStep s ev) = activeCombinedJobs s
      \/ (length (activeCombinedJobs s) < MAX_CONCURRENT_JOBS)%nat
         /\ error (jobStep s ev) = None
         /\ exists provider,
              activeCombinedJobs (jobStep s ev)
                = activeCombinedJobs s ++ [mkJob j provider]
              /\ apiCallCounts (jobStep s ev)
                 = countCall provider (apiCallCounts s)).
Proof.
  destruct ev as [objectId targetApi jobId|objectId jobId|jobId|]; [| | |done];
    intros [= ->]; cbn [jobStep].
  - unfold handleSendObjectToApi.
    destruct (activeCanvas s) as [ac|]; [|by auto].
    case_bool_decide as Hcap; [by auto|]. cbv zeta.
    destruct (if isFrameId objectId then _ else _) as [original|]; [|by auto].
    destruct (match original with TFrame _ => _ | _ => false end); [by auto|].
    destruct (Js.trimsToEmpty _); [by auto|].
    destruct (apiKeyOf s _); [|by auto].
    cbn. split; [done|]. split; [done|]. right.
    split; [lia|]. split; [done|]. by exists targetApi.
  - unfold handleUpscaleSingleImage.
    destruct (activeCanvas s) as [ac|]; [|by auto].
    destruct (apiKeyOf s _); [|by auto].
    case_bool_decide as Hcap; [by auto|]. cbv zeta.
    destruct (Js.find _ _); [|by auto].
    cbn. split; [done|]. split; [done|]. right.
    split; [lia|]. split; [done|]. by exists SD.
  - unfold handleGenerateTextToImage.
    destruct (apiKeyOf s _); [|by auto].
    destruct (Js.trimsToEmpty _); [by auto|].
    case_bool_decide as Hcap; [by auto|].
    cbn. split; [done|]. split; [done|]. right.
    split; [lia|]. split; [done|]. by exists SD.
Qed.

Lemma jobStep_keeps_cap (s : AppState) (ev : JobEvent) :
  (length (activeCombinedJobs s) <= MAX_CONCURRENT_JOBS)%nat ->
  (length (activeCombinedJobs (jobStep s ev)) <= MAX_CONCURRENT_JOBS)%nat
  /\ canvases (jobStep s ev) = canvases s.
Proof.
  intros Hle. destruct (submittedId ev) as [j|] eqn:Hev.
  - destruct (submission_effect s ev j Hev) as (Hc & _ & [->|(Hlt & _ & p & -> & _)]).
    + done.
    + split; [|done]. rewrite length_app. cbn. lia.
  - destruct ev as [| | |jobId failure]; try done. cbn [jobStep].
    unfold settleJob. split.
    + destruct failure; cbn; etrans; (try apply length_filter); done.
    + by destruct failure.
Qed.

(** The cap of ten active jobs is an invariant of the application: through
    any run of submissions (edit, upscale, text to image) and settlements,
    each handled in the render after the one before, no more than ten jobs
    are ever active, and none of these events touches a canvas. *)
Theorem active_jobs_never_exceed_cap (evs : list JobEvent) (s : AppState) :
  (length (activeCombinedJobs s) <= MAX_CONCURRENT_JOBS)%nat ->
  (length (activeCombinedJobs (jobRun evs s)) <= MAX_CONCURRENT_JOBS)%nat
  /\ canvases (jobRun evs s) = canvases s.
Proof.
  unfold jobRun. revert s. induction evs as [|ev evs IH]; intros s Hle.
  - done.
  - cbn [foldl]. destruct (jobStep_keeps_cap s ev Hle) as [Hle' Hc].
    destruct (IH _ Hle') as [? ?]. split; [done|congruence].
Qed.

Lemma active_jobs_never_exceed_cap_witness :
  (length (activeCombinedJobs
     (jobRun [Generate "j-1"; SendObject "img-a" NB "j-2"; Generate "j-3";
              Settle "j-2" (Some "AI returned a result with no images.")]
        (Sample.state [] (take 9 Sample.tenJobs)))) <= MAX_CONCURRENT_JOBS)%nat.
Proof.
  refine (proj1 (active_jobs_never_exceed_cap _ _ _)).
  vm_compute. lia.
Defined.

(** The [finally] of a job undoes its registration: settling the job whose
    id a submission drew, when no other active job has that id, gives back
    the active jobs of before the submission, whether the submission was
    accepted or refused, and a failure leaves its message as the error. *)
Theorem settle_undoes_submission (s : AppState) (ev : JobEvent) (j : string)
    (failure : option string) :
  submittedId ev = Some j ->
  Forall (fun job => jobId job <> j) (activeCombinedJobs s) ->
  activeCombinedJobs (jobStep (jobStep s ev) (Settle j failure))
    = activeCombinedJobs s
  /\ (forall msg, failure = Some msg ->
        error (jobStep (jobStep s ev) (Settle j failure)) = Some msg)
  /\ canvases (jobStep (jobStep s ev) (Settle j failure)) = canvases s.
Proof.
  intros Hev Hfresh.
  assert (filter (fun job => jobId job <> j) (activeCombinedJobs s)
          = activeCombinedJobs s) as Hkeep.
  { induction Hfresh as [|job l Hj _ IH]; [done|].
    by rewrite filter_cons, decide_True, IH. }
  destruct (submission_effect s ev j Hev) as (Hc & _ & Hjobs).
  cbn [jobStep]. unfold settleJob. split; [|split].
  - destruct failure; cbn [activeCombinedJobs setActiveCombinedJobs setError];
      (destruct Hjobs as [->|(_ & _ & p & -> & _)];
       [done|rewrite filter_app, Hkeep, filter_cons, decide_False, filter_nil;
             [apply app_nil_r|cbn; by intros H; apply H]]).
  - by intros msg ->.
  - by destruct failure.
Qed.

Lemma settle_undoes_submission_witness :
  activeCombinedJobs
    (jobStep (jobStep (Sample.state [] (take 3 Sample.tenJobs))
                (Generate "j-new"))
       (Settle "j-new" None))
  = take 3 Sample.tenJobs.
Proof.
  refine (proj1 (settle_undoes_submission _ (Generate "j-new") "j-new" None
                   eq_refl _)).
  vm_compute. repeat constructor; discriminate.
Defined.

(** An edit job is started only with everything it needs: a source that is
    an image or a frame of the active canvas with the id asked for, a
    prompt that is not blank, taken from the prompt node attached to the
    source when there is one and from the prompt box otherwise, the key of
    the provider asked for, and, for a frame, no image in the frame box
    that has a prompt node of its own. *)
Theorem started_edit_has_prompt_and_key (objectId : string)
    (targetApi : Provider) (jobId : string) (s s' : AppState) (job : Job)
    (source : TargetObject) (apiPrompt apiKey : string) :
  handleSendObjectToApi objectId targetApi jobId s
    = (s', Some (StartedEdit job source apiPrompt apiKey)) ->
  exists ac,
    activeCanvas s = Some ac
    /\ job = mkJob jobId targetApi
    /\ match source with
       | TImage o => o ∈ CanvasState.objects ac /\ CanvasObject.id o = objectId
       | TFrame f =>
           f ∈ CanvasState.frames ac /\ FrameObject.id f = objectId
           /\ forall o node,
                o ∈ CanvasState.objects ac -> overlapsFrame f o ->
                node ∈ CanvasState.promptNodes ac ->
                PromptNodeObject.attachedToId node <> CanvasObject.id o
       | TNode _ => False
       end
    /\ Js.trimsToEmpty apiPrompt = false
    /\ apiPrompt <> ""
    /\ apiPrompt
       = from_option PromptNodeObject.prompt (prompt s)
           (Js.find (fun p => PromptNodeObject.attachedToId p = objectId)
                    (CanvasState.promptNodes ac))
    /\ apiKey <> ""
    /\ apiConfigs s !! (match targetApi with NB => "gemini" | SD => "seadream" end)
       = Some apiKey.
Proof.
  unfold handleSendObjectToApi.
  destruct (activeCanvas s) as [ac|]; [|done].
  case_bool_decide as Hcap; [done|]. cbv zeta.
  destruct (if isFrameId objectId then _ else _) as [original|] eqn:Horig;
    [|done].
  destruct (match original with TFrame _ => _ | _ => false end) eqn:Hnested;
    [done|].
  destruct (Js.trimsToEmpty _) eqn:Hblank; [done|].
  destruct (apiKeyOf s _) as [key|] eqn:Hkey; [|done].
  intros [= <- <- <- <- <-]. exists ac. split; [done|]. split; [done|].
  split; [|split; [|split; [|split; [|split]]]].
  - destruct (isFrameId objectId).
    + destruct (Js.find _ (CanvasState.frames ac)) as [f|] eqn:Hf; [|done].
      injection Horig as <-. apply find_Some_elem in Hf as [Hin Hid].
      split; [done|]. split; [done|]. intros o node Ho Hover Hn Hatt.
      apply not_true_iff_false in Hnested. apply Hnested.
      apply (some_true_intro _ _ node); [done|].
      unfold Js.includes. apply bool_decide_pack. rewrite Hatt.
      apply list_elem_of_fmap_2. by apply list_elem_of_filter.
    + destruct (Js.find _ (CanvasState.objects ac)) as [o|] eqn:Ho; [|done].
      injection Horig as <-. by apply find_Some_elem in Ho as [Hin Hid].
  - by destruct (Js.find _ (CanvasState.promptNodes ac)).
  - intros Hempty. destruct (Js.find _ (CanvasState.promptNodes ac));
      cbn in Hblank; by rewrite Hempty in Hblank.
  - by destruct (Js.find _ (CanvasState.promptNodes ac)).
  - unfold apiKeyOf in Hkey. destruct (apiConfigs s !! _); [|done].
    case_bool_decide; [done|]. by injection Hkey as <-.
  - unfold apiKeyOf in Hkey. destruct (apiConfigs s !! _); [|done].
    case_bool_decide; [done|]. by injection Hkey as <-.
Qed.

Lemma started_edit_has_prompt_and_key_witness :
  exists ac,
    activeCanvas (Sample.state [] []) = Some ac
    /\ mkJob "j-1" NB = mkJob "j-1" NB.
Proof.
  destruct (started_edit_has_prompt_and_key "img-a" NB "j-1"
              (Sample.state [] []) _ _ _ _ _ eq_refl)
    as (ac & Hac & Hjob & _).
  exists ac. split; [exact Hac|exact Hjob].
Defined.

End JobFacts.

(** *** New objects: results, format frames, captures *)

Section NewObjectFacts.

(** The zIndex that the source gives to a new object of a band is above
    that of every object of the band. *)
Lemma next_zIndex_above {A} (z : A -> Z) (l : list A) (base : Z) :
  Forall (fun a => (z a < match l with
                          | [] => base
                          | _ => Js.max_or (z <$> l) 0 + 1
                          end)%Z) l.
Proof.
  destruct l as [|a0 l]; [constructor|].
  apply Forall_forall. intros a Ha.
  pose proof (max_or_ge (z <$> a0 :: l) 0 (z a)
                (list_elem_of_fmap_2 z _ _ Ha)). lia.
Qed.

(** A result comes back as a new image of width 300 that keeps the
    proportions of the loaded picture, is flagged as an AI result, lies
    above every image that the canvas held when the job was submitted, and
    is placed 50 below its source, centered on it horizontally; a result
    without a source is centered in the view. *)
Theorem result_is_placed_below_source (imageUrl : string)
    (originalPosition : option OriginalPosition) (s0 : AppState)
    (ac : CanvasState.t) (img : R * R) (uuid : string) (s : AppState) :
  activeCanvas s0 = Some ac ->
  0 < img.1 -> 0 < img.2 ->
  exists newObject,
    canvases (handleSendResultBackToCompositor imageUrl originalPosition s0
                img uuid s)
      = onActiveCanvas s0 (mapObjects (fun objs => objs ++ [newObject]))
          (canvases s)
    /\ CanvasObject.id newObject = uuid
    /\ CanvasObject.src newObject = imageUrl
    /\ CanvasObject.isAiResult newObject = Some true
    /\ CanvasObject.rotation newObject = 0
    /\ CanvasObject.width newObject = 300
    /\ 0 < CanvasObject.height newObject
    /\ CanvasObject.width newObject * img.2
       = CanvasObject.height newObject * img.1
    /\ Forall (fun o => (CanvasObject.zIndex o < CanvasObject.zIndex newObject)%Z)
         (CanvasState.objects ac)
    /\ match originalPosition with
       | Some pos =>
           CanvasObject.x newObject + CanvasObject.width newObject / 2
             = origX pos + origWidth pos / 2
           /\ CanvasObject.y newObject = origY pos + origHeight pos + 50
       | None =>
           let center :=
             viewCenter (setViewTransform (fun _ => viewTransform s0) s) in
           CanvasObject.x newObject + CanvasObject.width newObject / 2
             = px center
           /\ CanvasObject.y newObject + CanvasObject.height newObject / 2
              = py center
       end.
Proof.
  intros Hac Hw Hh. unfold handleSendResultBackToCompositor. rewrite Hac.
  cbv zeta. eexists. split; [reflexivity|].
  cbn [CanvasObject.id CanvasObject.src CanvasObject.isAiResult
       CanvasObject.rotation CanvasObject.width CanvasObject.height
       CanvasObject.zIndex CanvasObject.x CanvasObject.y].
  repeat (split; [done|]).
  assert (0 < 300 / (img.1 / img.2)) as Hpos.
  { apply Rdiv_lt_0_compat; [lra|]. by apply Rdiv_lt_0_compat. }
  split; [exact Hpos|]. split; [field; lra|]. split.
  - destruct (CanvasState.objects ac) as [|o0 objs] eqn:Hobjs; [constructor|].
    apply (next_zIndex_above CanvasObject.zIndex (o0 :: objs) Z_INDEX_BASE_IMAGE).
  - destruct originalPosition as [pos|]; cbn [fst snd]; split; lra.
Qed.

Lemma result_is_placed_below_source_witness :
  exists newObject,
    canvases (handleSendResultBackToCompositor "blob:result"
                (Some (mkOriginalPosition 100 50 200 80))
                (Sample.state [] []) (1024, 768) "r-1" (Sample.state [] []))
      = onActiveCanvas (Sample.state [] [])
          (mapObjects (fun objs => objs ++ [newObject]))
          (canvases (Sample.state [] []))
    /\ CanvasObject.y newObject = 50 + 80 + 50.
Proof.
  destruct (result_is_placed_below_source "blob:result"
              (Some (mkOriginalPosition 100 50 200 80))
              (Sample.state [] []) Sample.canvas (1024, 768) "r-1"
              (Sample.state [] []) eq_refl)
    as (o & Ho & _ & _ & _ & _ & _ & _ & _ & _ & _ & Hy).
  - cbn. lra.
  - cbn. lra.
  - exists o. split; [exact Ho|exact Hy].
Defined.

(** The results of one job pile up: two pictures that come back for the
    same source, loaded in whatever order and state, are given the same
    position and the same zIndex, both computed from what the submission
    saw. *)
Theorem results_of_one_job_share_place_and_layer (url1 url2 : string)
    (pos : OriginalPosition) (s0 : AppState) (c : CanvasState.t)
    (img1 img2 : R * R) (uuid1 uuid2 : string) (s : AppState) :
  activeCanvas s = Some c ->
  activeCanvasId s = activeCanvasId s0 ->
  is_Some (activeCanvas s0) ->
  exists o1 o2,
    (CanvasState.objects <$>
       activeCanvas
         (handleSendResultBackToCompositor url2 (Some pos) s0 img2 uuid2
            (handleSendResultBackToCompositor url1 (Some pos) s0 img1 uuid1 s)))
      = Some (CanvasState.objects c ++ [o1; o2])
    /\ CanvasObject.x o1 = CanvasObject.x o2
    /\ CanvasObject.y o1 = CanvasObject.y o2
    /\ CanvasObject.zIndex o1 = CanvasObject.zIndex o2.
Proof.
  intros Hc Hid [ac Hac]. unfold handleSendResultBackToCompositor.
  rewrite Hac. cbv zeta.
  set (z := match CanvasState.objects ac with [] => _ | _ => _ end).
  set (o1 := CanvasObject.mk uuid1 _ _ _ _ _ _ _ _).
  set (o2 := CanvasObject.mk uuid2 _ _ _ _ _ _ _ _).
  assert (forall f, (forall c0, CanvasState.id (f c0) = CanvasState.id c0) ->
            forall s1 c1, activeCanvas s1 = Some c1 ->
              activeCanvasId s1 = activeCanvasId s0 ->
              activeCanvas (setCanvases (onActiveCanvas s0 f) s1) = Some (f c1))
    as Hstep.
  { intros f Hf s1 c1 Hc1 Hid1.
    replace (onActiveCanvas s0 f) with (onActiveCanvas s1 f)
      by (unfold onActiveCanvas; by rewrite Hid1).
    by apply activeCanvas_onActiveCanvas. }
  exists o1, o2. split; [|done].
  pose proof (Hstep (mapObjects (fun objs => objs ++ [o1]))
                (fun _ => eq_refl) s c Hc Hid) as H1.
  pose proof (Hstep (mapObjects (fun objs => objs ++ [o2]))
                (fun _ => eq_refl) _ _ H1 Hid) as H2.
  rewrite H2. cbn. by rewrite <- app_assoc.
Qed.

Lemma results_of_one_job_share_place_and_layer_witness :
  exists o1 o2,
    (CanvasState.objects <$>
       activeCanvas
         (handleSendResultBackToCompositor "blob:r2"
            (Some (mkOriginalPosition 100 50 200 80)) (Sample.state [] [])
            (512, 512) "r-2"
            (handleSendResultBackToCompositor "blob:r1"
               (Some (mkOriginalPosition 100 50 200 80)) (Sample.state [] [])
               (1024, 768) "r-1" (Sample.state ["img-a"] []))))
      = Some (CanvasState.objects Sample.canvas ++ [o1; o2])
    /\ CanvasObject.zIndex o1 = CanvasObject.zIndex o2.
Proof.
  destruct (results_of_one_job_share_place_and_layer "blob:r1" "blob:r2"
              (mkOriginalPosition 100 50 200 80) (Sample.state [] [])
              Sample.canvas (1024, 768) (512, 512) "r-1" "r-2"
              (Sample.state ["img-a"] []) eq_refl eq_refl
              (ex_intro _ Sample.canvas eq_refl))
    as (o1 & o2 & Hobjs & _ & _ & Hz).
  exists o1, o2. split; [exact Hobjs|exact Hz].
Defined.

Lemma startsWith_append (p u : string) : Js.startsWith (p +:+ u) p = true.
Proof.
  unfold Js.startsWith. induction p as [|a p IH].
  - by destruct u.
  - change (String a p +:+ u) with (String a (p +:+ u)).
    rewrite prefix_cons. by destruct (Ascii.ascii_dec a a).
Qed.

(** A new format frame has exactly the aspect ratio asked for, is as large
    as fits in half the viewport in each direction (on screen, whatever the
    zoom), is centered in the view, lies above every frame of the canvas
    and carries a frame id; images and prompt nodes are untouched.  A ratio
    that is not positive is refused with an error and changes no canvas. *)
Theorem addFormatFrame_fits_half_viewport (newAspectRatio : R) (uuid : string)
    (s : AppState) (c : CanvasState.t) (viewportBounds : DOMRect) :
  activeCanvas s = Some c ->
  viewportRef s = Some viewportBounds ->
  0 < zoom (viewTransform s) ->
  (newAspectRatio <= 0 ->
     addFormatFrame newAspectRatio uuid s
       = setError (Some "Invalid aspect ratio provided.") s)
  /\ (0 < newAspectRatio ->
      exists frame,
        activeCanvas (addFormatFrame newAspectRatio uuid s)
          = Some (mapFrames (fun fs => fs ++ [frame]) c)
        /\ isFrameId (FrameObject.id frame) = true
        /\ FrameObject.aspectRatio frame = newAspectRatio
        /\ FrameObject.width frame = FrameObject.height frame * newAspectRatio
        /\ FrameObject.width frame * zoom (viewTransform s)
           <= boundsWidth viewportBounds / 2
        /\ FrameObject.height frame * zoom (viewTransform s)
           <= boundsHeight viewportBounds / 2
        /\ (FrameObject.width frame * zoom (viewTransform s)
              = boundsWidth viewportBounds / 2
            \/ FrameObject.height frame * zoom (viewTransform s)
               = boundsHeight viewportBounds / 2)
        /\ FrameObject.x frame + FrameObject.width frame / 2 = px (viewCenter s)
        /\ FrameObject.y frame + FrameObject.height frame / 2 = py (viewCenter s)
        /\ Forall (fun f => (FrameObject.zIndex f < FrameObject.zIndex frame)%Z)
             (CanvasState.frames c)).
Proof.
  intros Hc Hv Hzoom. unfold addFormatFrame. rewrite Hc. split.
  - intros Hbad. by rewrite decide_True.
  - intros Hratio. rewrite decide_False by lra. rewrite Hv. cbv zeta.
    eexists. split; [by apply activeCanvas_onActiveCanvas|].
    unfold FrameObject.id, FrameObject.width, FrameObject.height,
      FrameObject.x, FrameObject.y, FrameObject.zIndex, viewCenter.
    rewrite Hv.
    cbn [FrameObject.base FrameObject.aspectRatio CanvasObject.id
         CanvasObject.width CanvasObject.height CanvasObject.x CanvasObject.y
         CanvasObject.zIndex].
    split; [apply startsWith_append|]. split; [done|].
    set (z := zoom (viewTransform s)) in *.
    set (w := boundsWidth viewportBounds).
    set (h := boundsHeight viewportBounds).
    assert (w * (5 / 10) / z * z = w / 2) as Hw by (field; lra).
    assert (h * (5 / 10) / z * z = h / 2) as Hh by (field; lra).
    assert (forall a, a / newAspectRatio * newAspectRatio = a) as Hr
      by (intros a; field; lra).
    destruct (decide (w * (5 / 10) / z / newAspectRatio > h * (5 / 10) / z))
      as [Hgt|Hle]; cbn [fst snd].
    + assert (h * (5 / 10) / z * newAspectRatio < w * (5 / 10) / z) as Hlt.
      { rewrite <- (Hr (w * (5 / 10) / z)).
        apply Rmult_lt_compat_r; [done|]. exact Hgt. }
      split; [done|]. split; [|split; [|split; [|split; [|split]]]].
      * rewrite <- Hw. apply Rmult_le_compat_r; lra.
      * lra.
      * right. lra.
      * lra.
      * lra.
      * destruct (CanvasState.frames c) as [|f0 fs]; [constructor|].
        apply (next_zIndex_above
                 (fun f => CanvasObject.zIndex (FrameObject.base f))
                 (f0 :: fs) Z_INDEX_BASE_FRAME).
    + assert (w * (5 / 10) / z / newAspectRatio <= h * (5 / 10) / z) as Hle'
        by lra.
      split; [by rewrite Hr|]. split; [|split; [|split; [|split; [|split]]]].
      * lra.
      * rewrite <- Hh. apply Rmult_le_compat_r; lra.
      * left. lra.
      * lra.
      * lra.
      * destruct (CanvasState.frames c) as [|f0 fs]; [constructor|].
        apply (next_zIndex_above
                 (fun f => CanvasObject.zIndex (FrameObject.base f))
                 (f0 :: fs) Z_INDEX_BASE_FRAME).
Qed.

Lemma addFormatFrame_fits_half_viewport_witness :
  exists frame,
    activeCanvas (addFormatFrame (16 / 9) "u1" (Sample.state [] []))
      = Some (mapFrames (fun fs => fs ++ [frame]) Sample.canvas)
    /\ FrameObject.width frame = FrameObject.height frame * (16 / 9).
Proof.
  destruct (addFormatFrame_fits_half_viewport (16 / 9) "u1"
              (Sample.state [] []) Sample.canvas Sample.viewport
              eq_refl eq_refl) as [_ Hadd].
  - cbn. lra.
  - destruct Hadd as (frame & Hc & _ & _ & Hw & _); [lra|].
    exists frame. split; [exact Hc|exact Hw].
Defined.

(** Capturing an image alone is capturing the frame drawn tightly around
    it: for an image of whole-number size, a frame with the box of the
    image that holds nothing else gives the same draw call and the same
    canvas size as the capture of the image by itself, and fails in the
    same way; only the background differs (filled for a frame, cleared for
    an image). *)
Theorem capture_single_is_capture_of_tight_frame (browser : Browser)
    (object : CanvasObject.t) (frame : FrameObject.t) :
  FrameObject.x frame = CanvasObject.x object ->
  FrameObject.y frame = CanvasObject.y object ->
  FrameObject.width frame = CanvasObject.width object ->
  FrameObject.height frame = CanvasObject.height object ->
  IZR (Js.Math_round (CanvasObject.width object)) = CanvasObject.width object ->
  IZR (Js.Math_round (CanvasObject.height object)) = CanvasObject.height object ->
  0 < CanvasObject.width object ->
  0 < CanvasObject.height object ->
  match captureSingleObjectAsDataURL browser object,
        captureFrameContentAsDataURL browser frame [object] with
  | inr alone, inr framed =>
      drawn alone = drawn framed
      /\ capturedWidth alone = capturedWidth framed
      /\ capturedHeight alone = capturedHeight framed
      /\ background alone <> background framed
      /\ loads browser (CanvasObject.src object) = true
  | inl e, inl e' => e = e'
  | _, _ => False
  end.
Proof.
  intros Hx Hy Hw Hh Hwi Hhi Hwpos Hhpos.
  unfold captureSingleObjectAsDataURL, captureFrameContentAsDataURL,
    objectsToRender.
  destruct (hasContext2d browser); cbn [negb]; [|done].
  rewrite filter_cons, decide_True, filter_nil.
  - cbn [Js.sort Js.insertBy foldr forallb andb fmap list_fmap].
    destruct (loads browser (CanvasObject.src object)) eqn:Hload;
      cbn [andb]; [|done].
    cbn [drawn capturedWidth capturedHeight background].
    rewrite Hw, Hh. split; [|done].
    unfold drawCallOf. rewrite Hx, Hy, Hwi, Hhi. f_equal. f_equal; lra.
  - unfold overlapsFrame. rewrite Hx, Hy, Hw, Hh. lra.
Qed.

Lemma capture_single_is_capture_of_tight_frame_witness :
  match captureSingleObjectAsDataURL (mkBrowser true (fun _ => true))
          Sample.imageA,
        captureFrameContentAsDataURL (mkBrowser true (fun _ => true))
          (FrameObject.mk
             (CanvasObject.mk "format-frame-t" "" 100 50 200 80 0 10000 None)
             (200 / 80))
          [Sample.imageA] with
  | inr alone, inr framed => drawn alone = drawn framed
  | inl e, inl e' => e = e'
  | _, _ => False
  end.
Proof.
  assert (forall n : Z, Js.Math_round (IZR n) = n) as Hround.
  { intros n. unfold Js.Math_round. apply eq_sym, Int_part_spec.
    rewrite <- (Rinv_l 2) by lra. lra. }
  pose proof (capture_single_is_capture_of_tight_frame
                (mkBrowser true (fun _ => true)) Sample.imageA
                (FrameObject.mk
                   (CanvasObject.mk "format-frame-t" "" 100 50 200 80 0 10000
                      None) (200 / 80))
                eq_refl eq_refl eq_refl eq_refl) as H.
  cbn [Sample.imageA CanvasObject.width CanvasObject.height] in H.
  specialize (H (f_equal IZR (Hround 200%Z)) (f_equal IZR (Hround 80%Z))).
  destruct (captureSingleObjectAsDataURL _ _),
    (captureFrameContentAsDataURL _ _ _); try (apply H; lra).
Defined.

End NewObjectFacts.

(** *** The canvas stays well formed *)

Section WellFormedFacts.

Lemma findParent_is_Some objects frames (id : string) :
  is_Some (findParent objects frames id)
  <-> id ∈ CanvasObject.id <$> objects \/ id ∈ FrameObject.id <$> frames.
Proof.
  unfold findParent.
  destruct (Js.find _ objects) as [o|] eqn:Ho.
  - apply find_Some_elem in Ho as [Hin <-]. split; [|by eexists].
    intros _. left. by apply list_elem_of_fmap_2.
  - rewrite fmap_is_Some. pose proof (proj1 (find_None_iff _ _) Ho) as Hno.
    destruct (Js.find _ frames) as [f|] eqn:Hf.
    + apply find_Some_elem in Hf as [Hin <-]. split; [|by eexists].
      intros _. right. by apply list_elem_of_fmap_2.
    + pose proof (proj1 (find_None_iff _ _) Hf) as Hnf.
      split; [by intros [? ?]|].
      intros [(o & -> & Hin)%list_elem_of_fmap
             |(f & -> & Hin)%list_elem_of_fmap].
      * by destruct (Hno o Hin).
      * by destruct (Hnf f Hin).
Qed.

(** An update that loses no image and no frame and keeps the attachments
    of the prompt nodes keeps the canvas well formed. *)
Lemma structure_kept (c c' : CanvasState.t) :
  (forall id, id ∈ CanvasObject.id <$> CanvasState.objects c ->
              id ∈ CanvasObject.id <$> CanvasState.objects c') ->
  (forall id, id ∈ FrameObject.id <$> CanvasState.frames c ->
              id ∈ FrameObject.id <$> CanvasState.frames c') ->
  PromptNodeObject.attachedToId <$> CanvasState.promptNodes c'
    = PromptNodeObject.attachedToId <$> CanvasState.promptNodes c ->
  wellFormed c -> wellFormed c'.
Proof.
  intros Hobjs Hframes Hatt [Hone Hres]. split.
  - unfold oneNodePerParent. by rewrite Hatt.
  - unfold attachmentsResolve in *.
    apply (Forall_fmap PromptNodeObject.attachedToId
             (fun id => is_Some (findParent _ _ id))).
    rewrite Hatt.
    apply (Forall_fmap PromptNodeObject.attachedToId
             (fun id => is_Some (findParent _ _ id))) in Hres.
    eapply Forall_impl; [exact Hres|]. intros id.
    rewrite !findParent_is_Some. intros [?|?]; auto.
Qed.

(** Dropping prompt nodes keeps it well formed too. *)
Lemma nodes_dropped (keep : PromptNodeObject.t -> Prop)
    `{!forall p, Decision (keep p)} (c : CanvasState.t) :
  wellFormed c -> wellFormed (mapPromptNodes (filter keep) c).
Proof.
  intros [Hone Hres]. split.
  - unfold oneNodePerParent in *. cbn.
    eapply sublist_NoDup; [exact Hone|]. apply fmap_sublist, sublist_filter.
  - unfold attachmentsResolve in *. cbn.
    apply Forall_forall. intros node [_ Hin]%list_elem_of_filter.
    by apply (proj1 (Forall_forall _ _) Hres).
Qed.

Lemma node_appended (node : PromptNodeObject.t) (c : CanvasState.t) :
  Js.some (fun p => PromptNodeObject.attachedToId p
                    = PromptNodeObject.attachedToId node)
          (CanvasState.promptNodes c) = false ->
  is_Some (findParent (CanvasState.objects c) (CanvasState.frames c)
             (PromptNodeObject.attachedToId node)) ->
  wellFormed c ->
  wellFormed (mapPromptNodes (fun nodes => nodes ++ [node]) c).
Proof.
  intros Hfree Hlive [Hone Hres]. split.
  - unfold oneNodePerParent in *. cbn. rewrite fmap_app.
    apply NoDup_app. split; [done|]. split; [|apply NoDup_singleton].
    intros a Ha [->|[]%elem_of_nil]%elem_of_cons.
    apply list_elem_of_fmap in Ha as (p & Hp & Hin).
    rewrite some_false_iff in Hfree. by apply (Hfree p Hin).
  - unfold attachmentsResolve in *. cbn.
    apply Forall_app. split; [done|]. by apply Forall_singleton.
Qed.

Lemma evolves_unchanged (s s' : AppState) (c : CanvasState.t) :
  canvases s' = canvases s ->
  activeCanvasId s' = activeCanvasId s ->
  evolves s s' c.
Proof.
  intros Hc Hid. split; [done|]. exists (fun c0 => c0).
  split; [by rewrite list_fmap_id|done].
Qed.

Lemma evolves_on_active (s0 s s' : AppState)
    (f : CanvasState.t -> CanvasState.t) (c : CanvasState.t) :
  canvases s' = onActiveCanvas s0 f (canvases s) ->
  activeCanvasId s' = activeCanvasId s ->
  (forall c0, CanvasState.id (f c0) = CanvasState.id c0) ->
  (wellFormed c -> wellFormed (f c)) ->
  evolves s s' c.
Proof.
  intros Hc Hid Hf Hwf. split; [done|].
  eexists. split; [exact Hc|]. split.
  - intros c0. by case_decide.
  - intros Hc0. case_decide; auto.
Qed.

Lemma evolves_active (s s' : AppState) (c : CanvasState.t) :
  activeCanvas s = Some c ->
  evolves s s' c ->
  exists c',
    activeCanvas s' = Some c'
    /\ CanvasState.id c' = CanvasState.id c
    /\ (wellFormed c -> wellFormed c').
Proof.
  intros Hc (Hid & g & Hg & Hkeep & Hwf). exists (g c).
  split; [|split; [done|done]].
  unfold activeCanvas in *. rewrite Hg, Hid.
  rewrite find_fmap_preserving; [by rewrite Hc|].
  intros c0. by rewrite Hkeep.
Qed.

Lemma promote_structure (id : string) (c : CanvasState.t) :
  CanvasObject.id <$> CanvasState.objects (promote id c)
    = CanvasObject.id <$> CanvasState.objects c
  /\ FrameObject.id <$> CanvasState.frames (promote id c)
     = FrameObject.id <$> CanvasState.frames c
  /\ PromptNodeObject.attachedToId <$> CanvasState.promptNodes (promote id c)
     = PromptNodeObject.attachedToId <$> CanvasState.promptNodes c.
Proof.
  unfold promote.
  destruct (isFrameId id), (isNodeId id);
    cbn [negb andb orb CanvasState.objects CanvasState.frames
         CanvasState.promptNodes];
    repeat split;
    rewrite <- ?list_fmap_compose;
    try (apply Forall_fmap_ext_1, Forall_forall; intros x _;
         unfold compose; by repeat case_decide).
Qed.

Lemma moveTick_structure r ty dx dy mp sp (c : CanvasState.t) :
  CanvasObject.id <$> CanvasState.objects (moveTick r ty dx dy mp sp c)
    = CanvasObject.id <$> CanvasState.objects c
  /\ FrameObject.id <$> CanvasState.frames (moveTick r ty dx dy mp sp c)
     = FrameObject.id <$> CanvasState.frames c
  /\ PromptNodeObject.attachedToId
       <$> CanvasState.promptNodes (moveTick r ty dx dy mp sp c)
     = PromptNodeObject.attachedToId <$> CanvasState.promptNodes c.
Proof.
  unfold moveTick. cbv zeta.
  cbn [CanvasState.objects CanvasState.frames CanvasState.promptNodes].
  split; [|split].
  - unfold movedLayers.
    destruct ty, (isFrameId (targetId r)), (isNodeId (targetId r));
      cbn [fst snd negb andb]; try done;
      rewrite <- list_fmap_compose;
      apply Forall_fmap_ext_1, Forall_forall; intros x _; unfold compose;
      try (by case_decide);
      (destruct (Js.includes _ _); [|done]);
      unfold moveTarget; by destruct (_ !! _).
  - unfold movedLayers.
    destruct ty, (isFrameId (targetId r)), (isNodeId (targetId r));
      cbn [fst snd negb andb]; try done;
      rewrite <- list_fmap_compose;
      apply Forall_fmap_ext_1, Forall_forall; intros x _; unfold compose;
      try (by case_decide);
      (destruct (Js.includes _ _); [|done]);
      unfold moveTarget; by destruct (_ !! _).
  - rewrite <- list_fmap_compose.
    apply Forall_fmap_ext_1, Forall_forall. intros x _. unfold compose.
    by destruct (findParent _ _ _).
Qed.

Lemma structure_eq_kept (c c' : CanvasState.t) :
  CanvasObject.id <$> CanvasState.objects c'
    = CanvasObject.id <$> CanvasState.objects c
  /\ FrameObject.id <$> CanvasState.frames c'
     = FrameObject.id <$> CanvasState.frames c
  /\ PromptNodeObject.attachedToId <$> CanvasState.promptNodes c'
     = PromptNodeObject.attachedToId <$> CanvasState.promptNodes c ->
  wellFormed c -> wellFormed c'.
Proof.
  intros (Ho & Hf & Hp). apply structure_kept; [| |done].
  - intros id. by rewrite Ho.
  - intros id. by rewrite Hf.
Qed.

Lemma handleInteractionStart_evolves id e ty (s : AppState)
    (c : CanvasState.t) :
  activeCanvas s = Some c ->
  evolves s (handleInteractionStart id e ty s) c.
Proof.
  intros Hc. unfold handleInteractionStart. rewrite Hc. cbv zeta.
  destruct (if isFrameId id then _ else _) as [targetObj|];
    [|by apply evolves_unchanged].
  destruct (isNodeId id && bool_decide (ty = Move));
    [by apply evolves_unchanged|].
  apply (evolves_on_active s _ _ (promote id)); [done|done|apply promote_id|].
  apply structure_eq_kept, promote_structure.
Qed.

Lemma writeNodePrompt_evolves nodeId text (s1 s : AppState)
    (c : CanvasState.t) :
  canvases s1 = canvases s ->
  activeCanvasId s1 = activeCanvasId s ->
  evolves s (writeNodePrompt nodeId text s1) c.
Proof.
  intros Hcs Hid. unfold writeNodePrompt.
  eapply (evolves_on_active s1); [by cbn; rewrite Hcs|done|done|].
  apply structure_eq_kept. unfold mapPromptNodes. cbn.
  split; [done|]. split; [done|].
  rewrite <- list_fmap_compose.
  apply Forall_fmap_ext_1, Forall_forall. intros x _. unfold compose.
  by case_decide.
Qed.

Lemma jobStep_canvases (s : AppState) (ev : JobEvent) :
  canvases (jobStep s ev) = canvases s
  /\ activeCanvasId (jobStep s ev) = activeCanvasId s.
Proof.
  destruct ev as [objectId targetApi jobId|objectId jobId|jobId|jobId failure];
    cbn [jobStep].
  - unfold handleSendObjectToApi.
    destruct (activeCanvas s); [|done]. case_bool_decide; [done|]. cbv zeta.
    destruct (if isFrameId objectId then _ else _) as [original|]; [|done].
    destruct (match original with TFrame _ => _ | _ => false end); [done|].
    destruct (Js.trimsToEmpty _); [done|]. by destruct (apiKeyOf s _).
  - unfold handleUpscaleSingleImage.
    destruct (activeCanvas s); [|done]. destruct (apiKeyOf s _); [|done].
    case_bool_decide; [done|]. cbv zeta. by destruct (Js.find _ _).
  - unfold handleGenerateTextToImage.
    destruct (apiKeyOf s _); [|done]. destruct (Js.trimsToEmpty _); [done|].
    by case_bool_decide.
  - unfold settleJob. by destruct failure.
Qed.

(** Every event evolves the canvases. *)
Lemma canvasStep_evolves (s : AppState) (ev : CanvasEvent)
    (c : CanvasState.t) :
  activeCanvas s = Some c ->
  evolves s (canvasStep s ev) c.
Proof.
  intros Hc.
  destruct ev as [id e ty|frameId e|onBackground e|e| |e|delta|files
                 |newAspectRatio uuid|uuid| |id|id|id| |text| |ev
                 |imageUrl originalPosition s0 img uuid];
    cbn [canvasStep].
  - by apply handleInteractionStart_evolves.
  - unfold handleFrameMouseDown. rewrite Hc. cbv zeta.
    destruct (Js.sort _ _); by apply handleInteractionStart_evolves.
  - unfold handleViewportMouseDown.
    destruct (negb onBackground); [by apply evolves_unchanged|].
    destruct (_ || _); by apply evolves_unchanged.
  - unfold handleMouseMove. rewrite Hc.
    destruct (type (interactionRef s)) as [ty|]; [|by apply evolves_unchanged].
    assert (forall ty', evolves s
              (if bool_decide (targetId (interactionRef s) = "") then s
               else setCanvases (onActiveCanvas s (sessionTick s ty' e)) s) c)
      as Htick.
    { intros ty'. case_bool_decide; [by apply evolves_unchanged|].
      apply (evolves_on_active s _ _ (sessionTick s ty' e)); [done|done| |].
      - intros c0. apply moveTick_id.
      - unfold sessionTick. cbv zeta.
        apply structure_eq_kept, moveTick_structure. }
    destruct ty; try apply Htick. by apply evolves_unchanged.
  - by apply evolves_unchanged.
  - unfold handleWheel. destruct (viewportRef s); by apply evolves_unchanged.
  - unfold changeZoom. destruct (viewportRef s); by apply evolves_unchanged.
  - unfold handleAddImagesToCanvas.
    destruct files as [files|]; [|by apply evolves_unchanged]. rewrite Hc.
    case_bool_decide; [by apply evolves_unchanged|]. cbv zeta.
    case_bool_decide; [by apply evolves_unchanged|].
    destruct (mapM _ _) as [newImageObjects|].
    + eapply (evolves_on_active s);
        [by case_bool_decide|by case_bool_decide|done|].
      apply structure_kept; [|done|done].
      intros id0 Hin. unfold mapObjects. cbn. rewrite fmap_app.
      apply elem_of_app. by left.
    + case_bool_decide; by apply evolves_unchanged.
  - unfold addFormatFrame. rewrite Hc.
    destruct (decide _); [by apply evolves_unchanged|].
    destruct (viewportRef s); [|by apply evolves_unchanged]. cbv zeta.
    eapply (evolves_on_active s); [done|done|done|].
    apply structure_kept; [done| |done].
    intros id0 Hin. unfold mapFrames. cbn. rewrite fmap_app.
    apply elem_of_app. by left.
  - unfold handleAddPromptNode. rewrite Hc.
    destruct (selectedObjectIds s) as [|parentId [|]];
      try by apply evolves_unchanged.
    cbv zeta.
    destruct (if Js.startsWith parentId "format-frame-" then _ else _)
      as [parent|] eqn:Hparent; [|by apply evolves_unchanged].
    destruct (Js.some _ _) eqn:Htaken; [by apply evolves_unchanged|].
    assert (CanvasObject.id parent = parentId
            /\ is_Some (findParent (CanvasState.objects c)
                          (CanvasState.frames c) parentId)) as [Hpid Hlive].
    { destruct (Js.startsWith parentId "format-frame-").
      - destruct (Js.find _ (CanvasState.frames c)) as [f|] eqn:Hf; [|done].
        injection Hparent as <-. split.
        + by apply find_Some_elem in Hf as [_ ?].
        + by eapply find_frame_is_Some_findParent.
      - split.
        + by apply find_Some_elem in Hparent as [_ ?].
        + by eapply find_Some_is_Some_findParent. }
    eapply (evolves_on_active s); [done|done|done|].
    apply node_appended; cbn [PromptNodeObject.attachedToId];
      by rewrite Hpid.
  - unfold handleRemovePromptNodeForSelected. rewrite Hc.
    destruct (selectedObjectIds s) as [|parentId [|]];
      try by apply evolves_unchanged.
    cbv zeta. destruct (negb _); [by apply evolves_unchanged|].
    eapply (evolves_on_active s); [done|done|done|]. apply nodes_dropped.
  - unfold handleDeletePromptNode. rewrite Hc. cbv zeta.
    eapply (evolves_on_active s); [done|done|done|]. apply nodes_dropped.
  - unfold handleDeleteSingleObject.
    destruct (noActiveCanvasId s); [by apply evolves_unchanged|]. cbv zeta.
    eapply (evolves_on_active s); [done|done|done|].
    intros Hwf.
    apply (nodes_dropped (fun p => PromptNodeObject.attachedToId p <> id)) in Hwf.
    destruct Hwf as [Hone Hres]. split; [exact Hone|].
    unfold attachmentsResolve in *. cbn in *.
    apply Forall_forall. intros node Hin.
    pose proof Hin as [Hne _]%list_elem_of_filter.
    rewrite findParent_without_object by done.
    by apply (proj1 (Forall_forall _ _) Hres).
  - unfold handleDeleteFrame. rewrite Hc. cbv zeta.
    eapply (evolves_on_active s); [done|done|done|].
    intros Hwf.
    apply (nodes_dropped (fun p => PromptNodeObject.attachedToId p <> id)) in Hwf.
    destruct Hwf as [Hone Hres]. split; [exact Hone|].
    unfold attachmentsResolve in *. cbn in *.
    apply Forall_forall. intros node Hin.
    pose proof Hin as [Hne _]%list_elem_of_filter.
    rewrite findParent_without_frame by done.
    by apply (proj1 (Forall_forall _ _) Hres).
  - unfold handleClearCanvas.
    destruct (noActiveCanvasId s); [by apply evolves_unchanged|]. cbv zeta.
    eapply (evolves_on_active s); [done|done|done|].
    intros _. split; [apply NoDup_nil_2|apply Forall_nil_2].
  - unfold handlePromptChange. cbv zeta.
    destruct (selectedNodeId s);
      [by apply writeNodePrompt_evolves|by apply evolves_unchanged].
  - unfold handleClearPrompt.
    destruct (selectedNodeId s);
      [by apply writeNodePrompt_evolves|by apply evolves_unchanged].
  - destruct (jobStep_canvases s ev). by apply evolves_unchanged.
  - unfold handleSendResultBackToCompositor.
    destruct (activeCanvas s0); [|by apply evolves_unchanged]. cbv zeta.
    eapply (evolves_on_active s0); [done|done|done|].
    apply structure_kept; [|done|done].
    intros id0 Hin. unfold mapObjects. cbn. rewrite fmap_app.
    apply elem_of_app. by left.
Qed.

(** While a canvas stays selected, it stays well formed: through any run
    of pointer, wheel and zoom events, imports, new frames, prompt-node
    additions and removals, deletions of images, frames and nodes, prompt
    edits, job events and results coming back, the active canvas is the
    same canvas, no image or frame of it has two prompt nodes, and every
    prompt node of it is attached to an image or frame that is there. *)
Theorem active_canvas_stays_well_formed (evs : list CanvasEvent)
    (s : AppState) (c : CanvasState.t) :
  activeCanvas s = Some c ->
  wellFormed c ->
  exists c',
    activeCanvas (canvasRun evs s) = Some c'
    /\ CanvasState.id c' = CanvasState.id c
    /\ activeCanvasId (canvasRun evs s) = activeCanvasId s
    /\ oneNodePerParent c'
    /\ attachmentsResolve c'.
Proof.
  unfold canvasRun. revert s c. induction evs as [|ev evs IH]; intros s c Hc Hwf.
  - exists c. by destruct Hwf.
  - cbn [foldl]. pose proof (canvasStep_evolves s ev c Hc) as Hev.
    destruct (evolves_active _ _ _ Hc Hev) as (c1 & Hc1 & Hid1 & Hwf1).
    destruct (IH _ c1 Hc1 (Hwf1 Hwf)) as (c' & Hc' & Hid' & Hact & Hone & Hres).
    exists c'. split; [done|]. split; [congruence|]. split; [|done].
    rewrite Hact. by destruct Hev.
Qed.

Lemma active_canvas_stays_well_formed_witness :
  exists c',
    activeCanvas
      (canvasRun [PointerDown "img-a" (Sample.pointerAt 150 80) Move;
                  PointerMove (Sample.pointerAt 180 95); PointerUp;
                  DeleteImage "img-a"; AddPromptNode "u1";
                  AddFrame (16 / 9) "u2"; PromptChange "a red car"]
         (Sample.state [] [])) = Some c'
    /\ oneNodePerParent c' /\ attachmentsResolve c'.
Proof.
  destruct (active_canvas_stays_well_formed
              [PointerDown "img-a" (Sample.pointerAt 150 80) Move;
               PointerMove (Sample.pointerAt 180 95); PointerUp;
               DeleteImage "img-a"; AddPromptNode "u1";
               AddFrame (16 / 9) "u2"; PromptChange "a red car"]
              (Sample.state [] []) Sample.canvas eq_refl)
    as (c' & Hc' & _ & _ & Hone & Hres).
  - split.
    + apply (bool_decide_unpack _). vm_compute. exact I.
    + unfold attachmentsResolve. repeat constructor; by eexists.
  - exists c'. split; [exact Hc'|]. split; [exact Hone|exact Hres].
Defined.

End WellFormedFacts.

(** *** The collection of canvases *)

Section WorkspaceFacts.

Lemma find_is_Some {A} (P : A -> Prop) `{!forall a, Decision (P a)}
    (l : list A) :
  is_Some (Js.find P l) <-> exists a, a ∈ l /\ P a.
Proof.
  split.
  - intros [a Ha]. exists a. by apply find_Some_elem in Ha.
  - intros (a & Hin & HP). destruct (Js.find P l) eqn:Hf; [by eexists|].
    by destruct (proj1 (find_None_iff P l) Hf a Hin).
Qed.

(** The elements before the first one that [filter] drops stay where they
    are. *)
Lemma filter_prefix_lookup {A} (Q : A -> Prop) `{!forall a, Decision (Q a)}
    (l : list A) (i j : nat) :
  (forall k y, l !! k = Some y -> (k < i)%nat -> Q y) ->
  (j < i)%nat ->
  filter Q l !! j = l !! j.
Proof.
  revert i j. induction l as [|a l IH]; intros i j Hpre Hj; [done|].
  rewrite filter_cons, decide_True by (apply (Hpre 0%nat); [done|lia]).
  destruct j as [|j]; [done|]. cbn. destruct i as [|i]; [lia|].
  apply (IH i); [|lia]. intros k y Hk Hlt. apply (Hpre (S k)); [done|lia].
Qed.

Lemma list_find_prefix {A} (P : A -> Prop) `{!forall a, Decision (P a)}
    (l : list A) (i : nat) (a : A) :
  list_find P l = Some (i, a) ->
  l !! i = Some a /\ P a
  /\ forall k y, l !! k = Some y -> (k < i)%nat -> ~ P y.
Proof. by intros ?%list_find_Some. Qed.

(** What a confirmed deletion of a canvas of the list comes to. *)
Lemma handleDeleteCanvas_found (idToDelete : string) (w : Workspace)
    (i : nat) (c : CanvasState.t) :
  list_find (fun c => CanvasState.id c = idToDelete) (canvases (app w))
    = Some (i, c) ->
  let newCanvases :=
    filter (fun c => CanvasState.id c <> idToDelete) (canvases (app w)) in
  handleDeleteCanvas true idToDelete w
  = Some (mkWorkspace
            (setActiveCanvasId
               (if decide (activeCanvasId (app w) = Some idToDelete)
                then match i with
                     | 0%nat => CanvasState.id <$> head newCanvases
                     | S j => CanvasState.id <$> canvases (app w) !! j
                     end
                else activeCanvasId (app w))
               (setCanvases (fun _ => newCanvases) (app w)))
            ((fun favId => if decide (favId = Some idToDelete)
                           then None else favId) <$> favoriteCanvasIds w)).
Proof.
  intros Hfind newCanvases. unfold handleDeleteCanvas. cbn [negb].
  rewrite Hfind. cbv zeta. fold newCanvases.
  apply list_find_prefix in Hfind as (Hi & Hid & Hbefore).
  destruct (decide (activeCanvasId (app w) = Some idToDelete)) as [Hact|Hact];
    [|by destruct (app w)].
  case_bool_decide as Hlen.
  - destruct i as [|j].
    + cbn [Nat.sub Nat.max]. rewrite <- head_lookup.
      destruct newCanvases; [cbn in Hlen; lia|done].
    + replace (Nat.max 0 (S j - 1)) with j by lia.
      unfold newCanvases.
      rewrite (filter_prefix_lookup _ _ (S j) j); [|done|lia].
      destruct (canvases (app w) !! j) eqn:Hj; [done|].
      apply lookup_ge_None in Hj. apply lookup_lt_Some in Hi. lia.
  - destruct newCanvases eqn:Hnew; [|cbn in Hlen; lia].
    destruct i as [|j]; [done|].
    destruct (canvases (app w) !! j) as [cj|] eqn:Hj.
    + assert (cj ∈ filter (fun c => CanvasState.id c <> idToDelete)
                      (canvases (app w))) as Hin.
      { apply list_elem_of_filter. split.
        - apply (Hbefore j); [done|lia].
        - by eapply list_elem_of_lookup_2. }
      fold newCanvases in Hin. rewrite Hnew in Hin. by apply elem_of_nil in Hin.
    + apply lookup_ge_None in Hj. apply lookup_lt_Some in Hi. lia.
Qed.

(** Deleting a canvas never fails and removes it everywhere: the canvases
    of another id stay, in their order; no favorite slot shows the deleted
    id any more, and the other slots are as they were; an active canvas of
    another id stays active; and when the active canvas is the one deleted,
    its left neighbour in the list becomes active, the first remaining
    canvas if it had none, and no canvas when it was the last one. *)
Theorem delete_canvas_activates_left_neighbour (idToDelete : string)
    (w : Workspace) (i : nat) (c : CanvasState.t) :
  list_find (fun c => CanvasState.id c = idToDelete) (canvases (app w))
    = Some (i, c) ->
  exists w',
    handleDeleteCanvas true idToDelete w = Some w'
    /\ canvases (app w')
       = filter (fun c => CanvasState.id c <> idToDelete) (canvases (app w))
    /\ Forall (fun favId => favId <> Some idToDelete) (favoriteCanvasIds w')
    /\ Forall2 (fun favId favId' =>
                  favId' = favId \/ favId = Some idToDelete /\ favId' = None)
         (favoriteCanvasIds w) (favoriteCanvasIds w')
    /\ (activeCanvasId (app w) <> Some idToDelete ->
        activeCanvasId (app w') = activeCanvasId (app w)
        /\ activeCanvas (app w') = activeCanvas (app w))
    /\ (activeCanvasId (app w) = Some idToDelete ->
        activeCanvasId (app w')
          = match i with
            | 0%nat => CanvasState.id <$> head (canvases (app w'))
            | S j => CanvasState.id <$> canvases (app w) !! j
            end
        /\ (canvases (app w') <> [] -> is_Some (activeCanvas (app w')))).
Proof.
  intros Hfind. eexists. split; [exact (handleDeleteCanvas_found _ _ _ _ Hfind)|].
  cbn [app favoriteCanvasIds canvases setActiveCanvasId setCanvases
       activeCanvasId].
  apply list_find_prefix in Hfind as (Hi & Hid & Hbefore).
  split; [done|]. split; [|split; [|split]].
  - apply Forall_fmap, Forall_forall. intros favId _. unfold compose.
    by case_decide.
  - apply Forall2_fmap_r, Forall_Forall2_diag, Forall_forall.
    intros favId _. unfold compose. case_decide; auto.
  - intros Hact. rewrite decide_False by done. split; [done|].
    unfold activeCanvas.
    cbn [canvases activeCanvasId setActiveCanvasId setCanvases].
    apply find_filter_implied. intros a Ha Heq. apply Hact.
    by rewrite <- Ha, Heq.
  - intros Hact. rewrite decide_True by done. split; [done|].
    intros Hnonempty. unfold activeCanvas.
    cbn [canvases activeCanvasId setActiveCanvasId setCanvases].
    apply find_is_Some. destruct i as [|j].
    + destruct (filter _ (canvases (app w))) as [|c0 rest] eqn:Hrest; [done|].
      exists c0. split; [by left|done].
    + destruct (canvases (app w) !! j) as [cj|] eqn:Hj.
      * exists cj. split; [|done]. apply list_elem_of_filter. split.
        -- apply (Hbefore j); [done|lia].
        -- by eapply list_elem_of_lookup_2.
      * apply lookup_ge_None in Hj. apply lookup_lt_Some in Hi. lia.
Qed.

Lemma delete_canvas_activates_left_neighbour_witness :
  exists w',
    handleDeleteCanvas true "canvas-1"
      (mkWorkspace (Sample.state [] []) [Some "canvas-1"; None; None; None])
      = Some w'
    /\ canvases (app w') = [].
Proof.
  destruct (delete_canvas_activates_left_neighbour "canvas-1"
              (mkWorkspace (Sample.state [] [])
                 [Some "canvas-1"; None; None; None])
              0 Sample.canvas eq_refl) as (w' & Hw' & Hcs & _).
  exists w'. split; [exact Hw'|]. rewrite Hcs. reflexivity.
Defined.

Lemma filter_all {A} (Q : A -> Prop) `{!forall a, Decision (Q a)} (l : list A) :
  Forall Q l -> filter Q l = l.
Proof.
  induction 1 as [|a l Ha _ IH]; [done|].
  by rewrite filter_cons, decide_True, IH.
Qed.

(** Creating a canvas and deleting it again gives back the list of
    canvases, but not the canvas that was active: the last canvas of the
    list is active afterwards (none when the list was empty). *)
Theorem create_then_delete_canvas_activates_last (uuid : string)
    (w : Workspace) :
  Forall (fun c => CanvasState.id c <> uuid) (canvases (app w)) ->
  exists w',
    handleDeleteCanvas true uuid (onApp (createNewCanvas uuid) w) = Some w'
    /\ canvases (app w') = canvases (app w)
    /\ activeCanvasId (app w') = CanvasState.id <$> last (canvases (app w))
    /\ activeCanvasId (app (onApp (createNewCanvas uuid) w)) = Some uuid
    /\ length (canvases (app (onApp (createNewCanvas uuid) w)))
       = S (length (canvases (app w))).
Proof.
  intros Hfresh.
  set (newCanvas := CanvasState.mk uuid
         ("Project " +:+ pretty (length (canvases (app w)) + 1)%nat) [] [] []).
  assert (canvases (app (onApp (createNewCanvas uuid) w))
          = canvases (app w) ++ [newCanvas]) as Hcs by done.
  assert (list_find (fun c => CanvasState.id c = uuid)
            (canvases (app (onApp (createNewCanvas uuid) w)))
          = Some (length (canvases (app w)), newCanvas)) as Hfind.
  { rewrite Hcs. apply list_find_Some. split; [|split; [done|]].
    - by rewrite lookup_app_r, Nat.sub_diag.
    - intros k y Hk Hlt. rewrite lookup_app_l in Hk by done.
      apply (proj1 (Forall_forall _ _) Hfresh).
      by eapply list_elem_of_lookup_2. }
  eexists. split; [exact (handleDeleteCanvas_found _ _ _ _ Hfind)|].
  cbn [app canvases setActiveCanvasId setCanvases activeCanvasId].
  assert (filter (fun c => CanvasState.id c <> uuid)
            (canvases (app (onApp (createNewCanvas uuid) w)))
          = canvases (app w)) as Hback.
  { rewrite Hcs, filter_app, filter_cons, decide_False, filter_nil, app_nil_r
      by (cbn; by intros H; apply H).
    by apply filter_all. }
  split; [exact Hback|]. split; [|split; [done|]].
  - rewrite decide_True by done. rewrite Hback.
    destruct (canvases (app w)) as [|c0 l] eqn:Hl; [done|].
    cbn [length]. rewrite Hcs, last_lookup. cbn [length Nat.pred].
    by rewrite lookup_app_l by (cbn; lia).
  - rewrite Hcs, length_app. cbn. lia.
Qed.

Lemma create_then_delete_canvas_activates_last_witness :
  exists w',
    handleDeleteCanvas true "canvas-2"
      (onApp (createNewCanvas "canvas-2")
         (mkWorkspace (Sample.state [] []) [None; None; None; None]))
      = Some w'
    /\ activeCanvasId (app w') = Some "canvas-1".
Proof.
  destruct (create_then_delete_canvas_activates_last "canvas-2"
              (mkWorkspace (Sample.state [] []) [None; None; None; None]))
    as (w' & Hw' & _ & Hact & _).
  - repeat constructor. discriminate.
  - exists w'. split; [exact Hw'|exact Hact].
Defined.

Lemma activeCanvas_resetSelection (prev s : AppState) :
  activeCanvas (resetSelectionEffect prev s) = activeCanvas s.
Proof. unfold resetSelectionEffect. by case_decide. Qed.

(** After the effects there is an active canvas, if the handler left one
    or left no canvas at all. *)
Lemma afterRender_active (uuid : string) (prev s : AppState) :
  is_Some (activeCanvas s)
  \/ (canvases s = [] /\ activeCanvasId s = None) ->
  is_Some (activeCanvas (afterRender uuid prev s)).
Proof.
  intros Hs. unfold afterRender. cbv zeta.
  rewrite activeCanvas_resetSelection. unfold ensureDefaultCanvasEffect.
  destruct Hs as [Hs|[Hnil Hnone]].
  - rewrite <- (activeCanvas_resetSelection prev) in Hs.
    destruct Hs as [c Hc]. pose proof Hc as [Hin _]%activeCanvas_elem.
    rewrite bool_decide_eq_false_2; [by eexists|].
    intros Hlen. destruct (canvases (resetSelectionEffect prev s));
      [by apply elem_of_nil in Hin|done].
  - assert (canvases (resetSelectionEffect prev s) = []
            /\ activeCanvasId (resetSelectionEffect prev s) = None)
      as [Hnil' Hnone'].
    { unfold resetSelectionEffect. by case_decide. }
    rewrite Hnil', Hnone'. cbn [length bool_decide andb].
    unfold activeCanvas.
    cbn [canvases activeCanvasId setActiveCanvasId setCanvases].
    apply find_is_Some. eexists. split; [by left|done].
Qed.

Lemma handle_keeps_usable (ev : WorkspaceEvent) (w : Workspace) :
  usable w ->
  match ev with
  | DropOnFavorite index _ => (index < NUM_FAVORITE_SLOTS)%nat
  | _ => True
  end ->
  exists w1,
    handle ev w = Some w1
    /\ (is_Some (activeCanvas (app w1))
        \/ (canvases (app w1) = [] /\ activeCanvasId (app w1) = None))
    /\ length (favoriteCanvasIds w1) = NUM_FAVORITE_SLOTS.
Proof.
  intros [[c Hc] Hfavs] Hslot.
  destruct ev as [uuid|confirmed idToDelete|id newName|index|index
                 |index canvasId|index|ev]; cbn [handle].
  - eexists. split; [done|]. split; [|done]. left.
    unfold onApp, createNewCanvas, activeCanvas.
    cbn [app canvases activeCanvasId setCanvases setActiveCanvasId
         CanvasState.id].
    apply find_is_Some. eexists.
    split; [apply elem_of_app; right; by left|done].
  - destruct confirmed; [|exists w; split; [done|]; split; [left; by eexists|done]].
    destruct (list_find (fun c => CanvasState.id c = idToDelete)
                (canvases (app w))) as [[i c0]|] eqn:Hfind.
    + rewrite (handleDeleteCanvas_found _ _ _ _ Hfind). cbv zeta.
      eexists. split; [done|].
      cbn [app favoriteCanvasIds]. rewrite length_fmap. split; [|done].
      apply list_find_prefix in Hfind as (Hi & Hid & Hbefore).
      unfold activeCanvas.
      cbn [canvases activeCanvasId setActiveCanvasId setCanvases].
      destruct (decide (activeCanvasId (app w) = Some idToDelete)) as [Hact|Hact].
      * destruct i as [|j].
        -- destruct (filter _ (canvases (app w))) as [|c1 rest]; [by right|].
           left. apply find_is_Some. exists c1. split; [by left|done].
        -- left. apply find_is_Some.
           destruct (canvases (app w) !! j) as [cj|] eqn:Hj.
           ++ exists cj. split; [|done]. apply list_elem_of_filter. split.
              ** apply (Hbefore j); [done|lia].
              ** by eapply list_elem_of_lookup_2.
           ++ apply lookup_ge_None in Hj. apply lookup_lt_Some in Hi. lia.
      * left. rewrite find_filter_implied; [by eexists|].
        intros a Ha Heq. apply Hact. by rewrite <- Ha, Heq.
    + exists w. unfold handleDeleteCanvas. cbn [negb]. rewrite Hfind.
      split; [done|]. split; [left; by eexists|done].
  - eexists. split; [done|]. split; [|done]. left.
    unfold onApp, handleRenameCanvas, activeCanvas in *.
    cbn [app canvases activeCanvasId setCanvases].
    rewrite find_fmap_preserving; [by rewrite Hc; eexists|].
    intros a. by case_decide.
  - eexists. split; [done|]. split; [|done]. left.
    unfold onApp, clickCanvas. cbn [app].
    destruct (canvases (app w) !! index) as [canvas|] eqn:Hcanvas;
      [|by eexists].
    unfold activeCanvas.
    cbn [canvases activeCanvasId setActiveCanvasId].
    apply find_is_Some. exists canvas.
    split; [by eapply list_elem_of_lookup_2|done].
  - eexists. split; [done|]. unfold clickFavorite.
    destruct (favoriteCanvasIds w !! index) as [[favId|]|];
      try (split; [left; by eexists|done]).
    case_bool_decide; [split; [left; by eexists|done]|].
    destruct (Js.find _ _) as [canvas|] eqn:Hcanvas;
      [|split; [left; by eexists|done]].
    split; [|done]. left. apply find_Some_elem in Hcanvas as [Hin _].
    unfold onApp, activeCanvas.
    cbn [app canvases activeCanvasId setActiveCanvasId].
    apply find_is_Some. by exists canvas.
  - eexists. split; [done|]. split; [left; by eexists|].
    unfold handleDropOnFavorite. cbn [favoriteCanvasIds].
    rewrite bool_decide_eq_true_2 by (rewrite Hfavs; exact Hslot).
    by rewrite length_insert.
  - eexists. split; [done|]. split; [left; by eexists|].
    unfold handleRemoveFromFavorites. cbn [favoriteCanvasIds].
    case_bool_decide; [by rewrite length_insert|done].
  - eexists. split; [done|]. split; [|done]. left. cbn [onApp app].
    destruct (evolves_active _ _ _ Hc (canvasStep_evolves (app w) ev c Hc))
      as (c' & Hc' & _). by eexists.
Qed.

(** The application always has an active canvas and four favorite slots:
    from a state that has them, any run of events on the list of canvases
    (create, delete, rename, select), on the favorite bar (select, drop on
    a slot, empty a slot) and on the active canvas, each followed by the
    effects of its renders, goes through without an exception and leads to
    a state that has them. *)
Theorem workspace_always_has_active_canvas
    (evs : list (WorkspaceEvent * string)) (w : Workspace) :
  usable w ->
  Forall onSlot evs ->
  exists w',
    workspaceRun evs w = Some w'
    /\ is_Some (activeCanvas (app w'))
    /\ canvases (app w') <> []
    /\ length (favoriteCanvasIds w') = NUM_FAVORITE_SLOTS.
Proof.
  revert w. induction evs as [|[ev uuid] evs IH]; intros w Hw Hslots.
  - exists w. split; [done|]. destruct Hw as [[c Hc] Hfavs].
    split; [by eexists|]. split; [|done].
    apply activeCanvas_elem in Hc as [Hin _]. intros Hnil.
    rewrite Hnil in Hin. by apply elem_of_nil in Hin.
  - apply Forall_cons in Hslots as [Hslot Hslots].
    destruct (handle_keeps_usable ev w Hw Hslot) as (w1 & Hw1 & Hact & Hfavs).
    cbn [workspaceRun]. unfold workspaceStep. cbn [fst snd]. rewrite Hw1.
    cbn [fmap option_fmap option_map]. apply IH; [|done].
    split; [|done]. cbn [onApp app]. by apply afterRender_active.
Qed.

Lemma workspace_always_has_active_canvas_witness :
  exists w',
    workspaceRun [(NewCanvas "canvas-2", "d-1");
                  (DropOnFavorite 0 "canvas-2", "d-2");
                  (DeleteCanvas true "canvas-2", "d-3");
                  (DeleteCanvas true "canvas-1", "d-4");
                  (OnCanvas (AddFrame (16 / 9) "u1"), "d-5")]
      (mkWorkspace (Sample.state [] []) [None; None; None; None]) = Some w'
    /\ is_Some (activeCanvas (app w')).
Proof.
  destruct (workspace_always_has_active_canvas
              [(NewCanvas "canvas-2", "d-1");
               (DropOnFavorite 0 "canvas-2", "d-2");
               (DeleteCanvas true "canvas-2", "d-3");
               (DeleteCanvas true "canvas-1", "d-4");
               (OnCanvas (AddFrame (16 / 9) "u1"), "d-5")]
              (mkWorkspace (Sample.state [] []) [None; None; None; None]))
    as (w' & Hw' & Hact & _).
  - split; [by eexists|reflexivity].
  - repeat constructor.
  - exists w'. split; [exact Hw'|exact Hact].
Defined.

Lemma some_true_elim {A} (P : A -> Prop) `{!forall a, Decision (P a)}
    (l : list A) :
  Js.some P l = true -> exists a, a ∈ l /\ P a.
Proof.
  unfold Js.some. intros Hsome%bool_decide_eq_true. by apply Exists_exists.
Qed.

(** The canvases and the active id that the [try] of the load effect sets
    from the canvases it read. *)
Lemma loaded_canvases_active (loaded : list CanvasState.t)
    (lastActiveId : option string) (uuidTry : string) (w : Workspace) :
  let w1 :=
    match loaded with
    | [] =>
        onApp (fun s =>
                 setActiveCanvasId (Some uuidTry)
                   (setCanvases (fun _ => [defaultCanvas uuidTry]) s)) w
    | first :: _ =>
        onApp (fun s =>
                 setActiveCanvasId
                   (Some match SeaDream.truthy lastActiveId with
                         | Some lastActiveId =>
                             if Js.some
                                  (fun c => CanvasState.id c = lastActiveId)
                                  loaded
                             then lastActiveId else CanvasState.id first
                         | None => CanvasState.id first
                         end)
                   (setCanvases (fun _ => loaded) s)) w
    end in
  is_Some (activeCanvas (app w1))
  /\ favoriteCanvasIds w1 = favoriteCanvasIds w
  /\ forall first rest,
       loaded = first :: rest ->
       canvases (app w1) = loaded
       /\ exists activeId,
            activeCanvasId (app w1) = Some activeId
            /\ activeId ∈ CanvasState.id <$> loaded
            /\ (activeId = CanvasState.id first
                \/ lastActiveId = Some activeId).
Proof.
  destruct loaded as [|first rest]; cbv zeta.
  - split; [|split; [done|by intros ? ? [=]]]. unfold onApp, activeCanvas.
    cbn [app canvases activeCanvasId setActiveCanvasId setCanvases].
    apply find_is_Some. eexists. split; [by left|done].
  - assert (exists activeId,
              match SeaDream.truthy lastActiveId with
              | Some lastActiveId =>
                  if Js.some (fun c => CanvasState.id c = lastActiveId)
                             (first :: rest)
                  then lastActiveId else CanvasState.id first
              | None => CanvasState.id first
              end = activeId
              /\ activeId ∈ CanvasState.id <$> first :: rest
              /\ (activeId = CanvasState.id first
                  \/ lastActiveId = Some activeId)) as (activeId & -> & Hin & Hwhich).
    { destruct (SeaDream.truthy lastActiveId) as [lastId|] eqn:Hlast;
        [|eexists; split; [done|]; split; [by left|by left]].
      destruct (Js.some _ _) eqn:Hsome;
        [|eexists; split; [done|]; split; [by left|by left]].
      exists lastId. split; [done|]. split.
      - apply some_true_elim in Hsome as (c0 & Hin & Hid).
        rewrite <- Hid. by apply list_elem_of_fmap_2.
      - right. unfold SeaDream.truthy in Hlast.
        destruct lastActiveId; [|done]. case_bool_decide; [done|].
        by injection Hlast as <-. }
    split; [|split; [done|]].
    + unfold onApp, activeCanvas.
      cbn [app canvases activeCanvasId setActiveCanvasId setCanvases].
      apply find_is_Some.
      apply list_elem_of_fmap in Hin as (c0 & -> & Hin). by exists c0.
    + intros first' rest' [= <- <-]. split; [done|]. by exists activeId.
Qed.

(** Whatever [localStorage] holds, the application starts with an active
    canvas and four favorite slots.  When one of the three entries cannot
    be parsed, it starts with a single empty default canvas, the stored
    canvases notwithstanding; otherwise the stored canvases are loaded,
    prompt nodes defaulting to none, and the stored active id is taken if
    it names one of them, the first canvas if not. *)
Theorem load_always_gives_active_canvas
    (storedCanvases : Stored (option (list StoredCanvas)))
    (storedFavorites : Stored (option (list (option string))))
    (storedApiConfigs : Stored (gmap string string))
    (lastActiveId : option string) (uuidTry uuidCatch : string)
    (w : Workspace) :
  length (favoriteCanvasIds w) = NUM_FAVORITE_SLOTS ->
  let w' := loadEffect storedCanvases storedFavorites storedApiConfigs
              lastActiveId uuidTry uuidCatch w in
  is_Some (activeCanvas (app w'))
  /\ length (favoriteCanvasIds w') = NUM_FAVORITE_SLOTS
  /\ (storedCanvases = Unparsable \/ storedFavorites = Unparsable
      \/ storedApiConfigs = Unparsable ->
      canvases (app w') = [defaultCanvas uuidCatch]
      /\ activeCanvasId (app w') = Some uuidCatch)
  /\ (forall first rest,
        storedCanvases = Parsed (Some (first :: rest)) ->
        storedFavorites <> Unparsable ->
        storedApiConfigs <> Unparsable ->
        canvases (app w') = revive <$> first :: rest
        /\ exists activeId,
             activeCanvasId (app w') = Some activeId
             /\ activeId ∈ storedId <$> first :: rest
             /\ (activeId = storedId first
                 \/ lastActiveId = Some activeId)).
Proof.
  intros Hslots.
  assert (forall w0, is_Some (activeCanvas (app (loadFallback uuidCatch w0))))
    as Hfallback.
  { intros w0. unfold loadFallback, onApp, activeCanvas.
    cbn [app canvases activeCanvasId setActiveCanvasId setCanvases].
    apply find_is_Some. eexists. split; [by left|done]. }
  assert (forall parsedFavorites : list (option string),
            length (take NUM_FAVORITE_SLOTS
                      (parsedFavorites
                       ++ replicate (NUM_FAVORITE_SLOTS - length parsedFavorites)
                            None)) = NUM_FAVORITE_SLOTS) as Hpad.
  { intros l. rewrite length_take, length_app, length_replicate. lia. }
  unfold loadEffect. cbv zeta.
  set (loaded := match storedCanvases with
                 | Parsed (Some parsedCanvases) => revive <$> parsedCanvases
                 | _ => []
                 end).
  destruct (loaded_canvases_active loaded lastActiveId uuidTry w)
    as (Hact1 & Hfav1 & Hloaded1).
  set (w1 := match loaded with [] => _ | _ => _ end) in *.
  rewrite <- Hfav1 in Hslots.
  assert (forall first rest,
            storedCanvases = Parsed (Some (first :: rest)) ->
            canvases (app w1) = revive <$> first :: rest
            /\ exists activeId,
                 activeCanvasId (app w1) = Some activeId
                 /\ activeId ∈ storedId <$> first :: rest
                 /\ (activeId = storedId first \/ lastActiveId = Some activeId))
    as Hstored1.
  { intros first rest Hstored.
    destruct (Hloaded1 (revive first) (revive <$> rest))
      as (Hcs & activeId & Hid & Hin & Hwhich).
    { unfold loaded. by rewrite Hstored. }
    assert (loaded = revive <$> first :: rest) as Hl
      by (unfold loaded; by rewrite Hstored).
    rewrite Hl in Hcs, Hin. split; [done|]. exists activeId.
    split; [done|]. split; [|done].
    by rewrite <- list_fmap_compose in Hin. }
  clearbody w1 loaded.
  destruct storedCanvases as [| |parsedCanvases].
  - destruct storedFavorites as [| |[parsedFavorites|]],
      storedApiConfigs as [| |configs];
      (split; [by (apply Hfallback || exact Hact1)|]);
      (split; [by (apply Hpad || exact Hslots)|]);
      (split; [|by intros first rest [=]]);
      intros [?|[?|?]]; done.
  - split; [apply Hfallback|].
    split; [unfold loadFallback, onApp; cbn [favoriteCanvasIds];
            by rewrite <- Hfav1|].
    split; [done|].
    by intros first rest [=].
  - destruct storedFavorites as [| |[parsedFavorites|]],
      storedApiConfigs as [| |configs];
      (split; [by (apply Hfallback || exact Hact1)|]);
      (split; [by (apply Hpad || exact Hslots)|]);
      (split; [intros [?|[?|?]]; done|]);
      intros first rest Hstored Hf Ha; try done;
      exact (Hstored1 first rest Hstored).
Qed.

Lemma load_always_gives_active_canvas_witness :
  is_Some
    (activeCanvas
       (app (loadEffect
               (Parsed (Some [mkStoredCanvas "canvas-9" "Old" [] [] None]))
               (Parsed (Some [Some "canvas-9"])) Unparsable (Some "canvas-9")
               "d-1" "d-2"
               (mkWorkspace (Sample.state [] []) [None; None; None; None])))).
Proof.
  refine (proj1 (load_always_gives_active_canvas _ _ _ _ _ _ _ _)).
  reflexivity.
Defined.

End WorkspaceFacts.

(** *** The providers *)

Section ProviderFacts.

Lemma Math_ceil_bounds (a : R) :
  a <= IZR (Js.Math_ceil a) < a + 1.
Proof.
  unfold Js.Math_ceil. rewrite opp_IZR.
  destruct (base_Int_part (- a)) as [H1 H2]. lra.
Qed.

(** The size asked of SeaDream holds at least 921600 pixels and is never
    smaller than the rounded size of the picture sent, in either
    direction; a picture that is large enough keeps its rounded size, and a
    smaller one is scaled up with its proportions kept up to the rounding
    of each side to a whole number. *)
Theorem seadream_size_has_enough_pixels (width height : R) :
  (0 < Js.Math_round width)%Z ->
  (0 < Js.Math_round height)%Z ->
  let finalWidth := (editImageWithSeaDream_size width height).1 in
  let finalHeight := (editImageWithSeaDream_size width height).2 in
  (MIN_PIXELS <= finalWidth * finalHeight)%Z
  /\ (Js.Math_round width <= finalWidth)%Z
  /\ (Js.Math_round height <= finalHeight)%Z
  /\ (IZR finalWidth - 1) * IZR (Js.Math_round height)
     < IZR finalHeight * IZR (Js.Math_round width)
  /\ (IZR finalHeight - 1) * IZR (Js.Math_round width)
     < IZR finalWidth * IZR (Js.Math_round height)
  /\ ((MIN_PIXELS <= Js.Math_round width * Js.Math_round height)%Z ->
      editImageWithSeaDream_size width height
        = (Js.Math_round width, Js.Math_round height)).
Proof.
  intros Hw Hh. unfold editImageWithSeaDream_size. cbv zeta.
  set (fw := Js.Math_round width) in *. set (fh := Js.Math_round height) in *.
  assert (0 < IZR fw) as Ha by (by apply IZR_lt).
  assert (0 < IZR fh) as Hb by (by apply IZR_lt).
  destruct (decide (fw * fh < MIN_PIXELS)%Z) as [Hsmall|Hlarge]; cbn [fst snd].
  - set (a := IZR fw) in *. set (b := IZR fh) in *.
    set (m := IZR MIN_PIXELS).
    assert (0 < m) as Hm by (unfold m, MIN_PIXELS; lra).
    assert (a * b < m) as Hab.
    { unfold a, b, m. rewrite <- mult_IZR. by apply IZR_lt. }
    assert (0 < a / b) as Har by (by apply Rdiv_lt_0_compat).
    set (nw := sqrt (m * (a / b))).
    assert (nw * nw = m * (a / b)) as Hsq.
    { apply sqrt_sqrt. apply Rlt_le, Rmult_lt_0_compat; lra. }
    assert (a <= nw) as Hnw.
    { rewrite <- (sqrt_square a) by lra. apply sqrt_le_1_alt.
      apply Rmult_le_reg_r with b; [done|].
      replace (m * (a / b) * b) with (m * a) by (field; lra). nra. }
    assert (nw / (a / b) * a = nw * b) as Hratio by (field; lra).
    assert (b <= nw / (a / b)) as Hnh.
    { apply Rmult_le_reg_r with a; [done|]. rewrite Hratio. nra. }
    assert (nw * (nw / (a / b)) = m) as Hprod.
    { replace (nw * (nw / (a / b))) with (nw * nw / (a / b)) by (field; lra).
      rewrite Hsq. field. lra. }
    destruct (Math_ceil_bounds nw) as [Hw1 Hw2].
    destruct (Math_ceil_bounds (nw / (a / b))) as [Hh1 Hh2].
    split; [|split; [|split; [|split; [|split]]]].
    + apply le_IZR. rewrite mult_IZR. fold m. rewrite <- Hprod.
      apply Rmult_le_compat; lra.
    + apply le_IZR. fold a. lra.
    + apply le_IZR. fold b. lra.
    + apply Rlt_le_trans with (nw * b); [nra|]. rewrite <- Hratio. nra.
    + apply Rlt_le_trans with (nw / (a / b) * a); [nra|]. rewrite Hratio. nra.
    + intros Hbig. lia.
  - split; [lia|]. split; [lia|]. split; [lia|]. split; [nra|]. split; [nra|done].
Qed.

Lemma seadream_size_has_enough_pixels_witness :
  (MIN_PIXELS <= (editImageWithSeaDream_size 200 80).1
                 * (editImageWithSeaDream_size 200 80).2)%Z.
Proof.
  assert (forall n : Z, Js.Math_round (IZR n) = n) as Hround.
  { intros n. unfold Js.Math_round. apply eq_sym, Int_part_spec.
    rewrite <- (Rinv_l 2) by lra. lra. }
  refine (proj1 (seadream_size_has_enough_pixels 200 80 _ _)).
  - rewrite (Hround 200%Z). lia.
  - rewrite (Hround 80%Z). lia.
Defined.

(** The Gemini edit never returns an empty list of pictures, and what it
    returns are PNG data URIs; a request that was made and did not give a
    picture fails with a message that starts with
    ["Failed to generate image with AI: "], the empty answer included,
    unless what was thrown is not an [Error]; without a key or without
    picture data no request is made. *)
Theorem gemini_edit_never_returns_no_image
    (generateContent : string -> string -> Gemini.ApiOutcome)
    (imageDataUri prompt apiKey : string) :
  match Gemini.editImageWithAI generateContent imageDataUri prompt apiKey with
  | Gemini.Returned imageUrls =>
      imageUrls <> []
      /\ Forall (fun url => Js.startsWith url "data:image/png;base64," = true)
           imageUrls
      /\ apiKey <> ""
      /\ exists rawBase64 response,
           Js.split_comma imageDataUri !! 1%nat = Some rawBase64
           /\ generateContent rawBase64 prompt = Gemini.Resolved response
  | Gemini.Thrown message =>
      (apiKey = "" /\ message = "API key is missing.")
      \/ (SeaDream.truthy (Js.split_comma imageDataUri !! 1%nat) = None
          /\ message = "Invalid image data URI provided to Gemini service.")
      \/ (exists rawBase64,
            Js.split_comma imageDataUri !! 1%nat = Some rawBase64
            /\ (Js.startsWith message "Failed to generate image with AI: " = true
                \/ generateContent rawBase64 prompt = Gemini.RejectedOther
                   /\ message
                      = "An unknown error occurred while calling the AI model."))
  end.
Proof.
  unfold Gemini.editImageWithAI.
  case_bool_decide as Hkey; [by left|].
  destruct (SeaDream.truthy _) as [rawBase64|] eqn:Hraw; [|right; by left].
  assert (Js.split_comma imageDataUri !! 1%nat = Some rawBase64) as Hsplit.
  { unfold SeaDream.truthy in Hraw.
    destruct (Js.split_comma imageDataUri !! 1%nat); [|done].
    case_bool_decide; [done|]. by injection Hraw as <-. }
  assert (forall error, match Gemini.rethrow (Some error) with
                        | Gemini.Thrown message =>
                            Js.startsWith message
                              "Failed to generate image with AI: " = true
                        | Gemini.Returned _ => False
                        end) as Hwrapped.
  { intros error. unfold Gemini.rethrow.
    destruct (Js.includes_string _ _); [done|]. apply startsWith_append. }
  destruct (generateContent rawBase64 prompt) as [response|error|] eqn:Hcall.
  - cbv zeta. case_bool_decide as Hlen.
    + specialize (Hwrapped (SeaDream.or_string (Gemini.text response)
                   "API returned an empty response without an image.")).
      destruct (Gemini.rethrow _); [done|]. right. right.
      exists rawBase64. split; [done|by left].
    + split; [by intros Hnil; rewrite Hnil in Hlen|].
      split; [|split; [done|by exists rawBase64, response]].
      unfold Gemini.imageUrlsOf.
      destruct (Gemini.candidates response) as [[|parts ?]|]; try constructor.
      apply Forall_forall. intros url (part & _ & Hurl)%list_elem_of_omap.
      destruct (Gemini.inlineData part) as [data|]; [|done].
      injection Hurl as <-. apply startsWith_append.
  - specialize (Hwrapped error). destruct (Gemini.rethrow _); [done|].
    right. right. exists rawBase64. split; [done|by left].
  - right. right. exists rawBase64. split; [done|]. right. by split.
Qed.

End ProviderFacts.
